(** * WR Trade Pro: the real-time market-data client

    A shallow embedding of [lib/websocket/client.ts] (class
    [WebSocketClient]) and of the candle cache of the market-data hook
    ([getCandlesWithCache]), with the properties of the specification
    stated over it.

    The client is single-threaded JavaScript.  Its state is the record
    [Client]; the run-time objects it shares with the event loop (timers,
    promises, promise reactions) and the observable trace live in [World].
    Every method is a function [World -> World] (or returns a handle
    together with the new world).  A JavaScript [Map] or [Set] is a list in
    insertion order, which is the order [forEach] visits it in. *)

From Stdlib Require Import String List Bool Arith PeanoNat QArith Qpower Lia.
From Stdlib Require Import DecimalString.
Import ListNotations.
Open Scope string_scope.
Open Scope nat_scope.

(* ================================================================== *)
(** ** Data model ([lib/websocket/types.ts]) *)

(** A JavaScript [number] carried in a payload is never inspected by the
    client; it is kept as a rational. *)
Record TickData := {
  tick_symbol : string; bid : Q; ask : Q; last : Q; tick_volume : Q;
  tick_time : string; tick_spread : Q; change : Q; changePercent : Q }.

Record CandleData := {
  time : string; open : Q; high : Q; low : Q; close : Q; volume : Q;
  spread : option Q }.

Record OrderBookEntry := { price : Q; entry_volume : Q }.

Record OrderBookData := {
  ob_symbol : string; ob_time : string;
  bids : list OrderBookEntry; asks : list OrderBookEntry;
  ob_spread : Q; midPrice : Q }.

Record AccountInfo := {
  login : Q; balance : Q; equity : Q; margin : Q; freeMargin : Q;
  marginLevel : Q; currency : string; leverage : Q; name : string;
  server : string; profit : Q }.

(** [keyof WebSocketEventMap]. *)
Inductive EventName :=
| connected_ev | disconnected_ev | error_ev
| tick_ev | candles_ev | order_book_ev | account_info_ev
| market_summary_ev | health_ev
| subscribed_ev | unsubscribed_ev | symbols_ev.

(** The payload of an event, one constructor per entry of
    [WebSocketEventMap] (time stamps left out).  [candles] is optional
    because the handlers read it as [data.candles || []]. *)
Inductive EventData :=
| DConnected (message : string)
| DDisconnected (reason : string)
| DError (code details : string) (reconnectAttempt : option nat)
| DTick (symbol : string) (tick : TickData)
| DCandles (symbol timeframe : string) (candles : option (list CandleData))
| DOrderBook (symbol : string) (order_book : OrderBookData)
| DAccountInfo (account : AccountInfo)
| DMarketSummary
| DHealth (status : string)
| DSubscribed (symbol : string)
| DUnsubscribed (symbol : string)
| DSymbols (symbols : list string).

Definition event_name (d : EventData) : EventName :=
  match d with
  | DConnected _ => connected_ev
  | DDisconnected _ => disconnected_ev
  | DError _ _ _ => error_ev
  | DTick _ _ => tick_ev
  | DCandles _ _ _ => candles_ev
  | DOrderBook _ _ => order_book_ev
  | DAccountInfo _ => account_info_ev
  | DMarketSummary => market_summary_ev
  | DHealth _ => health_ev
  | DSubscribed _ => subscribed_ev
  | DUnsubscribed _ => unsubscribed_ev
  | DSymbols _ => symbols_ev
  end.

(** Messages the client sends with [socket.emit]. *)
Inductive Outbound :=
| OSubscribe (symbol timeframe : string)
| OUnsubscribe (symbol : string)
| OGetCandles (symbol timeframe : string) (count : nat)
| OGetOrderBook (symbol : string) (depth : nat)
| OGetAccountInfo
| OGetSymbols
| OPing.

(** Function values.  A JavaScript function is compared by identity, so
    every closure the client creates carries the handles allocated by the
    call that created it: [q] is the promise it settles, [t] the timeout
    it clears.  [CbUser] is a listener of a collaborator; it is opaque and
    does not call back into the client. *)
Inductive Callback :=
| CbUser (id : nat)
| CbOnce (id : nat) (event : EventName) (callback : Callback)
| CbSymbols (q t : nat)
| CbCandles (q t : nat) (symbol timeframe : string)
| CbOrderBook (q t : nat) (symbol : string)
| CbAccountInfo (q t : nat).

Definition EventName_eq_dec (a b : EventName) : {a = b} + {a <> b}.
Proof. decide equality. Defined.

Definition Callback_eq_dec (a b : Callback) : {a = b} + {a <> b}.
Proof.
  decide equality;
    first [ apply Nat.eq_dec | apply string_dec | apply EventName_eq_dec ].
Defined.

Definition EventName_eqb (a b : EventName) : bool :=
  if EventName_eq_dec a b then true else false.

Definition Callback_eqb (a b : Callback) : bool :=
  if Callback_eq_dec a b then true else false.

(** What a promise settles to. *)
Inductive Value :=
| VBool (b : bool)
| VSymbols (symbols : list string)
| VCandles (candles : list CandleData)
| VOrderBook (order_book : OrderBookData)
| VAccount (account : AccountInfo).

Inductive Outcome :=
| Resolved (v : Value)
| Rejected (message : string).

(** The callbacks handed to [setTimeout] / [setInterval]. *)
Inductive TimerAction :=
| TReconnect
| TPing
| TRejectTimeout (q : nat) (message : string)
| TCandlesTimeout (q : nat) (handler : Callback)
| TCacheExpire (cacheKey : string).

(** *** The socket (socket.io-client, an external library)

    Only its event-emitter interface is used.  Listeners are kept in
    registration order.  [LConnect] ... [LForward] are the arrow functions
    installed by [setupSocketListeners]; [LPlain f] is [socket.on(ev, f)];
    [LOnce f] is the wrapper [socket.once(ev, f)] registers, which the
    emitter recognises through its [fn] property. *)
Inductive SockEvent :=
| connect_sev | disconnect_sev | connect_error_sev
| data_sev (e : EventName).

Inductive SockListener :=
| LConnect | LDisconnect | LConnectError | LTick
| LForward (e : EventName)
| LPlain (f : Callback)
| LOnce (f : Callback).

Record Socket := { handlers : list (SockEvent * SockListener) }.

(** What arrives on the socket. *)
Inductive SockMsg :=
| MConnect
| MDisconnect (reason : string)
| MConnectError (message : string)
| MData (d : EventData).

Definition sock_event (m : SockMsg) : SockEvent :=
  match m with
  | MConnect => connect_sev
  | MDisconnect _ => disconnect_sev
  | MConnectError _ => connect_error_sev
  | MData d => data_sev (event_name d)
  end.

Definition SockEvent_eqb (a b : SockEvent) : bool :=
  match a, b with
  | connect_sev, connect_sev => true
  | disconnect_sev, disconnect_sev => true
  | connect_error_sev, connect_error_sev => true
  | data_sev x, data_sev y => EventName_eqb x y
  | _, _ => false
  end.

(** *** The fields of [WebSocketClient]

    [lastConnectionError] and [connectionStartTime] only feed log lines
    and are left out; [maxReconnectAttempts], [reconnectDelay] and
    [reconnectDelayMultiplier] are never assigned and are constants
    below. *)
Record Client := {
  socket : option Socket;
  subscribers : list (string * list nat);
  isConnecting : bool;
  isConnected : bool;
  pendingSubscriptions : list string;
  reconnectAttempts : nat;
  reconnectTimer : option nat;
  pingInterval : option nat;
  eventListeners : list (EventName * list Callback);
  connectionPromise : option nat;
  connectionResolve : option nat }.

Definition maxReconnectAttempts : nat := 10.
Definition reconnectDelay : Q := 5000 # 1.
Definition reconnectDelayMultiplier : Q := 3 # 2.

(** What can be observed from outside, in order of occurrence. *)
Inductive Effect :=
| Sent (m : Outbound)
| Emitted (d : EventData)
| Invoked (f : Callback) (d : EventData)
| TickCall (cb : nat) (tick : TickData).

(** A timer as the run time keeps it: what it runs, its delay in
    milliseconds, and whether it is still armed (not yet fired or
    cleared). *)
Record Timer := { action : TimerAction; delay : Q; armed : bool }.

(** The client together with the run-time objects it creates.  A timer
    handle is an index into [timers] and a promise is an index into
    [promises] ([None] while pending), so a newly created handle is fresh
    by construction.  [reactions] are the
    [then]/[catch] continuations of the hook: source promise, cache key,
    derived promise.  [candlesCache] and [candlesPromises] are the two
    module-level maps of the hook. *)
Record World := {
  client : Client;
  timers : list Timer;
  promises : list (option Outcome);
  reactions : list (nat * string * nat);
  nextClosure : nat;
  trace : list Effect;
  candlesCache : list (string * list CandleData);
  candlesPromises : list (string * nat) }.

(* ------------------------------------------------------------------ *)
(** *** Field updates *)

Definition set_socket (x : option Socket) (c : Client) : Client :=
  {| socket := x; subscribers := subscribers c; isConnecting := isConnecting c;
     isConnected := isConnected c; pendingSubscriptions := pendingSubscriptions c;
     reconnectAttempts := reconnectAttempts c; reconnectTimer := reconnectTimer c;
     pingInterval := pingInterval c; eventListeners := eventListeners c;
     connectionPromise := connectionPromise c; connectionResolve := connectionResolve c |}.

Definition set_subscribers (x : list (string * list nat)) (c : Client) : Client :=
  {| socket := socket c; subscribers := x; isConnecting := isConnecting c;
     isConnected := isConnected c; pendingSubscriptions := pendingSubscriptions c;
     reconnectAttempts := reconnectAttempts c; reconnectTimer := reconnectTimer c;
     pingInterval := pingInterval c; eventListeners := eventListeners c;
     connectionPromise := connectionPromise c; connectionResolve := connectionResolve c |}.

Definition set_isConnecting (x : bool) (c : Client) : Client :=
  {| socket := socket c; subscribers := subscribers c; isConnecting := x;
     isConnected := isConnected c; pendingSubscriptions := pendingSubscriptions c;
     reconnectAttempts := reconnectAttempts c; reconnectTimer := reconnectTimer c;
     pingInterval := pingInterval c; eventListeners := eventListeners c;
     connectionPromise := connectionPromise c; connectionResolve := connectionResolve c |}.

Definition set_isConnected (x : bool) (c : Client) : Client :=
  {| socket := socket c; subscribers := subscribers c; isConnecting := isConnecting c;
     isConnected := x; pendingSubscriptions := pendingSubscriptions c;
     reconnectAttempts := reconnectAttempts c; reconnectTimer := reconnectTimer c;
     pingInterval := pingInterval c; eventListeners := eventListeners c;
     connectionPromise := connectionPromise c; connectionResolve := connectionResolve c |}.

Definition set_pendingSubscriptions (x : list string) (c : Client) : Client :=
  {| socket := socket c; subscribers := subscribers c; isConnecting := isConnecting c;
     isConnected := isConnected c; pendingSubscriptions := x;
     reconnectAttempts := reconnectAttempts c; reconnectTimer := reconnectTimer c;
     pingInterval := pingInterval c; eventListeners := eventListeners c;
     connectionPromise := connectionPromise c; connectionResolve := connectionResolve c |}.

Definition set_reconnectAttempts (x : nat) (c : Client) : Client :=
  {| socket := socket c; subscribers := subscribers c; isConnecting := isConnecting c;
     isConnected := isConnected c; pendingSubscriptions := pendingSubscriptions c;
     reconnectAttempts := x; reconnectTimer := reconnectTimer c;
     pingInterval := pingInterval c; eventListeners := eventListeners c;
     connectionPromise := connectionPromise c; connectionResolve := connectionResolve c |}.

Definition set_reconnectTimer (x : option nat) (c : Client) : Client :=
  {| socket := socket c; subscribers := subscribers c; isConnecting := isConnecting c;
     isConnected := isConnected c; pendingSubscriptions := pendingSubscriptions c;
     reconnectAttempts := reconnectAttempts c; reconnectTimer := x;
     pingInterval := pingInterval c; eventListeners := eventListeners c;
     connectionPromise := connectionPromise c; connectionResolve := connectionResolve c |}.

Definition set_pingInterval (x : option nat) (c : Client) : Client :=
  {| socket := socket c; subscribers := subscribers c; isConnecting := isConnecting c;
     isConnected := isConnected c; pendingSubscriptions := pendingSubscriptions c;
     reconnectAttempts := reconnectAttempts c; reconnectTimer := reconnectTimer c;
     pingInterval := x; eventListeners := eventListeners c;
     connectionPromise := connectionPromise c; connectionResolve := connectionResolve c |}.

Definition set_eventListeners (x : list (EventName * list Callback)) (c : Client) : Client :=
  {| socket := socket c; subscribers := subscribers c; isConnecting := isConnecting c;
     isConnected := isConnected c; pendingSubscriptions := pendingSubscriptions c;
     reconnectAttempts := reconnectAttempts c; reconnectTimer := reconnectTimer c;
     pingInterval := pingInterval c; eventListeners := x;
     connectionPromise := connectionPromise c; connectionResolve := connectionResolve c |}.

Definition set_connectionPromise (x : option nat) (c : Client) : Client :=
  {| socket := socket c; subscribers := subscribers c; isConnecting := isConnecting c;
     isConnected := isConnected c; pendingSubscriptions := pendingSubscriptions c;
     reconnectAttempts := reconnectAttempts c; reconnectTimer := reconnectTimer c;
     pingInterval := pingInterval c; eventListeners := eventListeners c;
     connectionPromise := x; connectionResolve := connectionResolve c |}.

Definition set_connectionResolve (x : option nat) (c : Client) : Client :=
  {| socket := socket c; subscribers := subscribers c; isConnecting := isConnecting c;
     isConnected := isConnected c; pendingSubscriptions := pendingSubscriptions c;
     reconnectAttempts := reconnectAttempts c; reconnectTimer := reconnectTimer c;
     pingInterval := pingInterval c; eventListeners := eventListeners c;
     connectionPromise := connectionPromise c; connectionResolve := x |}.

Definition upd_client (f : Client -> Client) (w : World) : World :=
  {| client := f (client w); timers := timers w; promises := promises w;
     reactions := reactions w; nextClosure := nextClosure w; trace := trace w;
     candlesCache := candlesCache w; candlesPromises := candlesPromises w |}.

Definition set_timers (x : list Timer) (w : World) : World :=
  {| client := client w; timers := x; promises := promises w;
     reactions := reactions w; nextClosure := nextClosure w; trace := trace w;
     candlesCache := candlesCache w; candlesPromises := candlesPromises w |}.

Definition set_promises (x : list (option Outcome)) (w : World) : World :=
  {| client := client w; timers := timers w; promises := x;
     reactions := reactions w; nextClosure := nextClosure w; trace := trace w;
     candlesCache := candlesCache w; candlesPromises := candlesPromises w |}.

Definition set_reactions (x : list (nat * string * nat)) (w : World) : World :=
  {| client := client w; timers := timers w; promises := promises w;
     reactions := x; nextClosure := nextClosure w; trace := trace w;
     candlesCache := candlesCache w; candlesPromises := candlesPromises w |}.

Definition set_nextClosure (x : nat) (w : World) : World :=
  {| client := client w; timers := timers w; promises := promises w;
     reactions := reactions w; nextClosure := x; trace := trace w;
     candlesCache := candlesCache w; candlesPromises := candlesPromises w |}.

Definition set_trace (x : list Effect) (w : World) : World :=
  {| client := client w; timers := timers w; promises := promises w;
     reactions := reactions w; nextClosure := nextClosure w; trace := x;
     candlesCache := candlesCache w; candlesPromises := candlesPromises w |}.

Definition set_candlesCache (x : list (string * list CandleData)) (w : World) : World :=
  {| client := client w; timers := timers w; promises := promises w;
     reactions := reactions w; nextClosure := nextClosure w; trace := trace w;
     candlesCache := x; candlesPromises := candlesPromises w |}.

Definition set_candlesPromises (x : list (string * nat)) (w : World) : World :=
  {| client := client w; timers := timers w; promises := promises w;
     reactions := reactions w; nextClosure := nextClosure w; trace := trace w;
     candlesCache := candlesCache w; candlesPromises := x |}.

(* ------------------------------------------------------------------ *)
(** *** [Map] and [Set] as insertion-ordered lists *)

Section MapSet.
Context {K V : Type} (eqb : K -> K -> bool).

Fixpoint map_get (k : K) (m : list (K * V)) : option V :=
  match m with
  | [] => None
  | (k', v) :: m' => if eqb k k' then Some v else map_get k m'
  end.

Definition map_has (k : K) (m : list (K * V)) : bool :=
  match map_get k m with Some _ => true | None => false end.

(** [Map.prototype.set]: an existing key keeps its position. *)
Fixpoint map_set (k : K) (v : V) (m : list (K * V)) : list (K * V) :=
  match m with
  | [] => [(k, v)]
  | (k', v') :: m' =>
      if eqb k k' then (k, v) :: m' else (k', v') :: map_set k v m'
  end.

Fixpoint map_delete (k : K) (m : list (K * V)) : list (K * V) :=
  match m with
  | [] => []
  | (k', v') :: m' =>
      if eqb k k' then m' else (k', v') :: map_delete k m'
  end.

Fixpoint set_has (k : K) (s : list K) : bool :=
  match s with
  | [] => false
  | k' :: s' => if eqb k k' then true else set_has k s'
  end.

(** [Set.prototype.add]: a member is not added again. *)
Definition set_add (k : K) (s : list K) : list K :=
  if set_has k s then s else s ++ [k].

Fixpoint set_delete (k : K) (s : list K) : list K :=
  match s with
  | [] => []
  | k' :: s' => if eqb k k' then s' else k' :: set_delete k s'
  end.
End MapSet.

(** Array update by index, for the handle tables. *)
Fixpoint list_set {A : Type} (n : nat) (x : A) (l : list A) : list A :=
  match l, n with
  | [], _ => []
  | _ :: l', O => x :: l'
  | a :: l', S n' => a :: list_set n' x l'
  end.

(* ================================================================== *)
(** ** Run-time primitives *)

Definition log (e : Effect) (w : World) : World :=
  set_trace (trace w ++ [e]) w.

(** [socket.emit(name, payload)]. *)
Definition send (m : Outbound) (w : World) : World := log (Sent m) w.

(** [new Promise(...)]: the handle of a pending promise. *)
Definition new_promise (w : World) : nat * World :=
  (length (promises w), set_promises (promises w ++ [None]) w).

Definition promise_state (q : nat) (w : World) : option Outcome :=
  match nth_error (promises w) q with
  | Some (Some o) => Some o
  | _ => None
  end.

Definition is_pending (q : nat) (w : World) : bool :=
  match nth_error (promises w) q with
  | Some None => true
  | _ => false
  end.

(** [resolve(v)] / [reject(e)]: only the first call on a promise has an
    effect. *)
Definition settle (q : nat) (o : Outcome) (w : World) : World :=
  if is_pending q w then set_promises (list_set q (Some o) (promises w)) w else w.

Definition resolve (q : nat) (v : Value) : World -> World := settle q (Resolved v).
Definition reject (q : nat) (message : string) : World -> World :=
  settle q (Rejected message).

(** [setTimeout] / [setInterval]. *)
Definition setTimeout (a : TimerAction) (ms : Q) (w : World) : nat * World :=
  (length (timers w),
   set_timers (timers w ++ [{| action := a; delay := ms; armed := true |}]) w).

Definition disarm (x : Timer) : Timer :=
  {| action := action x; delay := delay x; armed := false |}.

(** [clearTimeout] / [clearInterval]. *)
Definition clearTimeout (t : nat) (w : World) : World :=
  match nth_error (timers w) t with
  | Some x => set_timers (list_set t (disarm x) (timers w)) w
  | None => w
  end.

(** The action and delay of timer [t], while it is armed. *)
Definition timer_pending (t : nat) (w : World) : option (TimerAction * Q) :=
  match nth_error (timers w) t with
  | Some x => if armed x then Some (action x, delay x) else None
  | None => None
  end.

(** [this.socket && this.isConnected]. *)
Definition connected (w : World) : bool :=
  match socket (client w) with
  | Some _ => isConnected (client w)
  | None => false
  end.

(* ================================================================== *)
(** ** Subscription registry *)

Definition sendSubscribe (symbol : string) (w : World) : World :=
  if connected w then send (OSubscribe symbol "M5") w
  else upd_client (fun c =>
         set_pendingSubscriptions
           (set_add String.eqb symbol (pendingSubscriptions c)) c) w.

Definition sendUnsubscribe (symbol : string) (w : World) : World :=
  if connected w then send (OUnsubscribe symbol) w else w.

Definition subscribers_add (symbol : string) (cb : nat) (c : Client) : Client :=
  match map_get String.eqb symbol (subscribers c) with
  | Some callbacks =>
      set_subscribers
        (map_set String.eqb symbol (set_add Nat.eqb cb callbacks) (subscribers c)) c
  | None => c
  end.

Definition subscribe (symbol : string) (callback : nat) (w : World) : World :=
  let w1 :=
    if map_has String.eqb symbol (subscribers (client w)) then w
    else sendSubscribe symbol
           (upd_client (fun c =>
              set_subscribers (map_set String.eqb symbol [] (subscribers c)) c) w) in
  upd_client (subscribers_add symbol callback) w1.

Definition unsubscribe (symbol : string) (callback : option nat) (w : World) : World :=
  match map_get String.eqb symbol (subscribers (client w)) with
  | None => w
  | Some callbacks =>
      match callback with
      | Some cb =>
          let callbacks' := set_delete Nat.eqb cb callbacks in
          let w1 := upd_client (fun c =>
                      set_subscribers
                        (map_set String.eqb symbol callbacks' (subscribers c)) c) w in
          match callbacks' with
          | [] =>
              sendUnsubscribe symbol
                (upd_client (fun c =>
                   set_subscribers (map_delete String.eqb symbol (subscribers c)) c) w1)
          | _ :: _ => w1
          end
      | None =>
          sendUnsubscribe symbol
            (upd_client (fun c =>
               set_subscribers (map_delete String.eqb symbol (subscribers c)) c) w)
      end
  end.

(* ================================================================== *)
(** ** Event bus *)

Definition listeners_of (event : EventName) (c : Client) : list Callback :=
  match map_get EventName_eqb event (eventListeners c) with
  | Some l => l
  | None => []
  end.

(** The emitter of the socket: [on] appends, [off(ev, f)] removes the first
    listener that is [f] or wraps [f], [emit] calls a copy of the list. *)
Definition sock_on (ev : SockEvent) (l : SockListener) (s : Socket) : Socket :=
  {| handlers := handlers s ++ [(ev, l)] |}.

Definition listener_is (f : Callback) (l : SockListener) : bool :=
  match l with
  | LPlain g => Callback_eqb f g
  | LOnce g => Callback_eqb f g
  | _ => false
  end.

Definition wrapper_is (f : Callback) (l : SockListener) : bool :=
  match l with
  | LOnce g => Callback_eqb f g
  | _ => false
  end.

Fixpoint remove_first (ev : SockEvent) (p : SockListener -> bool)
    (hs : list (SockEvent * SockListener)) : list (SockEvent * SockListener) :=
  match hs with
  | [] => []
  | (e, l) :: hs' =>
      if SockEvent_eqb ev e && p l then hs'
      else (e, l) :: remove_first ev p hs'
  end.

Definition sock_off (ev : SockEvent) (p : SockListener -> bool) (s : Socket) : Socket :=
  {| handlers := remove_first ev p (handlers s) |}.

Definition upd_socket (f : Socket -> Socket) (w : World) : World :=
  upd_client (fun c => set_socket (option_map f (socket c)) c) w.

Definition on (event : EventName) (callback : Callback) (w : World) : World :=
  let w1 :=
    upd_client (fun c =>
      set_eventListeners
        (map_set EventName_eqb event
           (set_add Callback_eqb callback (listeners_of event c))
           (eventListeners c)) c) w in
  if connected w1
  then upd_socket (sock_on (data_sev event) (LPlain callback)) w1
  else w1.

Definition off (event : EventName) (callback : option Callback) (w : World) : World :=
  let w1 :=
    match map_get EventName_eqb event (eventListeners (client w)) with
    | Some l =>
        let l' := match callback with
                  | Some cb => set_delete Callback_eqb cb l
                  | None => []
                  end in
        upd_client (fun c =>
          set_eventListeners (map_set EventName_eqb event l' (eventListeners c)) c) w
    | None => w
    end in
  match callback with
  | Some cb => upd_socket (sock_off (data_sev event) (listener_is cb)) w1
  | None => w1
  end.

Definition once (event : EventName) (callback : Callback) (w : World) : World :=
  match socket (client w) with
  | None => w
  | Some _ =>
      let onceHandler := CbOnce (nextClosure w) event callback in
      let w1 := set_nextClosure (S (nextClosure w)) w in
      let w2 := on event onceHandler w1 in
      upd_socket (sock_on (data_sev event) (LOnce onceHandler)) w2
  end.

(** Calling a function value.  [CbOnce] is [onceHandler]; the other
    closures are the [handler]s of the four pull queries. *)
Fixpoint call (f : Callback) (d : EventData) (w : World) : World :=
  let w0 := log (Invoked f d) w in
  match f with
  | CbUser _ => w0
  | CbOnce id event callback =>
      call callback d (off event (Some (CbOnce id event callback)) w0)
  | CbSymbols q t =>
      match d with
      | DSymbols symbols =>
          resolve q (VSymbols symbols)
            (off symbols_ev (Some (CbSymbols q t)) (clearTimeout t w0))
      | _ => w0
      end
  | CbCandles q t symbol timeframe =>
      match d with
      | DCandles s tf candles =>
          if String.eqb s symbol && String.eqb tf timeframe then
            resolve q (VCandles (match candles with Some l => l | None => [] end))
              (upd_socket
                 (sock_off (data_sev candles_ev)
                    (listener_is (CbCandles q t symbol timeframe)))
                 (clearTimeout t w0))
          else w0
      | _ => w0
      end
  | CbOrderBook q t symbol =>
      match d with
      | DOrderBook s order_book =>
          if String.eqb s symbol then
            resolve q (VOrderBook order_book)
              (off order_book_ev (Some (CbOrderBook q t symbol)) (clearTimeout t w0))
          else w0
      | _ => w0
      end
  | CbAccountInfo q t =>
      match d with
      | DAccountInfo account =>
          resolve q (VAccount account)
            (off account_info_ev (Some (CbAccountInfo q t)) (clearTimeout t w0))
      | _ => w0
      end
  end.

(** [Set.prototype.forEach] skips a member deleted before it is reached;
    no listener of the model adds one during the visit. *)
Definition emit (d : EventData) (w : World) : World :=
  let w1 := log (Emitted d) w in
  fold_left
    (fun w' cb =>
       if set_has Callback_eqb cb (listeners_of (event_name d) (client w'))
       then call cb d w' else w')
    (listeners_of (event_name d) (client w1)) w1.

(* ================================================================== *)
(** ** Connection manager *)

Fixpoint includes (sub s : string) : bool :=
  String.prefix sub s ||
  match s with
  | EmptyString => false
  | String _ s' => includes sub s'
  end.

Definition getErrorCode (message : string) : string :=
  if includes "ECONNREFUSED" message then "ECONNREFUSED"
  else if includes "timeout" message then "TIMEOUT"
  else if includes "Network Error" message then "NETWORK_ERROR"
  else if includes "xhr poll error" message then "POLL_ERROR"
  else "UNKNOWN".

Definition string_of_nat (n : nat) : string :=
  NilEmpty.string_of_uint (Nat.to_uint n).

Definition scheduleReconnection (w : World) : World :=
  if maxReconnectAttempts <=? reconnectAttempts (client w) then
    emit (DError "MAX_RECONNECT_ATTEMPTS"
            ("Failed to reconnect after " ++ string_of_nat maxReconnectAttempts
             ++ " attempts") None) w
  else
    let n := S (reconnectAttempts (client w)) in
    let w1 := upd_client (set_reconnectAttempts n) w in
    let ms :=
      (reconnectDelay * reconnectDelayMultiplier ^ Z.of_nat (n - 1))%Q in
    let (t, w2) := setTimeout TReconnect ms w1 in
    upd_client (set_reconnectTimer (Some t)) w2.

Definition clearTimers (w : World) : World :=
  let w1 :=
    match reconnectTimer (client w) with
    | Some t => upd_client (set_reconnectTimer None) (clearTimeout t w)
    | None => w
    end in
  match pingInterval (client w1) with
  | Some t => upd_client (set_pingInterval None) (clearTimeout t w1)
  | None => w1
  end.

Definition ping (w : World) : World :=
  if connected w then send OPing w else w.

Definition startPingInterval (w : World) : World :=
  let w1 := clearTimers w in
  let (t, w2) := setTimeout TPing (30000 # 1) w1 in
  upd_client (set_pingInterval (Some t)) w2.

(** The listeners [setupSocketListeners] installs, in its order. *)
Definition setupSocketListeners (s : Socket) : Socket :=
  {| handlers := handlers s ++
       [ (connect_sev, LConnect);
         (disconnect_sev, LDisconnect);
         (connect_error_sev, LConnectError);
         (data_sev tick_ev, LTick);
         (data_sev connected_ev, LForward connected_ev);
         (data_sev disconnected_ev, LForward disconnected_ev);
         (data_sev error_ev, LForward error_ev);
         (data_sev subscribed_ev, LForward subscribed_ev);
         (data_sev unsubscribed_ev, LForward unsubscribed_ev);
         (data_sev market_summary_ev, LForward market_summary_ev);
         (data_sev account_info_ev, LForward account_info_ev);
         (data_sev health_ev, LForward health_ev);
         (data_sev candles_ev, LForward candles_ev);
         (data_sev order_book_ev, LForward order_book_ev);
         (data_sev symbols_ev, LForward symbols_ev) ] |}.

Inductive ConnectResult :=
| Now (b : bool)
| Later (p : nat).

(** [io(url, options)] returns a new socket with no listeners; it is taken
    not to throw. *)
Definition connect (w : World) : ConnectResult * World :=
  if isConnected (client w) then (Now true, w)
  else
    match isConnecting (client w), connectionPromise (client w) with
    | true, Some p => (Later p, w)
    | _, _ =>
        let w1 := upd_client (set_isConnecting true) w in
        let (p, w2) := new_promise w1 in
        let w3 := upd_client (fun c =>
                    set_connectionResolve (Some p)
                      (set_connectionPromise (Some p) c)) w2 in
        let w4 := upd_client
                    (set_socket (Some (setupSocketListeners {| handlers := [] |}))) w3 in
        (Later p, w4)
    end.

Definition connected_message : string := "Connected to MT5 Socket.IO Server".

(** The ['connect'] listener. *)
Definition onConnect (w : World) : World :=
  let w1 := upd_client (fun c =>
              set_reconnectAttempts 0
                (set_isConnecting false (set_isConnected true c))) w in
  let w2 := startPingInterval w1 in
  let w3 := fold_left (fun w' symbol => sendSubscribe symbol w')
              (pendingSubscriptions (client w2)) w2 in
  let w4 := upd_client (set_pendingSubscriptions []) w3 in
  let w5 := emit (DConnected connected_message) w4 in
  match connectionResolve (client w5) with
  | Some p => upd_client (set_connectionResolve None) (resolve p (VBool true) w5)
  | None => w5
  end.

(** The ['disconnect'] listener. *)
Definition onDisconnect (reason : string) (w : World) : World :=
  let w1 := upd_client (set_isConnected false) w in
  let w2 := clearTimers w1 in
  let w3 := fold_left
              (fun w' (entry : string * list nat) =>
                 upd_client (fun c =>
                   set_pendingSubscriptions
                     (set_add String.eqb (fst entry) (pendingSubscriptions c)) c) w')
              (subscribers (client w2)) w2 in
  let w4 := emit (DDisconnected reason) w3 in
  if negb (String.eqb reason "io client disconnect")
     && negb (String.eqb reason "transport close")
  then scheduleReconnection w4 else w4.

(** The ['connect_error'] listener. *)
Definition onConnectError (message : string) (w : World) : World :=
  let w1 := upd_client (fun c => set_isConnected false (set_isConnecting false c)) w in
  let w2 := emit (DError (getErrorCode message) message
                    (Some (reconnectAttempts (client w1) + 1))) w1 in
  let w3 := scheduleReconnection w2 in
  match connectionResolve (client w3) with
  | Some p => upd_client (set_connectionResolve None) (resolve p (VBool false) w3)
  | None => w3
  end.

(** The ['tick'] listener: every callback registered for the symbol. *)
Definition onTick (symbol : string) (tick : TickData) (w : World) : World :=
  match map_get String.eqb symbol (subscribers (client w)) with
  | Some callbacks =>
      fold_left (fun w' cb => log (TickCall cb tick) w') callbacks w
  | None => w
  end.

Definition run_listener (m : SockMsg) (w : World) (l : SockListener) : World :=
  match l, m with
  | LConnect, MConnect => onConnect w
  | LDisconnect, MDisconnect reason => onDisconnect reason w
  | LConnectError, MConnectError message => onConnectError message w
  | LTick, MData (DTick symbol tick) => onTick symbol tick w
  | LForward _, MData d => emit d w
  | LPlain f, MData d => call f d w
  | LOnce f, MData d =>
      call f d (upd_socket (sock_off (data_sev (event_name d)) (wrapper_is f)) w)
  | _, _ => w
  end.

Definition listeners_for (ev : SockEvent) (s : Socket) : list SockListener :=
  map snd (filter (fun p => SockEvent_eqb ev (fst p)) (handlers s)).

(** An event arriving on the current socket. *)
Definition deliver (m : SockMsg) (w : World) : World :=
  match socket (client w) with
  | None => w
  | Some s => fold_left (run_listener m) (listeners_for (sock_event m) s) w
  end.

(** [socket.disconnect()] on a connected socket fires ['disconnect'] with
    reason ["io client disconnect"] before it returns. *)
Definition disconnect (w : World) : World :=
  let w1 := clearTimers w in
  let w2 :=
    match socket (client w1) with
    | Some _ =>
        let w' := if isConnected (client w1)
                  then deliver (MDisconnect "io client disconnect") w1 else w1 in
        upd_client (set_socket None) w'
    | None => w1
    end in
  upd_client (fun c =>
    set_reconnectAttempts 0
      (set_pendingSubscriptions []
         (set_subscribers [] (set_isConnected false c)))) w2.

(* ================================================================== *)
(** ** Pull queries

    Each returns the handle of the promise it creates. *)

Definition not_connected_message : string := "Not connected to Socket.IO server".

Definition getSymbols (w : World) : nat * World :=
  let (q, w1) := new_promise w in
  if connected w1 then
    let (t, w2) :=
      setTimeout (TRejectTimeout q "Timeout waiting for symbols") (5000 # 1) w1 in
    let handler := CbSymbols q t in
    (q, send OGetSymbols (once symbols_ev handler w2))
  else (q, reject q not_connected_message w1).

Definition getCandles (symbol timeframe : string) (count : nat) (w : World)
    : nat * World :=
  let (q, w1) := new_promise w in
  if connected w1 then
    let handler := CbCandles q (length (timers w1)) symbol timeframe in
    let (t, w2) := setTimeout (TCandlesTimeout q handler) (10000 # 1) w1 in
    let w3 := upd_socket (sock_on (data_sev candles_ev) (LPlain handler)) w2 in
    (q, send (OGetCandles symbol timeframe count) w3)
  else (q, resolve q (VCandles []) w1).

Definition getOrderBook (symbol : string) (depth : nat) (w : World) : nat * World :=
  let (q, w1) := new_promise w in
  if connected w1 then
    let (t, w2) :=
      setTimeout (TRejectTimeout q "Timeout waiting for order book") (5000 # 1) w1 in
    let handler := CbOrderBook q t symbol in
    (q, send (OGetOrderBook symbol depth) (once order_book_ev handler w2))
  else (q, reject q not_connected_message w1).

Definition getAccountInfo (w : World) : nat * World :=
  let (q, w1) := new_promise w in
  if connected w1 then
    let (t, w2) :=
      setTimeout (TRejectTimeout q "Timeout waiting for account info") (5000 # 1) w1 in
    let handler := CbAccountInfo q t in
    (q, send OGetAccountInfo (once account_info_ev handler w2))
  else (q, reject q not_connected_message w1).

(* ================================================================== *)
(** ** Candle cache of the market-data hook *)

Definition cacheKey (symbol timeframe : string) (count : nat) : string :=
  symbol ++ "_" ++ timeframe ++ "_" ++ string_of_nat count.

(** What the [async] function returns: the shared promise it awaits, or a
    value taken from the cache. *)
Inductive CacheResult :=
| Awaiting (p : nat)
| Ready (candles : list CandleData).

Definition getCandlesWithCache (symbol timeframe : string) (count : nat) (w : World)
    : CacheResult * World :=
  let key := cacheKey symbol timeframe count in
  match map_get String.eqb key (candlesPromises w) with
  | Some p => (Awaiting p, w)
  | None =>
      match map_get String.eqb key (candlesCache w) with
      | Some candles => (Ready candles, w)
      | None =>
          let (q, w1) := getCandles symbol timeframe count w in
          let (p, w2) := new_promise w1 in
          let w3 := set_reactions (reactions w2 ++ [(q, key, p)]) w2 in
          (Awaiting p,
           set_candlesPromises (map_set String.eqb key p (candlesPromises w3)) w3)
      end
  end.

(** The [then] and [catch] callbacks attached to the promise of
    [wsClient.getCandles]; [p] is the promise the chain returns.  That
    promise only ever resolves with a candle list. *)
Definition react (w : World) (r : nat * string * nat) : World :=
  let '(q, key, p) := r in
  match promise_state q w with
  | Some (Resolved (VCandles candles)) =>
      let w1 := set_candlesCache (map_set String.eqb key candles (candlesCache w)) w in
      let w2 := set_candlesPromises (map_delete String.eqb key (candlesPromises w1)) w1 in
      let (_, w3) := setTimeout (TCacheExpire key) (30000 # 1) w2 in
      resolve p (VCandles candles) w3
  | Some (Resolved _) => w
  | Some (Rejected message) =>
      let w1 := set_candlesPromises (map_delete String.eqb key (candlesPromises w)) w in
      reject p message w1
  | None => w
  end.

Definition source_settled (w : World) (r : nat * string * nat) : bool :=
  match promise_state (fst (fst r)) w with
  | Some _ => true
  | None => false
  end.

(** The microtask checkpoint: the reactions of the promises settled so
    far run, in registration order. *)
Definition drain (w : World) : World :=
  let ready := filter (source_settled w) (reactions w) in
  let waiting := filter (fun r => negb (source_settled w r)) (reactions w) in
  fold_left react ready (set_reactions waiting w).

(* ================================================================== *)
(** ** Timers and the event loop *)

(** A pending timer fires.  A timeout is spent by firing; the ping
    interval stays armed. *)
Definition fire (t : nat) (w : World) : World :=
  match timer_pending t w with
  | None => w
  | Some (a, _) =>
      match a with
      | TPing => ping w
      | TReconnect => snd (connect (clearTimeout t w))
      | TRejectTimeout q message => reject q message (clearTimeout t w)
      | TCandlesTimeout q handler =>
          resolve q (VCandles [])
            (upd_socket (sock_off (data_sev candles_ev) (listener_is handler))
               (clearTimeout t w))
      | TCacheExpire key =>
          let w1 := clearTimeout t w in
          set_candlesCache (map_delete String.eqb key (candlesCache w1)) w1
      end
  end.

(** One turn of the event loop: a call of a collaborator, an event on the
    socket, a timer, or the microtask checkpoint. *)
Inductive Action :=
| AOn (event : EventName) (cb : nat)
| AOff (event : EventName) (cb : option nat)
| AOnce (event : EventName) (cb : nat)
| ASubscribe (symbol : string) (cb : nat)
| AUnsubscribe (symbol : string) (cb : option nat)
| AGetSymbols
| AGetCandles (symbol timeframe : string) (count : nat)
| AGetOrderBook (symbol : string) (depth : nat)
| AGetAccountInfo
| AGetCandlesWithCache (symbol timeframe : string) (count : nat)
| AConnect
| ADisconnect
| APing
| ADeliver (m : SockMsg)
| AFire (t : nat)
| ADrain.

Definition step (w : World) (a : Action) : World :=
  match a with
  | AOn event cb => on event (CbUser cb) w
  | AOff event cb => off event (option_map CbUser cb) w
  | AOnce event cb => once event (CbUser cb) w
  | ASubscribe symbol cb => subscribe symbol cb w
  | AUnsubscribe symbol cb => unsubscribe symbol cb w
  | AGetSymbols => snd (getSymbols w)
  | AGetCandles symbol timeframe count => snd (getCandles symbol timeframe count w)
  | AGetOrderBook symbol depth => snd (getOrderBook symbol depth w)
  | AGetAccountInfo => snd (getAccountInfo w)
  | AGetCandlesWithCache symbol timeframe count =>
      snd (getCandlesWithCache symbol timeframe count w)
  | AConnect => snd (connect w)
  | ADisconnect => disconnect w
  | APing => ping w
  | ADeliver m => deliver m w
  | AFire t => fire t w
  | ADrain => drain w
  end.

Definition run (acts : list Action) (w : World) : World := fold_left step acts w.

(** The state of a freshly constructed client and empty hook maps. *)
Definition initial : World :=
  {| client := {| socket := None; subscribers := []; isConnecting := false;
                  isConnected := false; pendingSubscriptions := [];
                  reconnectAttempts := 0; reconnectTimer := None;
                  pingInterval := None; eventListeners := [];
                  connectionPromise := None; connectionResolve := None |};
     timers := []; promises := []; reactions := []; nextClosure := 0;
     trace := []; candlesCache := []; candlesPromises := [] |}.

(** A connected client: [connect()] followed by the socket's ['connect']. *)
Definition online : World := run [AConnect; ADeliver MConnect] initial.

(* ================================================================== *)
(** ** Vocabulary of the properties *)

(** The calls of the collaborators of one symbol: adding a callback and
    removing one. *)
Inductive RegistryCall :=
| Subscribe (cb : nat)
| Unsubscribe (cb : nat).

Definition registry_step (symbol : string) (w : World) (c : RegistryCall) : World :=
  match c with
  | Subscribe cb => subscribe symbol cb w
  | Unsubscribe cb => unsubscribe symbol (Some cb) w
  end.

(** The symbol keeps at least one callback after every call of the list. *)
Fixpoint still_subscribed (symbol : string) (calls : list RegistryCall) (w : World)
    : bool :=
  match calls with
  | [] => true
  | c :: calls' =>
      let w' := registry_step symbol w c in
      map_has String.eqb symbol (subscribers (client w'))
      && still_subscribed symbol calls' w'
  end.

Definition unique_entry (symbol : string) (w : World) : Prop :=
  map_has String.eqb symbol (subscribers (client w)) = true /\
  map_get String.eqb symbol
    (map_delete String.eqb symbol (subscribers (client w))) = None.

Definition settled_stay (w w' : World) : Prop :=
  forall q o, promise_state q w = Some o -> promise_state q w' = Some o.

Definition timers_stay (w w' : World) : Prop :=
  forall t x, nth_error (timers w) t = Some x ->
    exists x', nth_error (timers w') t = Some x' /\
               action x' = action x /\ delay x' = delay x.

Definition stable (w w' : World) : Prop := settled_stay w w' /\ timers_stay w w'.

(** The four pull queries behind one name. *)
Inductive Query :=
| QSymbols
| QCandles (symbol timeframe : string) (count : nat)
| QOrderBook (symbol : string) (depth : nat)
| QAccountInfo.

Definition issue (k : Query) (w : World) : nat * World :=
  match k with
  | QSymbols => getSymbols w
  | QCandles symbol timeframe count => getCandles symbol timeframe count w
  | QOrderBook symbol depth => getOrderBook symbol depth w
  | QAccountInfo => getAccountInfo w
  end.

(** What the timer of each query does to its promise. *)
Definition timeout_outcome (k : Query) : Outcome :=
  match k with
  | QSymbols => Rejected "Timeout waiting for symbols"
  | QCandles _ _ _ => Resolved (VCandles [])
  | QOrderBook _ _ => Rejected "Timeout waiting for order book"
  | QAccountInfo => Rejected "Timeout waiting for account info"
  end.

(** What each query does when the client is not connected. *)
Definition offline_outcome (k : Query) : Outcome :=
  match k with
  | QCandles _ _ _ => Resolved (VCandles [])
  | _ => Rejected not_connected_message
  end.

(** The timer a query arms, given the handles it is allocated. *)
Definition timeout_action (k : Query) (q t : nat) : TimerAction :=
  match k with
  | QSymbols => TRejectTimeout q "Timeout waiting for symbols"
  | QCandles symbol timeframe _ =>
      TCandlesTimeout q (CbCandles q t symbol timeframe)
  | QOrderBook _ _ => TRejectTimeout q "Timeout waiting for order book"
  | QAccountInfo => TRejectTimeout q "Timeout waiting for account info"
  end.

(** Sample payloads for the concrete runs. *)
Definition sample_book (symbol : string) : OrderBookData :=
  {| ob_symbol := symbol; ob_time := "2024-01-01T00:00:00Z";
     bids := [{| price := 1 # 1; entry_volume := 10 # 1 |}];
     asks := [{| price := 2 # 1; entry_volume := 10 # 1 |}];
     ob_spread := 1 # 1; midPrice := 3 # 2 |}.

Definition sample_candle : CandleData :=
  {| time := "2024-01-01T00:00:00Z"; open := 1 # 1; high := 2 # 1; low := 1 # 1;
     close := 2 # 1; volume := 100 # 1; spread := None |}.

(** Events no handler of a pull query reacts to. *)
Definition inert (d : EventData) : bool :=
  match d with
  | DSymbols _ | DCandles _ _ _ | DOrderBook _ _ | DAccountInfo _ => false
  | _ => true
  end.

(** The listeners [setupSocketListeners] installs, as opposed to those
    added by [on], [once] and [getCandles]. *)
Definition is_builtin (l : SockListener) : bool :=
  match l with
  | LPlain _ | LOnce _ => false
  | _ => true
  end.

Definition builtin_only (s : Socket) : Socket :=
  {| handlers := filter (fun p => is_builtin (snd p)) (handlers s) |}.

Definition is_invoked (e : Effect) : bool :=
  match e with
  | Invoked _ _ => true
  | _ => false
  end.

(** Two worlds that differ at most in the registered listeners and in the
    trace. *)
Record quiet (w w' : World) : Prop := {
  quiet_timers : timers w' = timers w;
  quiet_promises : promises w' = promises w;
  quiet_reactions : reactions w' = reactions w;
  quiet_candlesCache : candlesCache w' = candlesCache w;
  quiet_candlesPromises : candlesPromises w' = candlesPromises w;
  quiet_subscribers : subscribers (client w') = subscribers (client w);
  quiet_isConnecting : isConnecting (client w') = isConnecting (client w);
  quiet_isConnected : isConnected (client w') = isConnected (client w);
  quiet_pendingSubscriptions :
    pendingSubscriptions (client w') = pendingSubscriptions (client w);
  quiet_reconnectAttempts :
    reconnectAttempts (client w') = reconnectAttempts (client w);
  quiet_reconnectTimer : reconnectTimer (client w') = reconnectTimer (client w);
  quiet_pingInterval : pingInterval (client w') = pingInterval (client w);
  quiet_connectionPromise :
    connectionPromise (client w') = connectionPromise (client w);
  quiet_connectionResolve :
    connectionResolve (client w') = connectionResolve (client w);
  quiet_socket :
    option_map builtin_only (socket (client w')) =
    option_map builtin_only (socket (client w)) }.

(** The part of the ['disconnect'] listener that comes before its decision
    to reconnect: flags, timers, re-queueing of the subscribed symbols and
    the [disconnected] event. *)
Definition closing (reason : string) (w : World) : World :=
  let w1 := upd_client (set_isConnected false) w in
  let w2 := clearTimers w1 in
  let w3 := fold_left
              (fun w' (entry : string * list nat) =>
                 upd_client (fun c =>
                   set_pendingSubscriptions
                     (set_add String.eqb (fst entry) (pendingSubscriptions c)) c) w')
              (subscribers (client w2)) w2 in
  emit (DDisconnected reason) w3.

(** The symbols of the registry added to a set of pending symbols. *)
Definition requeue (subs : list (string * list nat)) (pending : list string)
    : list string :=
  fold_left (fun p (entry : string * list nat) => set_add String.eqb (fst entry) p)
    subs pending.

Definition is_subscribe (symbol : string) (e : Effect) : bool :=
  match e with
  | Sent (OSubscribe s _) => String.eqb s symbol
  | _ => false
  end.

(** How many [subscribe] requests for the symbol a trace holds. *)
Definition count_subscribe (symbol : string) (tr : list Effect) : nat :=
  length (filter (is_subscribe symbol) tr).

(** One automatic attempt that fails: the reconnect timer [t] fires,
    [connect()] opens a socket, the socket reports ['connect_error']. *)
Definition failed_attempt (message : string) (t : nat) (w : World) : World :=
  deliver (MConnectError message) (fire t w).

(** The retry loop while every attempt fails, one error message per
    attempt.  It ends when the client has no armed reconnect timer. *)
Fixpoint retry_loop (messages : list string) (w : World) : World :=
  match messages with
  | [] => w
  | message :: messages' =>
      match reconnectTimer (client w) with
      | Some t =>
          match timer_pending t w with
          | Some (TReconnect, _) =>
              retry_loop messages' (failed_attempt message t w)
          | _ => w
          end
      | None => w
      end
  end.

(** The delay before the [n]-th automatic attempt. *)
Definition reconnect_delay (n : nat) : Q :=
  (reconnectDelay * reconnectDelayMultiplier ^ Z.of_nat (n - 1))%Q.

Definition is_max_error (e : Effect) : bool :=
  match e with
  | Emitted (DError code _ _) => String.eqb code "MAX_RECONNECT_ATTEMPTS"
  | _ => false
  end.

Definition count_max_errors (tr : list Effect) : nat :=
  length (filter is_max_error tr).

(** Every timer created so far, armed or not: action and delay. *)
Definition timer_log (w : World) : list (TimerAction * Q) :=
  map (fun x => (action x, delay x)) (timers w).

(** [m] calls of [getCandlesWithCache] for the same request in one turn
    of the event loop, with what each returns. *)
Fixpoint cache_calls (m : nat) (symbol timeframe : string) (count : nat) (w : World)
    : list CacheResult * World :=
  match m with
  | O => ([], w)
  | S m' =>
      let (r, w1) := getCandlesWithCache symbol timeframe count w in
      let (rs, w2) := cache_calls m' symbol timeframe count w1 in
      (r :: rs, w2)
  end.

(** The promise a closure settles, if any. *)
Fixpoint cb_promise (f : Callback) : option nat :=
  match f with
  | CbUser _ => None
  | CbOnce _ _ callback => cb_promise callback
  | CbSymbols q _ => Some q
  | CbCandles q _ _ _ => Some q
  | CbOrderBook q _ _ => Some q
  | CbAccountInfo q _ => Some q
  end.

Definition below (n : nat) (x : option nat) : bool :=
  match x with
  | Some q => q <? n
  | None => true
  end.

Definition listener_promise (l : SockListener) : option nat :=
  match l with
  | LPlain f => cb_promise f
  | LOnce f => cb_promise f
  | _ => None
  end.

(** Every promise handle held by a listener or by a reaction has been
    allocated.  New handles are allocated at the end of [promises], so this
    holds in every state the client reaches. *)
Definition handles_allocated (w : World) : bool :=
  let n := length (promises w) in
  match socket (client w) with
  | Some s => forallb (fun p => below n (listener_promise (snd p))) (handlers s)
  | None => true
  end
  && forallb (fun e => forallb (fun f => below n (cb_promise f)) (snd e))
       (eventListeners (client w))
  && forallb (fun r => (fst (fst r) <? n) && (snd r <? n)) (reactions w).

(** Every listener on the event bus settles an allocated promise. *)
Definition bus_below (n : nat) (w : World) : Prop :=
  forall e g, In g (listeners_of e (client w)) -> below n (cb_promise g) = true.

(** What the delivery of a data event to listeners whose promises are
    below [n] leaves alone: the maps of the hook, the reactions, the
    promises from [n] on; and it adds no listener to the event bus. *)
Record delivered (n : nat) (x y : World) : Prop := {
  delivered_reactions : reactions y = reactions x;
  delivered_candlesCache : candlesCache y = candlesCache x;
  delivered_candlesPromises : candlesPromises y = candlesPromises x;
  delivered_promises :
    forall k, n <= k -> nth_error (promises y) k = nth_error (promises x) k;
  delivered_bus :
    forall e g, In g (listeners_of e (client y)) -> In g (listeners_of e (client x)) }.

(** [f] is [cb] or a [once] wrapper around it: calling [f] calls [cb]. *)
Fixpoint wraps (cb f : Callback) : bool :=
  Callback_eqb f cb ||
  match f with
  | CbOnce _ _ callback => wraps cb callback
  | _ => false
  end.

Definition reaches (cb : Callback) (l : SockListener) : bool :=
  match l with
  | LPlain f => wraps cb f
  | LOnce f => wraps cb f
  | _ => false
  end.

Definition is_forward (l : SockListener) : bool :=
  match l with
  | LForward _ => true
  | _ => false
  end.

Definition is_call_of (cb : Callback) (e : Effect) : bool :=
  match e with
  | Invoked f _ => Callback_eqb f cb
  | _ => false
  end.

(** How many times [cb] has been called. *)
Definition count_invoked (cb : Callback) (tr : list Effect) : nat :=
  length (filter (is_call_of cb) tr).

(** No registered listener is [cb] or wraps it. *)
Definition unknown (cb : Callback) (w : World) : bool :=
  forallb (fun e => forallb (fun f => negb (wraps cb f)) (snd e))
    (eventListeners (client w))
  && match socket (client w) with
     | Some s => forallb (fun p => negb (reaches cb (snd p))) (handlers s)
     | None => true
     end.

(** [cb] is registered for [event] once on the event bus and once on the
    socket, whose other listeners are those of [setupSocketListeners] and
    listeners that do not call [cb]. *)
Definition registered_twice (cb : Callback) (event : EventName) (w : World) : Prop :=
  filter (wraps cb) (listeners_of event (client w)) = [cb] /\
  exists s, socket (client w) = Some s /\
    builtin_only s = setupSocketListeners {| handlers := [] |} /\
    filter (reaches cb) (listeners_for (data_sev event) s) = [LPlain cb].

(** What calling a listener that does not call [cb] leaves alone. *)
Record kept (cb : Callback) (x y : World) : Prop := {
  kept_count : count_invoked cb (trace y) = count_invoked cb (trace x);
  kept_bus : forall e,
    filter (wraps cb) (listeners_of e (client y)) =
    filter (wraps cb) (listeners_of e (client x));
  kept_socket :
    option_map (fun s => filter (fun p => reaches cb (snd p)) (handlers s))
      (socket (client y)) =
    option_map (fun s => filter (fun p => reaches cb (snd p)) (handlers s))
      (socket (client x));
  kept_builtin :
    option_map builtin_only (socket (client y)) =
    option_map builtin_only (socket (client x)) }.

(** From [x] to [y] the callback [cb] was called [n] times, and its
    registrations were left alone. *)
Record called (cb : Callback) (n : nat) (x y : World) : Prop := {
  called_count : count_invoked cb (trace y) = count_invoked cb (trace x) + n;
  called_bus : forall e,
    filter (wraps cb) (listeners_of e (client y)) =
    filter (wraps cb) (listeners_of e (client x));
  called_socket :
    option_map (fun s => filter (fun p => reaches cb (snd p)) (handlers s))
      (socket (client y)) =
    option_map (fun s => filter (fun p => reaches cb (snd p)) (handlers s))
      (socket (client x));
  called_builtin :
    option_map builtin_only (socket (client y)) =
    option_map builtin_only (socket (client x)) }.

(** What one listener of the socket contributes to the calls of a user
    callback registered once on the event bus. *)
Definition contribution (cb : Callback) (l : SockListener) : nat :=
  (if is_forward l then 1 else 0) + (if reaches cb l then 1 else 0).

(* ================================================================== *)
(** ** Further vocabulary *)

Definition is_sent (e : Effect) : bool :=
  match e with
  | Sent _ => true
  | _ => false
  end.

(** What the client has sent to the server, in order. *)
Definition sent (tr : list Effect) : list Outbound :=
  flat_map (fun e => match e with Sent m => [m] | _ => [] end) tr.

(** Which tick callbacks have been called, in order. *)
Definition tick_calls (tr : list Effect) : list (nat * TickData) :=
  flat_map (fun e => match e with TickCall cb tick => [(cb, tick)] | _ => [] end) tr.

(** The callbacks registered for a symbol. *)
Definition callbacks_of (symbol : string) (w : World) : list nat :=
  match map_get String.eqb symbol (subscribers (client w)) with
  | Some l => l
  | None => []
  end.

(** [getIsConnected()] and [getSubscribedSymbols()]. *)
Definition getIsConnected (w : World) : bool := isConnected (client w).

Definition getSubscribedSymbols (w : World) : list string :=
  map fst (subscribers (client w)).

(** [cb] is registered for [event] on the event bus ([b]) and [k] times
    on the socket, whose other listeners are those of
    [setupSocketListeners] and listeners that do not call [cb]. *)
Definition registered (cb : Callback) (event : EventName) (b : bool) (k : nat)
    (w : World) : Prop :=
  filter (wraps cb) (listeners_of event (client w)) = (if b then [cb] else []) /\
  exists s, socket (client w) = Some s /\
    builtin_only s = setupSocketListeners {| handlers := [] |} /\
    filter (reaches cb) (listeners_for (data_sev event) s) = repeat (LPlain cb) k.

(** How often one inbound event calls a callback so registered: once
    through the event bus unless the event is [tick], and once per
    listener on the socket. *)
Definition calls_per_event (event : EventName) (b : bool) (k : nat) : nat :=
  (if b then (if EventName_eqb event tick_ev then 0 else 1) else 0) + k.

(** No registered listener is [cb] or wraps it, as a property. *)
Definition absent (cb : Callback) (w : World) : Prop :=
  (forall e, filter (wraps cb) (listeners_of e (client w)) = []) /\
  forall s, socket (client w) = Some s ->
            filter (fun p => reaches cb (snd p)) (handlers s) = [].

(** The listeners the effect of [useOrderBook] registers, and those its
    cleanup removes.  The [order_book] listener is an arrow function
    created in the effect; the cleanup names [handleOrderBookData]. *)
Definition useOrderBook_listen (handleConnect handleDisconnect handleError listener : nat)
    (w : World) : World :=
  on order_book_ev (CbUser listener)
    (on error_ev (CbUser handleError)
       (on disconnected_ev (CbUser handleDisconnect)
          (on connected_ev (CbUser handleConnect) w))).

Definition useOrderBook_cleanup
    (handleConnect handleDisconnect handleError handleOrderBookData : nat)
    (w : World) : World :=
  off order_book_ev (Some (CbUser handleOrderBookData))
    (off error_ev (Some (CbUser handleError))
       (off disconnected_ev (Some (CbUser handleDisconnect))
          (off connected_ev (Some (CbUser handleConnect)) w))).

Definition is_tick_listener (l : SockListener) : bool :=
  match l with
  | LTick => true
  | _ => false
  end.

(** Two worlds with the same registry and the same tick callbacks called. *)
Definition same_ticks (x y : World) : Prop :=
  subscribers (client y) = subscribers (client x) /\
  tick_calls (trace y) = tick_calls (trace x).


(* ================================================================== *)
(** ** The subscription manager of the market-data hooks

    [multiSymbolManager.subscriptions] beside the client.  The arrow
    function the manager passes to [wsClient.subscribe] is a new function
    at every first subscription of a symbol; [dispatcher] is its
    identity. *)

Definition ManagerState : Type := list (string * list nat) * World.

Definition manager_subscribe (symbol : string) (callback dispatcher : nat)
    (st : ManagerState) : ManagerState :=
  let (m, w) := st in
  let (m1, w1) :=
    if map_has String.eqb symbol m then (m, w)
    else (map_set String.eqb symbol [] m, subscribe symbol dispatcher w) in
  (match map_get String.eqb symbol m1 with
   | Some callbacks =>
       map_set String.eqb symbol (set_add Nat.eqb callback callbacks) m1
   | None => m1
   end, w1).

Definition manager_unsubscribe (symbol : string) (callback : nat)
    (st : ManagerState) : ManagerState :=
  let (m, w) := st in
  match map_get String.eqb symbol m with
  | Some callbacks =>
      let callbacks' := set_delete Nat.eqb callback callbacks in
      let m1 := map_set String.eqb symbol callbacks' m in
      match callbacks' with
      | [] => (map_delete String.eqb symbol m1, unsubscribe symbol None w)
      | _ :: _ => (m1, w)
      end
  | None => (m, w)
  end.

Definition manager_unsubscribeAll (symbol : string) (st : ManagerState)
    : ManagerState :=
  let (m, w) := st in
  (map_delete String.eqb symbol m, unsubscribe symbol None w).

(** What the dispatcher of [symbol] does with a tick: every callback the
    manager holds for the symbol is called. *)
Definition dispatch (m : list (string * list nat)) (symbol : string) (tick : TickData)
    : list (nat * TickData) :=
  match map_get String.eqb symbol m with
  | Some callbacks => map (fun cb => (cb, tick)) callbacks
  | None => []
  end.

(* ================================================================== *)
(** ** The reducer of the market-data context

    [Record<string, T>] objects are association lists; the symbols used as
    keys are not array indexes, so a new key goes last. *)

Module MarketDataContext.

Record MarketDataState := {
  symbols : list string;
  marketData : list (string * TickData);
  orderBooks : list (string * OrderBookData);
  subscriptions : list string;
  isConnected : bool;
  isLoading : bool;
  error : option string }.

Inductive MarketDataAction :=
| SET_CONNECTED (payload : bool)
| SET_LOADING (payload : bool)
| SET_ERROR (payload : option string)
| ADD_SYMBOL (payload : string)
| REMOVE_SYMBOL (payload : string)
| UPDATE_MARKET_DATA (symbol : string) (data : TickData)
| UPDATE_ORDER_BOOK (symbol : string) (data : OrderBookData)
| SET_SYMBOLS (payload : list string)
| CLEAR_DATA.

Definition initialState : MarketDataState :=
  {| symbols := ["EURUSD"; "GBPUSD"; "USDJPY"; "BTCUSD"; "ETHUSD"; "XAUUSD"];
     marketData := []; orderBooks := []; subscriptions := [];
     isConnected := false; isLoading := true; error := None |}.

Definition marketDataReducer (state : MarketDataState) (action : MarketDataAction)
    : MarketDataState :=
  match action with
  | SET_CONNECTED payload =>
      {| symbols := symbols state; marketData := marketData state;
         orderBooks := orderBooks state; subscriptions := subscriptions state;
         isConnected := payload; isLoading := isLoading state;
         error := error state |}
  | SET_LOADING payload =>
      {| symbols := symbols state; marketData := marketData state;
         orderBooks := orderBooks state; subscriptions := subscriptions state;
         isConnected := isConnected state; isLoading := payload;
         error := error state |}
  | SET_ERROR payload =>
      {| symbols := symbols state; marketData := marketData state;
         orderBooks := orderBooks state; subscriptions := subscriptions state;
         isConnected := isConnected state; isLoading := isLoading state;
         error := payload |}
  | ADD_SYMBOL payload =>
      let newSubscriptions := set_add String.eqb payload (subscriptions state) in
      let newSymbols :=
        if set_has String.eqb payload (symbols state) then symbols state
        else (symbols state ++ [payload])%list in
      {| symbols := newSymbols; marketData := marketData state;
         orderBooks := orderBooks state; subscriptions := newSubscriptions;
         isConnected := isConnected state; isLoading := isLoading state;
         error := error state |}
  | REMOVE_SYMBOL payload =>
      {| symbols := symbols state;
         marketData := map_delete String.eqb payload (marketData state);
         orderBooks := map_delete String.eqb payload (orderBooks state);
         subscriptions := set_delete String.eqb payload (subscriptions state);
         isConnected := isConnected state; isLoading := isLoading state;
         error := error state |}
  | UPDATE_MARKET_DATA symbol data =>
      {| symbols := symbols state;
         marketData := map_set String.eqb symbol data (marketData state);
         orderBooks := orderBooks state; subscriptions := subscriptions state;
         isConnected := isConnected state; isLoading := false; error := None |}
  | UPDATE_ORDER_BOOK symbol data =>
      {| symbols := symbols state; marketData := marketData state;
         orderBooks := map_set String.eqb symbol data (orderBooks state);
         subscriptions := subscriptions state;
         isConnected := isConnected state; isLoading := isLoading state;
         error := error state |}
  | SET_SYMBOLS payload =>
      {| symbols := payload; marketData := marketData state;
         orderBooks := orderBooks state; subscriptions := subscriptions state;
         isConnected := isConnected state; isLoading := isLoading state;
         error := error state |}
  | CLEAR_DATA =>
      {| symbols := symbols state; marketData := marketData initialState;
         orderBooks := orderBooks initialState; subscriptions := [];
         isConnected := isConnected initialState;
         isLoading := isLoading initialState; error := error initialState |}
  end.

(** [getMarketData], [getOrderBook] and [isSubscribed] of the context. *)
Definition getMarketData (state : MarketDataState) (symbol : string)
    : option TickData :=
  map_get String.eqb symbol (marketData state).

Definition getOrderBook (state : MarketDataState) (symbol : string)
    : option OrderBookData :=
  map_get String.eqb symbol (orderBooks state).

Definition isSubscribed (state : MarketDataState) (symbol : string) : bool :=
  set_has String.eqb symbol (subscriptions state).

(** [SET_SYMBOLS] replaces the list of symbols; no other action does. *)
Definition replaces_symbols (action : MarketDataAction) : bool :=
  match action with
  | SET_SYMBOLS _ => true
  | _ => false
  end.

(** The state is well formed: no symbol is listed or subscribed twice, and
    the two objects have one entry per key. *)
Definition well_formed (state : MarketDataState) : Prop :=
  NoDup (symbols state) /\ NoDup (subscriptions state) /\
  NoDup (map fst (marketData state)) /\ NoDup (map fst (orderBooks state)).

End MarketDataContext.

(* ================================================================== *)
(** ** Vocabulary of the pull queries *)

(** The handler a query installs, given the handles it is allocated. *)
Definition query_handler (k : Query) (q t : nat) : Callback :=
  match k with
  | QSymbols => CbSymbols q t
  | QCandles symbol timeframe _ => CbCandles q t symbol timeframe
  | QOrderBook symbol _ => CbOrderBook q t symbol
  | QAccountInfo => CbAccountInfo q t
  end.

Definition query_event (k : Query) : EventName :=
  match k with
  | QSymbols => symbols_ev
  | QCandles _ _ _ => candles_ev
  | QOrderBook _ _ => order_book_ev
  | QAccountInfo => account_info_ev
  end.

(** The listeners a query adds to the socket: [getCandles] its handler,
    the other three the [once] wrapper of theirs, twice. *)
Definition query_listeners (k : Query) (q t i : nat) : list SockListener :=
  match k with
  | QCandles _ _ _ => [LPlain (query_handler k q t)]
  | _ =>
      let onceHandler := CbOnce i (query_event k) (query_handler k q t) in
      [LPlain onceHandler; LOnce onceHandler]
  end.

(** The value an inbound event gives to a query, if it is the response
    the query waits for. *)
Definition answers (k : Query) (d : EventData) : option Value :=
  match k, d with
  | QSymbols, DSymbols symbols => Some (VSymbols symbols)
  | QCandles symbol timeframe _, DCandles s tf candles =>
      if String.eqb s symbol && String.eqb tf timeframe
      then Some (VCandles (match candles with Some l => l | None => [] end))
      else None
  | QOrderBook symbol _, DOrderBook s order_book =>
      if String.eqb s symbol then Some (VOrderBook order_book) else None
  | QAccountInfo, DAccountInfo account => Some (VAccount account)
  | _, _ => None
  end.

(** The promise is pending or resolved with [v]. *)
Definition awaiting (q : nat) (v : Value) (w : World) : Prop :=
  nth_error (promises w) q = Some None \/
  nth_error (promises w) q = Some (Some (Resolved v)).

(** A callback of an earlier query, or the handler [h] or a wrapper of
    it. *)
Definition allowed (n : nat) (h f : Callback) : Prop :=
  below n (cb_promise f) = true \/ wraps h f = true.

Definition listener_allowed (n : nat) (h : Callback) (l : SockListener) : Prop :=
  match l with
  | LPlain f => allowed n h f
  | LOnce f => allowed n h f
  | _ => True
  end.

(** While the response is delivered: the promise of the query is pending
    or resolved with the response, and the event bus holds allowed
    callbacks only. *)
Definition serving (n q : nat) (v : Value) (h : Callback) (w : World) : Prop :=
  awaiting q v w /\
  forall e g, In g (listeners_of e (client w)) -> allowed n h g.

(** From [x] to [y] only callbacks of earlier queries ran: what
    [delivered] says, the socket got no new listener, and the listener
    [LPlain h] was not taken off it. *)
Record passed (n : nat) (h : Callback) (x y : World) : Prop := {
  passed_delivered : delivered n x y;
  passed_socket :
    forall s', socket (client y) = Some s' ->
      exists s, socket (client x) = Some s /\ incl (handlers s') (handlers s);
  passed_own :
    forall s ev, socket (client x) = Some s -> In (ev, LPlain h) (handlers s) ->
      exists s', socket (client y) = Some s' /\ In (ev, LPlain h) (handlers s') }.

(** The listeners of the socket are those of earlier queries and the
    handler [h], which is among them for [candles]. *)
Definition waiting_on_socket (n : nat) (h : Callback) (w : World) : Prop :=
  exists s, socket (client w) = Some s /\
    (forall ev l, In (ev, l) (handlers s) ->
       below n (listener_promise l) = true \/ l = LPlain h) /\
    In (data_sev candles_ev, LPlain h) (handlers s).

(** The registrations of a callback [cb] wrapped by [once] in
    [onceHandler]: whether [onceHandler] is in the listener set of the
    event, and which listeners of the socket reach [cb], in order. *)
Definition once_registered (cb onceHandler : Callback) (event : EventName)
    (b : bool) (fl : list (SockEvent * SockListener)) (w : World) : Prop :=
  filter (wraps cb) (listeners_of event (client w))
    = (if b then [onceHandler] else []) /\
  exists s, socket (client w) = Some s /\
    builtin_only s = setupSocketListeners {| handlers := [] |} /\
    filter (fun p => reaches cb (snd p)) (handlers s) = fl.

(** Calls of the subscription registry, for any symbol. *)
Inductive RegistryOp :=
| RSubscribe (symbol : string) (cb : nat)
| RUnsubscribe (symbol : string) (cb : option nat).

Definition registry_apply (w : World) (op : RegistryOp) : World :=
  match op with
  | RSubscribe symbol cb => subscribe symbol cb w
  | RUnsubscribe symbol cb => unsubscribe symbol cb w
  end.

(** The registry has one entry per symbol, and every entry holds at least
    one callback and no callback twice. *)
Definition registry_ok (subs : list (string * list nat)) : Prop :=
  NoDup (map fst subs) /\
  forall symbol callbacks, In (symbol, callbacks) subs ->
    callbacks <> [] /\ NoDup callbacks.


(* ================================================================== *)
(** ** Failures and timers in any order *)





(* ================================================================== *)
(** * Properties *)

(** ** Maps and sets *)

Section MapSetFacts.
Context {K V : Type} (eqb : K -> K -> bool).
Hypothesis eqb_eq : forall a b, eqb a b = true <-> a = b.

Lemma eqb_refl_gen (k : K) : eqb k k = true.
Proof. apply eqb_eq; reflexivity. Qed.

Lemma eqb_neq_gen (a b : K) : a <> b -> eqb a b = false.
Proof.
  intros Hn. destruct (eqb a b) eqn:E; [|reflexivity].
  apply eqb_eq in E. contradiction.
Qed.

Lemma map_get_set_same (k : K) (v : V) (m : list (K * V)) :
  map_get eqb k (map_set eqb k v m) = Some v.
Proof.
  induction m as [|[k' v'] m IH]; simpl.
  - now rewrite eqb_refl_gen.
  - destruct (eqb k k') eqn:E; simpl.
    + now rewrite eqb_refl_gen.
    + now rewrite E.
Qed.

Lemma map_get_set_other (k k' : K) (v : V) (m : list (K * V)) :
  k <> k' -> map_get eqb k' (map_set eqb k v m) = map_get eqb k' m.
Proof.
  intros Hn. induction m as [|[k0 v0] m IH]; simpl.
  - rewrite eqb_neq_gen; auto.
  - destruct (eqb k k0) eqn:E; simpl.
    + apply eqb_eq in E; subst k0.
      rewrite !(eqb_neq_gen k' k); auto.
    + destruct (eqb k' k0); auto.
Qed.

Lemma map_delete_set (k : K) (v : V) (m : list (K * V)) :
  map_delete eqb k (map_set eqb k v m) = map_delete eqb k m.
Proof.
  induction m as [|[k0 v0] m IH]; simpl.
  - now rewrite eqb_refl_gen.
  - destruct (eqb k k0) eqn:E; simpl.
    + now rewrite eqb_refl_gen.
    + rewrite E. now f_equal.
Qed.

Lemma map_get_delete_other (k k' : K) (m : list (K * V)) :
  k <> k' -> map_get eqb k' (map_delete eqb k m) = map_get eqb k' m.
Proof.
  intros Hn. induction m as [|[k0 v0] m IH]; simpl; auto.
  destruct (eqb k k0) eqn:E; simpl.
  - apply eqb_eq in E; subst k0. rewrite (eqb_neq_gen k' k); auto.
  - destruct (eqb k' k0); auto.
Qed.

Lemma map_get_none_delete (k : K) (m : list (K * V)) :
  map_get eqb k m = None -> map_delete eqb k m = m.
Proof.
  induction m as [|[k0 v0] m IH]; simpl; auto.
  destruct (eqb k k0); [discriminate|]. intros H. now rewrite IH.
Qed.

Lemma set_has_In (k : K) (s : list K) : set_has eqb k s = true <-> In k s.
Proof.
  induction s as [|a s IH]; simpl.
  - split; [discriminate | tauto].
  - destruct (eqb k a) eqn:E.
    + apply eqb_eq in E. subst. tauto.
    + rewrite IH. split; [tauto|]. intros [H|H]; auto.
      subst. rewrite eqb_refl_gen in E. discriminate.
Qed.

Lemma set_add_In (k x : K) (s : list K) :
  In x (set_add eqb k s) <-> x = k \/ In x s.
Proof.
  unfold set_add. destruct (set_has eqb k s) eqn:E.
  - apply set_has_In in E. split; [tauto|]. intros [H|H]; subst; auto.
  - rewrite in_app_iff. simpl. intuition.
Qed.

Lemma set_add_NoDup (k : K) (s : list K) : NoDup s -> NoDup (set_add eqb k s).
Proof.
  intros Hs. unfold set_add. destruct (set_has eqb k s) eqn:E; auto.
  assert (~ In k s) as Hn.
  { intros Hin. apply set_has_In in Hin. congruence. }
  clear E. induction Hs as [|a s Ha Hs IH]; simpl.
  - constructor; [tauto | constructor].
  - constructor.
    + rewrite in_app_iff. simpl. intros [H|[H|[]]]; [tauto|].
      subst. apply Hn. now left.
    + apply IH. intros H. apply Hn. now right.
Qed.

Lemma set_delete_has_other (k x : K) (s : list K) :
  x <> k -> set_has eqb x (set_delete eqb k s) = set_has eqb x s.
Proof.
  intros Hn. induction s as [|a s IH]; simpl; auto.
  destruct (eqb k a) eqn:E; simpl.
  - apply eqb_eq in E; subst a. rewrite (eqb_neq_gen x k); auto.
  - now rewrite IH.
Qed.
End MapSetFacts.

Lemma Callback_eqb_eq (a b : Callback) : Callback_eqb a b = true <-> a = b.
Proof.
  unfold Callback_eqb. destruct (Callback_eq_dec a b); split; congruence.
Qed.

Lemma EventName_eqb_eq (a b : EventName) : EventName_eqb a b = true <-> a = b.
Proof.
  unfold EventName_eqb. destruct (EventName_eq_dec a b); split; congruence.
Qed.

Lemma SockEvent_eqb_eq (a b : SockEvent) : SockEvent_eqb a b = true <-> a = b.
Proof.
  destruct a, b; simpl; try (split; congruence).
  rewrite EventName_eqb_eq. split; congruence.
Qed.

(* ================================================================== *)
(** ** Subscription multiplexing *)

Lemma subscribe_first (symbol : string) (cb : nat) (w : World) :
  map_has String.eqb symbol (subscribers (client w)) = false ->
  let w' := subscribe symbol cb w in
  unique_entry symbol w' /\ connected w' = connected w /\
  (if connected w
   then trace w' = (trace w ++ [Sent (OSubscribe symbol "M5")])%list /\
        pendingSubscriptions (client w') = pendingSubscriptions (client w)
   else trace w' = trace w /\
        pendingSubscriptions (client w') =
          set_add String.eqb symbol (pendingSubscriptions (client w))).
Proof.
  intros Hno. unfold subscribe. rewrite Hno.
  unfold map_has in Hno.
  destruct (map_get String.eqb symbol (subscribers (client w))) eqn:Hget;
    [discriminate|].
  unfold sendSubscribe, connected, send, log, unique_entry, map_has, subscribers_add.
  cbn.
  destruct (socket (client w)) as [s|] eqn:Hs; cbn;
    [destruct (isConnected (client w)) eqn:Hi; cbn|];
    rewrite ?Hs, ?Hi;
    rewrite ?(map_get_set_same String.eqb String.eqb_eq); cbn;
    rewrite ?(map_get_set_same String.eqb String.eqb_eq);
    rewrite ?(map_delete_set String.eqb String.eqb_eq);
    rewrite ?(map_get_none_delete String.eqb _ _ Hget), ?Hget, ?Hs, ?Hi; auto.
Qed.

Lemma subscribe_again (symbol : string) (cb : nat) (w : World) :
  unique_entry symbol w ->
  let w' := subscribe symbol cb w in
  unique_entry symbol w' /\ connected w' = connected w /\
  trace w' = trace w /\
  pendingSubscriptions (client w') = pendingSubscriptions (client w).
Proof.
  intros [Hhas Hu]. unfold subscribe. rewrite Hhas.
  unfold map_has in Hhas.
  destruct (map_get String.eqb symbol (subscribers (client w))) eqn:Hget;
    [|discriminate].
  unfold unique_entry, map_has, subscribers_add, connected. cbn. rewrite Hget. cbn.
  rewrite (map_get_set_same String.eqb String.eqb_eq).
  rewrite (map_delete_set String.eqb String.eqb_eq). auto.
Qed.

Lemma unsubscribe_one (symbol : string) (cb : nat) (w : World) :
  unique_entry symbol w ->
  let w' := unsubscribe symbol (Some cb) w in
  map_has String.eqb symbol (subscribers (client w')) = true ->
  unique_entry symbol w' /\ connected w' = connected w /\
  trace w' = trace w /\
  pendingSubscriptions (client w') = pendingSubscriptions (client w).
Proof.
  intros [Hhas Hu]. unfold unsubscribe.
  unfold map_has in Hhas.
  destruct (map_get String.eqb symbol (subscribers (client w))) eqn:Hget;
    [|discriminate].
  destruct (set_delete Nat.eqb cb l) eqn:Hdel; cbn.
  - unfold sendUnsubscribe, connected, send, log, map_has. cbn.
    destruct (socket (client w)); [destruct (isConnected (client w))|];
      cbn; rewrite (map_delete_set String.eqb String.eqb_eq), Hu; discriminate.
  - intros _. unfold unique_entry, map_has, connected. cbn.
    rewrite (map_get_set_same String.eqb String.eqb_eq).
    rewrite (map_delete_set String.eqb String.eqb_eq). auto.
Qed.

Lemma registry_calls_silent (symbol : string) (calls : list RegistryCall) :
  forall w,
    unique_entry symbol w ->
    still_subscribed symbol calls w = true ->
    let w' := fold_left (registry_step symbol) calls w in
    unique_entry symbol w' /\ connected w' = connected w /\
    trace w' = trace w /\
    pendingSubscriptions (client w') = pendingSubscriptions (client w).
Proof.
  induction calls as [|c calls IH]; intros w Hu Hs; simpl in *; auto.
  apply andb_prop in Hs. destruct Hs as [Hs1 Hs2].
  assert (unique_entry symbol (registry_step symbol w c) /\
          connected (registry_step symbol w c) = connected w /\
          trace (registry_step symbol w c) = trace w /\
          pendingSubscriptions (client (registry_step symbol w c)) =
            pendingSubscriptions (client w)) as (Hu' & Hc & Ht & Hp).
  { destruct c as [cb|cb]; simpl in *.
    - now apply subscribe_again.
    - now apply unsubscribe_one. }
  destruct (IH _ Hu' Hs2) as (Hu'' & Hc' & Ht' & Hp').
  repeat split; try apply Hu''; congruence.
Qed.

(** C4.  From a state where the symbol has no subscription, a first
    [subscribe(symbol, cb)] followed by any further [subscribe] and
    [unsubscribe(symbol, cb_i)] calls that never leave the symbol without a
    callback adds exactly one thing to what the client has sent or queued:
    the single [subscribe] emission when connected, the single entry in
    [pendingSubscriptions] otherwise.  In particular N [subscribe] calls
    emit once, and a [subscribe] of an already subscribed symbol emits
    nothing. *)
Theorem subscribe_emits_once
    (symbol : string) (cb : nat) (calls : list RegistryCall) (w : World)
    (Hfresh : map_has String.eqb symbol (subscribers (client w)) = false)
    (Hkept : still_subscribed symbol calls (subscribe symbol cb w) = true) :
  let w' := fold_left (registry_step symbol) calls (subscribe symbol cb w) in
  map_has String.eqb symbol (subscribers (client w')) = true /\
  (if connected w
   then trace w' = (trace w ++ [Sent (OSubscribe symbol "M5")])%list /\
        pendingSubscriptions (client w') = pendingSubscriptions (client w)
   else trace w' = trace w /\
        pendingSubscriptions (client w') =
          set_add String.eqb symbol (pendingSubscriptions (client w))) /\
  (forall cb', trace (subscribe symbol cb' w') = trace w' /\
               pendingSubscriptions (client (subscribe symbol cb' w')) =
                 pendingSubscriptions (client w')).
Proof.
  destruct (subscribe_first symbol cb w Hfresh) as (Hu & Hc & H1).
  destruct (registry_calls_silent symbol calls _ Hu Hkept) as (Hu' & Hc' & Ht & Hp).
  cbv zeta. split; [apply Hu'|]. split.
  - rewrite Ht, Hp. exact H1.
  - intros cb'. destruct (subscribe_again symbol cb' _ Hu') as (_ & _ & Ha & Hb).
    auto.
Qed.

Lemma subscribe_emits_once_witness :
  let w' := fold_left (registry_step "EURUSD") [Subscribe 2; Unsubscribe 1]
              (subscribe "EURUSD" 1 online) in
  map_has String.eqb "EURUSD" (subscribers (client w')) = true /\
  (if connected online
   then trace w' = (trace online ++ [Sent (OSubscribe "EURUSD" "M5")])%list /\
        pendingSubscriptions (client w') = pendingSubscriptions (client online)
   else trace w' = trace online /\
        pendingSubscriptions (client w') =
          set_add String.eqb "EURUSD" (pendingSubscriptions (client online))) /\
  (forall cb', trace (subscribe "EURUSD" cb' w') = trace w' /\
               pendingSubscriptions (client (subscribe "EURUSD" cb' w')) =
                 pendingSubscriptions (client w')).
Proof.
  apply (subscribe_emits_once "EURUSD" 1 [Subscribe 2; Unsubscribe 1] online);
    vm_compute; reflexivity.
Defined.

(* ================================================================== *)
(** ** What every turn of the event loop preserves

    Every method is built from the run-time primitives, so a preorder on
    worlds that each primitive respects is respected by any run. *)

Section Preserved.
Variable R : World -> World -> Prop.
Hypothesis R_refl : forall w, R w w.
Hypothesis R_trans : forall a b c, R a b -> R b c -> R a c.
Hypothesis R_log : forall e w, R w (log e w).
Hypothesis R_new_promise : forall w, R w (snd (new_promise w)).
Hypothesis R_settle : forall q o w, R w (settle q o w).
Hypothesis R_setTimeout : forall a ms w, R w (snd (setTimeout a ms w)).
Hypothesis R_clearTimeout : forall t w, R w (clearTimeout t w).
Hypothesis R_client : forall f w, R w (upd_client f w).
Hypothesis R_reactions : forall x w, R w (set_reactions x w).
Hypothesis R_nextClosure : forall x w, R w (set_nextClosure x w).
Hypothesis R_candlesCache : forall x w, R w (set_candlesCache x w).
Hypothesis R_candlesPromises : forall x w, R w (set_candlesPromises x w).

Lemma alloc_promise_preserved w : R w (set_promises (promises w ++ [None]) w).
Proof. apply (R_new_promise w). Qed.

Lemma alloc_timer_preserved a ms w :
  R w (set_timers (timers w ++ [{| action := a; delay := ms; armed := true |}]) w).
Proof. apply (R_setTimeout a ms w). Qed.

Create HintDb preserved.

#[local] Hint Resolve R_log R_settle R_clearTimeout R_client R_reactions
  R_nextClosure R_candlesCache R_candlesPromises
  alloc_promise_preserved alloc_timer_preserved : preserved.

Ltac chain :=
  unfold new_promise, setTimeout; cbv beta iota zeta;
  repeat first
    [ apply R_refl
    | match goal with
      | |- R _ (if ?c then _ else _) => destruct c
      | |- R _ (match ?x with _ => _ end) => destruct x
      | |- R _ (snd (if ?c then _ else _)) => destruct c
      | |- R _ (snd (match ?x with _ => _ end)) => destruct x
      | |- R _ (snd (_, _)) => unfold snd
      end
    | eapply R_trans; [ | solve [ typeclasses eauto with preserved ] ] ].

Lemma fold_preserved {A : Type} (g : World -> A -> World) (l : list A) :
  (forall w x, R w (g w x)) -> forall w, R w (fold_left g l w).
Proof.
  intros Hg. induction l as [|x l IH]; intros w; simpl; [apply R_refl|].
  eapply R_trans; [apply Hg | apply IH].
Qed.

Lemma send_preserved m w : R w (send m w).
Proof. apply R_log. Qed.

Lemma resolve_preserved q v w : R w (resolve q v w).
Proof. apply R_settle. Qed.

Lemma reject_preserved q e w : R w (reject q e w).
Proof. apply R_settle. Qed.

Lemma upd_socket_preserved f w : R w (upd_socket f w).
Proof. apply R_client. Qed.

#[local] Hint Resolve send_preserved resolve_preserved reject_preserved
  upd_socket_preserved : preserved.

Lemma sendSubscribe_preserved s w : R w (sendSubscribe s w).
Proof. unfold sendSubscribe. chain. Qed.

Lemma sendUnsubscribe_preserved s w : R w (sendUnsubscribe s w).
Proof. unfold sendUnsubscribe. chain. Qed.

#[local] Hint Resolve sendSubscribe_preserved sendUnsubscribe_preserved : preserved.

Lemma subscribe_preserved s cb w : R w (subscribe s cb w).
Proof. unfold subscribe. chain. Qed.

Lemma unsubscribe_preserved s cb w : R w (unsubscribe s cb w).
Proof. unfold unsubscribe. chain. Qed.

Lemma on_preserved e f w : R w (on e f w).
Proof. unfold on. chain. Qed.

Lemma off_preserved e f w : R w (off e f w).
Proof. unfold off. chain. Qed.

#[local] Hint Resolve subscribe_preserved unsubscribe_preserved on_preserved
  off_preserved : preserved.

Lemma once_preserved e f w : R w (once e f w).
Proof. unfold once. chain. Qed.

#[local] Hint Resolve once_preserved : preserved.

Lemma call_preserved f d : forall w, R w (call f d w).
Proof.
  induction f; intros w; simpl; try solve [chain];
    (eapply R_trans; [|apply IHf]; chain).
Qed.

#[local] Hint Resolve call_preserved : preserved.

Lemma emit_preserved d w : R w (emit d w).
Proof.
  unfold emit. cbv zeta.
  eapply R_trans; [apply R_log|]. apply fold_preserved.
  intros w' cb. chain.
Qed.

#[local] Hint Resolve emit_preserved : preserved.

Lemma scheduleReconnection_preserved w : R w (scheduleReconnection w).
Proof. unfold scheduleReconnection. chain. Qed.

Lemma clearTimers_preserved w : R w (clearTimers w).
Proof. unfold clearTimers. chain. Qed.

Lemma ping_preserved w : R w (ping w).
Proof. unfold ping. chain. Qed.

#[local] Hint Resolve scheduleReconnection_preserved clearTimers_preserved
  ping_preserved : preserved.

Lemma startPingInterval_preserved w : R w (startPingInterval w).
Proof. unfold startPingInterval. chain. Qed.

Lemma connect_preserved w : R w (snd (connect w)).
Proof. unfold connect. chain. Qed.

#[local] Hint Resolve startPingInterval_preserved connect_preserved : preserved.

Lemma onConnect_preserved w : R w (onConnect w).
Proof.
  unfold onConnect. cbv zeta.
  match goal with
  | |- R _ (match connectionResolve (client ?x) with _ => _ end) =>
      assert (R w x) as Hx
  end.
  { eapply R_trans; [|apply emit_preserved].
    eapply R_trans; [|apply R_client].
    eapply R_trans; [|apply fold_preserved; intros; apply sendSubscribe_preserved].
    chain. }
  destruct (connectionResolve _); [|exact Hx].
  eapply R_trans; [exact Hx|]. chain.
Qed.

Lemma onDisconnect_preserved reason w : R w (onDisconnect reason w).
Proof.
  unfold onDisconnect. cbv zeta.
  match goal with
  | |- R _ (if _ then scheduleReconnection ?x else _) => assert (R w x) as Hx
  end.
  { eapply R_trans; [|apply emit_preserved].
    eapply R_trans; [|apply fold_preserved; intros; apply R_client].
    chain. }
  destruct (_ && _); [|exact Hx].
  eapply R_trans; [exact Hx|]. chain.
Qed.

Lemma onConnectError_preserved message w : R w (onConnectError message w).
Proof.
  unfold onConnectError. cbv zeta.
  match goal with
  | |- R _ (match connectionResolve (client ?x) with _ => _ end) =>
      assert (R w x) as Hx
  end.
  { chain. }
  destruct (connectionResolve _); [|exact Hx].
  eapply R_trans; [exact Hx|]. chain.
Qed.

Lemma onTick_preserved s tick w : R w (onTick s tick w).
Proof.
  unfold onTick. destruct (map_get _ _ _); [|apply R_refl].
  apply fold_preserved. intros. apply R_log.
Qed.

#[local] Hint Resolve onConnect_preserved onDisconnect_preserved
  onConnectError_preserved onTick_preserved : preserved.

Lemma run_listener_preserved m w l : R w (run_listener m w l).
Proof.
  unfold run_listener. destruct l, m; try apply R_refl;
    try solve [chain]; destruct d; try apply R_refl; chain.
Qed.

Lemma deliver_preserved m w : R w (deliver m w).
Proof.
  unfold deliver. destruct (socket (client w)); [|apply R_refl].
  apply fold_preserved. intros. apply run_listener_preserved.
Qed.

#[local] Hint Resolve deliver_preserved : preserved.

Lemma disconnect_preserved w : R w (disconnect w).
Proof. unfold disconnect. chain. Qed.

Lemma getSymbols_preserved w : R w (snd (getSymbols w)).
Proof. unfold getSymbols. chain. Qed.

Lemma getOrderBook_preserved s n w : R w (snd (getOrderBook s n w)).
Proof. unfold getOrderBook. chain. Qed.

Lemma getAccountInfo_preserved w : R w (snd (getAccountInfo w)).
Proof. unfold getAccountInfo. chain. Qed.

Lemma getCandles_preserved s tf n w : R w (snd (getCandles s tf n w)).
Proof. unfold getCandles. chain. Qed.

#[local] Hint Resolve disconnect_preserved getSymbols_preserved
  getOrderBook_preserved getAccountInfo_preserved getCandles_preserved : preserved.

Lemma getCandlesWithCache_preserved s tf n w :
  R w (snd (getCandlesWithCache s tf n w)).
Proof.
  unfold getCandlesWithCache. cbv zeta.
  destruct (map_get _ _ (candlesPromises w)); [apply R_refl|].
  destruct (map_get _ _ (candlesCache w)); [apply R_refl|].
  pose proof (getCandles_preserved s tf n w) as Hg.
  destruct (getCandles s tf n w) as [q w1]. unfold snd in Hg.
  unfold new_promise; cbv beta iota zeta. unfold snd.
  eapply R_trans; [exact Hg|]. chain.
Qed.

Lemma react_preserved w r : R w (react w r).
Proof.
  unfold react. destruct r as [[q key] p].
  destruct (promise_state q w) as [[v|e]|]; try apply R_refl.
  - destruct v; try apply R_refl. chain.
  - chain.
Qed.

Lemma drain_preserved w : R w (drain w).
Proof.
  unfold drain. cbv zeta.
  eapply R_trans; [apply R_reactions|].
  apply fold_preserved. intros. apply react_preserved.
Qed.

Lemma fire_preserved t w : R w (fire t w).
Proof.
  unfold fire. destruct (timer_pending t w) as [[a ms]|]; [|apply R_refl].
  destruct a; chain.
Qed.

#[local] Hint Resolve getCandlesWithCache_preserved react_preserved
  drain_preserved fire_preserved : preserved.

Lemma step_preserved w a : R w (step w a).
Proof. destruct a; simpl; auto with preserved. Qed.

Lemma run_preserved acts w : R w (run acts w).
Proof. apply fold_preserved. apply step_preserved. Qed.
End Preserved.

(* ================================================================== *)
(** ** Handles are stable

    A settled promise keeps its outcome, and a timer keeps its action and
    delay, whatever happens afterwards. *)

Lemma list_set_length {A : Type} (n : nat) (x : A) (l : list A) :
  length (list_set n x l) = length l.
Proof.
  revert n. induction l as [|a l IH]; intros [|n]; simpl; auto.
Qed.

Lemma list_set_nth_same {A : Type} (n : nat) (x : A) (l : list A) :
  n < length l -> nth_error (list_set n x l) n = Some x.
Proof.
  revert n. induction l as [|a l IH]; intros [|n]; simpl; intros H;
    try lia; auto. apply IH. lia.
Qed.

Lemma list_set_nth_other {A : Type} (n m : nat) (x : A) (l : list A) :
  n <> m -> nth_error (list_set n x l) m = nth_error l m.
Proof.
  revert n m. induction l as [|a l IH]; intros [|n] [|m] H; simpl; auto.
  congruence.
Qed.

Lemma stable_refl w : stable w w.
Proof. split; intros ? ? H; eauto. Qed.

Lemma stable_trans a b c : stable a b -> stable b c -> stable a c.
Proof.
  intros [H1 H2] [H3 H4]. split.
  - intros q o H. auto.
  - intros t x H. destruct (H2 _ _ H) as (x' & Hx & Ha & Hd).
    destruct (H4 _ _ Hx) as (x'' & Hx' & Ha' & Hd').
    exists x''. repeat split; congruence.
Qed.

Lemma stable_same w w' :
  promises w' = promises w -> timers w' = timers w -> stable w w'.
Proof.
  intros Hp Ht. split.
  - intros q o. unfold promise_state. now rewrite Hp.
  - intros t x H. rewrite Ht. eauto.
Qed.

Lemma settle_stable q o w : stable w (settle q o w).
Proof.
  unfold settle, is_pending.
  destruct (nth_error (promises w) q) as [[o'|]|] eqn:E; try apply stable_refl.
  split.
  - intros q' o' H. unfold promise_state in *. cbn.
    destruct (Nat.eq_dec q q') as [->|Hn].
    + rewrite E in H. discriminate.
    + now rewrite list_set_nth_other.
  - intros t x H. cbn. eauto.
Qed.

Lemma new_promise_stable w : stable w (snd (new_promise w)).
Proof.
  split.
  - intros q o. unfold promise_state. cbn.
    destruct (nth_error (promises w) q) eqn:E; [|discriminate].
    rewrite nth_error_app1; [now rewrite E|].
    apply nth_error_Some. congruence.
  - intros t x H. cbn. eauto.
Qed.

Lemma setTimeout_stable a ms w : stable w (snd (setTimeout a ms w)).
Proof.
  split.
  - intros q o H. exact H.
  - intros t x H. cbn. exists x. rewrite nth_error_app1; auto.
    apply nth_error_Some. congruence.
Qed.

Lemma clearTimeout_stable t w : stable w (clearTimeout t w).
Proof.
  unfold clearTimeout. destruct (nth_error (timers w) t) as [x|] eqn:E;
    [|apply stable_refl].
  split.
  - intros q o H. exact H.
  - intros t' x' H. cbn. destruct (Nat.eq_dec t t') as [->|Hn].
    + rewrite list_set_nth_same by (apply nth_error_Some; congruence).
      exists (disarm x). rewrite E in H. inversion H. auto.
    + rewrite list_set_nth_other by auto. eauto.
Qed.

Lemma run_stable (acts : list Action) (w : World) : stable w (run acts w).
Proof.
  apply run_preserved; intros;
    first [ apply stable_refl | eapply stable_trans; eassumption
          | apply settle_stable | apply new_promise_stable
          | apply setTimeout_stable | apply clearTimeout_stable
          | apply stable_same; reflexivity ].
Qed.

Lemma fire_stable (t : nat) (w : World) : stable w (fire t w).
Proof. apply (run_stable [AFire t] w). Qed.

(* ================================================================== *)
(** ** Pull queries *)

Lemma connected_socket (w : World) :
  connected w = true -> exists s, socket (client w) = Some s.
Proof.
  unfold connected. destruct (socket (client w)); [eauto | discriminate].
Qed.

Lemma settle_pending (q : nat) (o : Outcome) (w : World) :
  is_pending q w = true -> promise_state q (settle q o w) = Some o.
Proof.
  intros H. unfold settle. rewrite H. unfold promise_state, is_pending in *. cbn.
  destruct (nth_error (promises w) q) as [[?|]|] eqn:E; try discriminate.
  rewrite list_set_nth_same; auto. apply nth_error_Some. congruence.
Qed.

Lemma issue_online (k : Query) (w : World) :
  connected w = true ->
  fst (issue k w) = length (promises w) /\
  is_pending (length (promises w)) (snd (issue k w)) = true /\
  exists ms,
    nth_error (timers (snd (issue k w))) (length (timers w)) =
      Some {| action := timeout_action k (length (promises w)) (length (timers w));
              delay := ms; armed := true |}.
Proof.
  intros Hc. destruct (connected_socket w Hc) as [s Hs].
  assert (forall (A : Type) (l : list A) (x : A),
             nth_error (l ++ [x]) (length l) = Some x) as Hlast.
  { intros A l x. rewrite nth_error_app2 by lia. now rewrite Nat.sub_diag. }
  assert (isConnected (client w) = true) as Hi.
  { unfold connected in Hc. now rewrite Hs in Hc. }
  destruct k; unfold issue, getSymbols, getCandles, getOrderBook, getAccountInfo,
    new_promise, setTimeout;
    cbv beta iota zeta;
    replace (connected (set_promises (promises w ++ [None]) w)) with (connected w)
      by reflexivity;
    rewrite Hc; unfold once, send, log, on, is_pending, connected; cbn;
    rewrite ?Hs; cbn; rewrite ?Hs, ?Hi; cbn;
    (split; [reflexivity|]);
    rewrite !Hlast; split; eauto.
Qed.

(** C1 (as corrected).  A pull query is issued while connected; then
    anything may happen.  If its timer fires while the promise is still
    pending, the promise of [getSymbols], [getOrderBook] and
    [getAccountInfo] is rejected with the "Timeout waiting for ..." error
    and the promise of [getCandles] is resolved with the empty list, its
    listener being taken off the socket; and no later event, a late
    matching response included, changes that outcome. *)
Theorem query_timeout_settles_once
    (k : Query) (w : World) (acts late : list Action)
    (Hconn : connected w = true) :
  let q := fst (issue k w) in
  let t := length (timers w) in
  let w2 := run acts (snd (issue k w)) in
  is_pending q w2 = true ->
  timer_pending t w2 <> None ->
  promise_state q (fire t w2) = Some (timeout_outcome k) /\
  promise_state q (run late (fire t w2)) = Some (timeout_outcome k) /\
  (forall symbol timeframe count,
     k = QCandles symbol timeframe count ->
     socket (client (fire t w2)) =
       option_map
         (sock_off (data_sev candles_ev)
            (listener_is (CbCandles q t symbol timeframe)))
         (socket (client w2))).
Proof.
  cbv zeta. intros Hpend Harmed.
  destruct (issue_online k w Hconn) as (Hq & _ & ms & Ht).
  rewrite Hq in *.
  destruct (run_stable acts (snd (issue k w))) as [_ Hstay].
  destruct (Hstay _ _ Ht) as (x & Hx & Ha & Hd). cbn in Ha, Hd.
  remember (run acts (snd (issue k w))) as w2 eqn:Ew2. clear Ew2 Hstay Ht Hq.
  remember (length (promises w)) as q eqn:Eq. clear Eq.
  remember (length (timers w)) as t eqn:Et. clear Et.
  assert (timer_pending t w2 = Some (timeout_action k q t, ms)) as Htp.
  { unfold timer_pending in *. rewrite Hx in *.
    destruct (armed x); [now rewrite Ha, Hd | congruence]. }
  assert (promise_state q (fire t w2) = Some (timeout_outcome k)) as Hfire.
  { unfold fire. rewrite Htp.
    assert (forall t' w', is_pending q w' = true ->
              is_pending q (clearTimeout t' w') = true) as Hct.
    { intros t' w' H. unfold clearTimeout. destruct (nth_error (timers w') t'); auto. }
    destruct k; cbn; apply settle_pending; try apply Hct; auto. }
  split; [exact Hfire|]. split.
  - apply (run_stable late). exact Hfire.
  - intros symbol timeframe count ->. unfold fire. rewrite Htp. cbn.
    unfold resolve, settle.
    match goal with |- context [if ?c then _ else _] => destruct c end; cbn;
      unfold clearTimeout; rewrite Hx; cbn; reflexivity.
Qed.

Lemma query_timeout_settles_once_witness :
  let k := QOrderBook "EURUSD" 10 in
  let late := [ADeliver (MData (DOrderBook "EURUSD" (sample_book "EURUSD")))] in
  let q := fst (issue k online) in
  let t := length (timers online) in
  let w2 := run [] (snd (issue k online)) in
  promise_state q (fire t w2) = Some (timeout_outcome k) /\
  promise_state q (run late (fire t w2)) = Some (timeout_outcome k) /\
  (forall symbol timeframe count,
     k = QCandles symbol timeframe count ->
     socket (client (fire t w2)) =
       option_map
         (sock_off (data_sev candles_ev)
            (listener_is (CbCandles q t symbol timeframe)))
         (socket (client w2))).
Proof.
  apply (query_timeout_settles_once (QOrderBook "EURUSD" 10) online []
           [ADeliver (MData (DOrderBook "EURUSD" (sample_book "EURUSD")))]).
  - vm_compute. reflexivity.
  - vm_compute. reflexivity.
  - vm_compute. discriminate.
Defined.

(** C1, the claim as stated fails: when its timer fires, the promise of
    [getCandles] is resolved with the empty list, not rejected. *)
Lemma getCandles_timeout_is_not_rejected :
  let q := fst (getCandles "EURUSD" "M5" 100 online) in
  let w1 := snd (getCandles "EURUSD" "M5" 100 online) in
  let w2 := fire (length (timers online)) w1 in
  connected online = true /\
  is_pending q w1 = true /\
  promise_state q w2 = Some (Resolved (VCandles [])) /\
  (forall message, promise_state q w2 <> Some (Rejected message)).
Proof.
  cbv zeta. repeat split; try (vm_compute; reflexivity).
  intros message H. vm_compute in H. discriminate.
Qed.

(** C3 (as corrected).  Called while not connected, [getSymbols],
    [getOrderBook] and [getAccountInfo] reject at once with the "Not
    connected" error and [getCandles] resolves at once with the empty
    list; none of the four touches the client (so no listener is
    registered), arms a timer or sends anything. *)
Theorem query_offline_fails_fast (k : Query) (w : World)
    (Hoff : connected w = false) :
  promise_state (fst (issue k w)) (snd (issue k w)) = Some (offline_outcome k) /\
  client (snd (issue k w)) = client w /\
  timers (snd (issue k w)) = timers w /\
  trace (snd (issue k w)) = trace w.
Proof.
  assert (forall o, promise_state (length (promises w))
            (settle (length (promises w)) o (snd (new_promise w))) = Some o) as Hs.
  { intros o. apply settle_pending. unfold is_pending. cbn.
    rewrite nth_error_app2 by lia. now rewrite Nat.sub_diag. }
  assert (forall o, client (settle (length (promises w)) o (snd (new_promise w)))
                    = client w /\
                    timers (settle (length (promises w)) o (snd (new_promise w)))
                    = timers w /\
                    trace (settle (length (promises w)) o (snd (new_promise w)))
                    = trace w) as Hf.
  { intros o. unfold settle. destruct (is_pending _ _); cbn; auto. }
  destruct k; unfold issue, getSymbols, getCandles, getOrderBook, getAccountInfo;
    unfold new_promise in *; cbv beta iota zeta;
    replace (connected (set_promises (promises w ++ [None]) w)) with (connected w)
      by reflexivity;
    rewrite Hoff; cbn [fst snd offline_outcome] in *;
    (split; [apply Hs | apply Hf]).
Qed.

Lemma query_offline_fails_fast_witness :
  let k := QOrderBook "EURUSD" 10 in
  promise_state (fst (issue k initial)) (snd (issue k initial))
    = Some (offline_outcome k) /\
  client (snd (issue k initial)) = client initial /\
  timers (snd (issue k initial)) = timers initial /\
  trace (snd (issue k initial)) = trace initial.
Proof.
  apply (query_offline_fails_fast (QOrderBook "EURUSD" 10) initial).
  vm_compute. reflexivity.
Defined.

(** C3, the claim as stated fails: called while not connected,
    [getCandles] does not fail; its promise is resolved with the empty
    list. *)
Lemma getCandles_offline_is_not_rejected :
  let q := fst (getCandles "EURUSD" "M5" 100 initial) in
  let w1 := snd (getCandles "EURUSD" "M5" 100 initial) in
  connected initial = false /\
  promise_state q w1 = Some (Resolved (VCandles [])) /\
  (forall message, promise_state q w1 <> Some (Rejected message)).
Proof.
  cbv zeta. repeat split; try (vm_compute; reflexivity).
  intros message H. vm_compute in H. discriminate.
Qed.

(** C2, at the failing input.  [getOrderBook("EURUSD")] registers its
    handler through [once]; an [order_book] event for another symbol then
    removes every registration of it, so the event for EURUSD that follows
    finds no listener and the promise stays pending (until its timer
    rejects it). *)
Lemma order_book_listener_consumed :
  let q := fst (getOrderBook "EURUSD" 10 online) in
  let w1 := snd (getOrderBook "EURUSD" 10 online) in
  let w2 := deliver (MData (DOrderBook "GBPUSD" (sample_book "GBPUSD"))) w1 in
  let w3 := deliver (MData (DOrderBook "EURUSD" (sample_book "EURUSD"))) w2 in
  listeners_of order_book_ev (client w2) = [] /\
  option_map (listeners_for (data_sev order_book_ev)) (socket (client w2))
    = Some [LForward order_book_ev] /\
  is_pending q w3 = true /\
  promise_state q (fire (length (timers online)) w3)
    = Some (Rejected "Timeout waiting for order book").
Proof. cbv zeta. repeat split; vm_compute; reflexivity. Qed.

(** The sibling query keeps its listener: the same scenario with
    [getCandles] resolves. *)
Lemma candles_listener_kept :
  let q := fst (getCandles "EURUSD" "M5" 100 online) in
  let w1 := snd (getCandles "EURUSD" "M5" 100 online) in
  let w2 := deliver (MData (DCandles "GBPUSD" "M5" (Some []))) w1 in
  let w3 := deliver (MData (DCandles "EURUSD" "M5" (Some [sample_candle]))) w2 in
  is_pending q w2 = true /\
  promise_state q w3 = Some (Resolved (VCandles [sample_candle])).
Proof. cbv zeta. split; vm_compute; reflexivity. Qed.

(* ================================================================== *)
(** ** Dispatching an event no pull query waits for

    Calling listeners with a connection event ([connected],
    [disconnected], [error], ...) can only log the calls and let [once]
    handlers deregister themselves. *)

Lemma quiet_refl w : quiet w w.
Proof. constructor; reflexivity. Qed.

Lemma quiet_trans a b c : quiet a b -> quiet b c -> quiet a c.
Proof. intros [] []. constructor; congruence. Qed.

Lemma quiet_connected w w' : quiet w w' -> connected w' = connected w.
Proof.
  intros H. unfold connected. rewrite (quiet_isConnected _ _ H).
  pose proof (quiet_socket _ _ H) as Hs.
  destruct (socket (client w')), (socket (client w)); simpl in Hs;
    congruence.
Qed.

Lemma remove_first_builtin ev p hs :
  (forall l, p l = true -> is_builtin l = false) ->
  filter (fun x => is_builtin (snd x)) (remove_first ev p hs) =
  filter (fun x => is_builtin (snd x)) hs.
Proof.
  intros Hp. induction hs as [|[e l] hs IH]; simpl; auto.
  destruct (SockEvent_eqb ev e && p l) eqn:E; simpl.
  - apply andb_prop in E. destruct E as [_ E]. now rewrite (Hp _ E).
  - now rewrite IH.
Qed.

Lemma listener_is_not_builtin f l : listener_is f l = true -> is_builtin l = false.
Proof. destruct l; simpl; congruence. Qed.

Lemma wrapper_is_not_builtin f l : wrapper_is f l = true -> is_builtin l = false.
Proof. destruct l; simpl; congruence. Qed.

Lemma log_quiet e w : quiet w (log e w).
Proof. constructor; reflexivity. Qed.

Lemma sock_off_quiet ev p w :
  (forall l, p l = true -> is_builtin l = false) ->
  quiet w (upd_socket (sock_off ev p) w).
Proof.
  intros Hp. constructor; try reflexivity. cbn.
  destruct (socket (client w)); cbn; auto.
  unfold builtin_only, sock_off. cbn. now rewrite remove_first_builtin.
Qed.

Lemma off_quiet e f w : quiet w (off e f w).
Proof.
  unfold off. cbv zeta.
  match goal with
  | |- quiet w (match f with Some cb => upd_socket _ ?x | None => ?x end) =>
      assert (quiet w x) as Hx
  end.
  { destruct (map_get _ _ _); [constructor; reflexivity | apply quiet_refl]. }
  destruct f; [|exact Hx].
  eapply quiet_trans; [exact Hx|].
  apply sock_off_quiet. apply listener_is_not_builtin.
Qed.

Lemma call_quiet f d : inert d = true -> forall w, quiet w (call f d w).
Proof.
  intros Hd. induction f; intros w; cbn [call];
    try (destruct d; try discriminate; apply log_quiet).
  eapply quiet_trans; [|apply IHf].
  eapply quiet_trans; [apply log_quiet | apply off_quiet].
Qed.

Lemma fold_quiet {A : Type} (g : World -> A -> World) (l : list A) :
  (forall w x, quiet w (g w x)) -> forall w, quiet w (fold_left g l w).
Proof.
  intros Hg. induction l as [|x l IH]; intros w; simpl; [apply quiet_refl|].
  eapply quiet_trans; [apply Hg | apply IH].
Qed.

Lemma emit_quiet d w : inert d = true -> quiet w (emit d w).
Proof.
  intros Hd. unfold emit. cbv zeta.
  eapply quiet_trans; [apply log_quiet|]. apply fold_quiet.
  intros w' cb. destruct (set_has _ _ _); [now apply call_quiet | apply quiet_refl].
Qed.

(** The trace a call leaves: only the calls themselves. *)
Lemma off_trace e f w : trace (off e f w) = trace w.
Proof.
  unfold off. destruct (map_get _ _ _), f; reflexivity.
Qed.

Lemma log_trace e w : trace (log e w) = (trace w ++ [e])%list.
Proof. reflexivity. Qed.

Lemma settle_trace q o w : trace (settle q o w) = trace w.
Proof. unfold settle. destruct (is_pending q w); reflexivity. Qed.

Lemma clearTimeout_trace t w : trace (clearTimeout t w) = trace w.
Proof. unfold clearTimeout. destruct (nth_error _ _); reflexivity. Qed.

Lemma call_trace f d : forall w,
  exists tr, trace (call f d w) = (trace w ++ tr)%list /\
             forallb is_invoked tr = true.
Proof.
  assert (forall w (x : Effect), is_invoked x = true ->
            exists tr, (trace w ++ [x])%list = (trace w ++ tr)%list /\
                       forallb is_invoked tr = true) as Hone.
  { intros w x Hx. exists [x]. simpl. now rewrite Hx. }
  induction f; intros w; cbn [call].
  - now apply Hone.
  - destruct (IHf (off event (Some (CbOnce id event f)) (log (Invoked (CbOnce id event f) d) w)))
      as (tr & Ht & Hf).
    rewrite off_trace, log_trace in Ht.
    exists (Invoked (CbOnce id event f) d :: tr). split.
    + rewrite Ht. now rewrite <- app_assoc.
    + exact Hf.
  - destruct d; try now apply Hone.
    unfold resolve. rewrite settle_trace, off_trace, clearTimeout_trace.
    now apply Hone.
  - destruct d; try now apply Hone.
    destruct (_ && _); [|now apply Hone].
    unfold resolve. rewrite settle_trace.
    change (trace (upd_socket ?g ?x)) with (trace x).
    rewrite clearTimeout_trace. now apply Hone.
  - destruct d; try now apply Hone.
    destruct (String.eqb _ _); [|now apply Hone].
    unfold resolve. rewrite settle_trace, off_trace, clearTimeout_trace.
    now apply Hone.
  - destruct d; try now apply Hone.
    unfold resolve. rewrite settle_trace, off_trace, clearTimeout_trace.
    now apply Hone.
Qed.

Lemma emit_trace d w :
  exists tr, trace (emit d w) = (trace w ++ Emitted d :: tr)%list /\
             forallb is_invoked tr = true.
Proof.
  unfold emit. cbv zeta.
  assert (forall l w0, exists tr,
            trace (fold_left
                     (fun w' cb =>
                        if set_has Callback_eqb cb
                             (listeners_of (event_name d) (client w'))
                        then call cb d w' else w') l w0)
            = (trace w0 ++ tr)%list /\ forallb is_invoked tr = true) as Hfold.
  { induction l as [|cb l IH]; intros w0; simpl.
    - exists []. now rewrite app_nil_r.
    - destruct (set_has _ _ _).
      + destruct (call_trace cb d w0) as (t1 & H1 & F1).
        destruct (IH (call cb d w0)) as (t2 & H2 & F2).
        exists (t1 ++ t2)%list. rewrite H2, H1, <- app_assoc. split; auto.
        rewrite forallb_app. now rewrite F1, F2.
      + apply IH. }
  destruct (Hfold (listeners_of (event_name d) (client (log (Emitted d) w)))
              (log (Emitted d) w)) as (tr & Ht & Hf).
  exists tr. split; auto. rewrite Ht. cbn. now rewrite <- app_assoc.
Qed.

(* ================================================================== *)
(** ** Transport close and reconnection *)

Lemma clearTimeout_length t w : length (timers (clearTimeout t w)) = length (timers w).
Proof.
  unfold clearTimeout. destruct (nth_error _ _); cbn; auto.
  apply list_set_length.
Qed.

Lemma clearTimeout_disarms t w : timer_pending t (clearTimeout t w) = None.
Proof.
  unfold clearTimeout, timer_pending.
  destruct (nth_error (timers w) t) eqn:E; cbn.
  - rewrite list_set_nth_same; [reflexivity|]. apply nth_error_Some. congruence.
  - now rewrite E.
Qed.

Lemma clearTimeout_keeps_disarmed t t' w :
  timer_pending t w = None -> timer_pending t (clearTimeout t' w) = None.
Proof.
  intros H. destruct (Nat.eq_dec t' t) as [->|Hn]; [apply clearTimeout_disarms|].
  unfold clearTimeout, timer_pending in *.
  destruct (nth_error (timers w) t'); cbn; auto.
  now rewrite list_set_nth_other.
Qed.

Lemma clearTimers_client w :
  client (clearTimers w) = set_pingInterval None (set_reconnectTimer None (client w)).
Proof.
  destruct w as [c ? ? ? ? ? ? ?]. destruct c as [? ? ? ? ? ? rt pi ? ? ?].
  unfold clearTimers, clearTimeout. cbn.
  destruct rt as [t|]; cbn; [destruct (nth_error _ t); cbn|];
    (destruct pi as [t'|]; cbn; [destruct (nth_error _ t'); cbn|]); reflexivity.
Qed.

Lemma clearTimers_length w : length (timers (clearTimers w)) = length (timers w).
Proof.
  unfold clearTimers. cbv zeta.
  destruct (reconnectTimer (client w)); cbn;
    match goal with
    | |- context [pingInterval ?c] => destruct (pingInterval c)
    end; cbn; rewrite ?clearTimeout_length; cbn; rewrite ?clearTimeout_length;
    reflexivity.
Qed.

Lemma clearTimers_disarms t w :
  reconnectTimer (client w) = Some t -> timer_pending t (clearTimers w) = None.
Proof.
  intros H. unfold clearTimers. rewrite H. cbv zeta.
  assert (timer_pending t (upd_client (set_reconnectTimer None) (clearTimeout t w))
          = None) as H0 by apply clearTimeout_disarms.
  match goal with
  | |- context [pingInterval ?c] => destruct (pingInterval c)
  end; [|exact H0].
  change (timer_pending t (clearTimeout n
            (upd_client (set_reconnectTimer None) (clearTimeout t w))) = None).
  now apply clearTimeout_keeps_disarmed.
Qed.

Lemma clearTimers_keeps_disarmed t w :
  timer_pending t w = None -> timer_pending t (clearTimers w) = None.
Proof.
  intros H. unfold clearTimers. cbv zeta.
  assert (timer_pending t
            match reconnectTimer (client w) with
            | Some t0 => upd_client (set_reconnectTimer None) (clearTimeout t0 w)
            | None => w
            end = None) as H0.
  { destruct (reconnectTimer (client w)); [|exact H].
    now apply (clearTimeout_keeps_disarmed t n w). }
  match goal with
  | |- context [pingInterval (client ?x)] =>
      remember x as w1 eqn:E; clear E
  end.
  destruct (pingInterval (client w1)); [|exact H0].
  now apply (clearTimeout_keeps_disarmed t n w1).
Qed.

Lemma clearTimers_trace w : trace (clearTimers w) = trace w.
Proof.
  unfold clearTimers. cbv zeta.
  destruct (reconnectTimer (client w)); cbn;
    match goal with
    | |- context [pingInterval ?c] => destruct (pingInterval c)
    end; cbn; rewrite ?clearTimeout_trace; cbn; rewrite ?clearTimeout_trace;
    reflexivity.
Qed.

Lemma fold_requeue (l : list (string * list nat)) : forall w,
  fold_left
    (fun w' (entry : string * list nat) =>
       upd_client (fun c =>
         set_pendingSubscriptions
           (set_add String.eqb (fst entry) (pendingSubscriptions c)) c) w') l w
  = upd_client (fun c =>
      set_pendingSubscriptions (requeue l (pendingSubscriptions c)) c) w.
Proof.
  unfold requeue. induction l as [|e l IH]; intros w.
  - destruct w as [c ? ? ? ? ? ? ?]. destruct c. reflexivity.
  - simpl. rewrite IH. reflexivity.
Qed.

(** The state [closing] leaves. *)
Lemma closing_spec reason w :
  let wc := closing reason w in
  reconnectTimer (client wc) = None /\
  length (timers wc) = length (timers w) /\
  reconnectAttempts (client wc) = reconnectAttempts (client w) /\
  (forall t, reconnectTimer (client w) = Some t -> timer_pending t wc = None) /\
  (forall t, timer_pending t w = None -> timer_pending t wc = None) /\
  pendingSubscriptions (client wc)
    = requeue (subscribers (client w)) (pendingSubscriptions (client w)) /\
  subscribers (client wc) = subscribers (client w) /\
  isConnected (client wc) = false /\
  option_map builtin_only (socket (client wc))
    = option_map builtin_only (socket (client w)) /\
  exists tr, trace wc = (trace w ++ Emitted (DDisconnected reason) :: tr)%list /\
             forallb is_invoked tr = true.
Proof.
  unfold closing. cbv zeta. rewrite fold_requeue.
  match goal with |- context [emit ?d ?x] =>
    pose proof (emit_quiet d x eq_refl) as Hq;
    destruct (emit_trace d x) as (tr & Htr & Hinv);
    remember (emit d x) as wc eqn:Ewc; clear Ewc
  end.
  destruct Hq. cbn in *.
  rewrite clearTimers_client in *. cbn in *.
  rewrite clearTimers_trace in Htr. cbn in Htr.
  repeat split; try assumption.
  - rewrite quiet_timers0. now rewrite clearTimers_length.
  - intros t Ht. unfold timer_pending. rewrite quiet_timers0.
    apply (clearTimers_disarms t (upd_client (set_isConnected false) w)). exact Ht.
  - intros t Ht. unfold timer_pending. rewrite quiet_timers0.
    apply (clearTimers_keeps_disarmed t (upd_client (set_isConnected false) w)).
    exact Ht.
  - eauto.
Qed.

Lemma onDisconnect_closing reason w :
  onDisconnect reason w =
  if negb (String.eqb reason "io client disconnect")
     && negb (String.eqb reason "transport close")
  then scheduleReconnection (closing reason w) else closing reason w.
Proof. reflexivity. Qed.

Lemma scheduleReconnection_arms w :
  reconnectAttempts (client w) < maxReconnectAttempts ->
  let n := S (reconnectAttempts (client w)) in
  let ms := (reconnectDelay * reconnectDelayMultiplier ^ Z.of_nat (n - 1))%Q in
  scheduleReconnection w =
  upd_client (set_reconnectTimer (Some (length (timers w))))
    (set_timers (timers w ++ [{| action := TReconnect; delay := ms; armed := true |}])
       (upd_client (set_reconnectAttempts n) w)).
Proof.
  intros H. unfold scheduleReconnection.
  destruct (Nat.leb_spec maxReconnectAttempts (reconnectAttempts (client w)));
    [lia | reflexivity].
Qed.

Lemma scheduleReconnection_gives_up w :
  maxReconnectAttempts <= reconnectAttempts (client w) ->
  scheduleReconnection w =
  emit (DError "MAX_RECONNECT_ATTEMPTS"
          ("Failed to reconnect after " ++ string_of_nat maxReconnectAttempts
           ++ " attempts") None) w.
Proof.
  intros H. unfold scheduleReconnection.
  destruct (Nat.leb_spec maxReconnectAttempts (reconnectAttempts (client w)));
    [reflexivity | lia].
Qed.

Lemma nth_error_last {A : Type} (l : list A) (x : A) :
  nth_error (l ++ [x]) (length l) = Some x.
Proof. rewrite nth_error_app2 by lia. now rewrite Nat.sub_diag. Qed.

Lemma timer_pending_quiet t w w' :
  timers w' = timers w -> timer_pending t w' = timer_pending t w.
Proof. intros H. unfold timer_pending. now rewrite H. Qed.

(** What a run of ['disconnect'] listeners with the reason of a local
    [socket.disconnect()] leaves of the timers. *)
Lemma deliberate_close_listeners (ls : list SockListener) : forall w,
  reconnectTimer (client w) = None ->
  let w' := fold_left (run_listener (MDisconnect "io client disconnect")) ls w in
  reconnectTimer (client w') = None /\
  length (timers w') = length (timers w) /\
  (forall t, timer_pending t w = None -> timer_pending t w' = None).
Proof.
  induction ls as [|l ls IH]; intros w Hw; simpl; [auto|].
  assert (reconnectTimer (client (run_listener (MDisconnect "io client disconnect") w l))
            = None /\
          length (timers (run_listener (MDisconnect "io client disconnect") w l))
            = length (timers w) /\
          (forall t, timer_pending t w = None ->
             timer_pending t (run_listener (MDisconnect "io client disconnect") w l)
               = None)) as (H1 & H2 & H3).
  { destruct l; simpl; auto.
    change (onDisconnect "io client disconnect" w)
      with (closing "io client disconnect" w).
    destruct (closing_spec "io client disconnect" w)
      as (A & B & _ & _ & D & _). auto. }
  destruct (IH _ H1) as (H4 & H5 & H6).
  repeat split; auto. congruence.
Qed.

(* ================================================================== *)
(** ** Replay of the subscriptions after a reconnect *)

Lemma requeue_In (subs : list (string * list nat)) : forall pending x,
  In x (requeue subs pending) <-> In x pending \/ In x (map fst subs).
Proof.
  unfold requeue. induction subs as [|e subs IH]; intros pending x; simpl.
  - tauto.
  - rewrite IH, (set_add_In String.eqb String.eqb_eq). intuition.
Qed.

Lemma requeue_NoDup (subs : list (string * list nat)) : forall pending,
  NoDup pending -> NoDup (requeue subs pending).
Proof.
  unfold requeue. induction subs as [|e subs IH]; intros pending H; simpl; auto.
  apply IH. now apply (set_add_NoDup String.eqb String.eqb_eq).
Qed.

Lemma map_has_In_keys {V : Type} (k : string) (m : list (string * V)) :
  map_has String.eqb k m = true -> In k (map fst m).
Proof.
  unfold map_has. induction m as [|[k' v] m IH]; simpl; [discriminate|].
  destruct (String.eqb k k') eqn:E.
  - apply String.eqb_eq in E. auto.
  - auto.
Qed.

Lemma count_subscribe_sent (symbol : string) (l : list string) :
  NoDup l -> In symbol l ->
  count_subscribe symbol (map (fun s => Sent (OSubscribe s "M5")) l) = 1.
Proof.
  unfold count_subscribe. induction 1 as [|a l Ha Hl IH]; simpl; [tauto|].
  intros [->|Hin].
  - rewrite String.eqb_refl. simpl. f_equal.
    clear IH Hl. induction l as [|b l IH]; simpl; auto.
    destruct (String.eqb b symbol) eqn:E.
    + apply String.eqb_eq in E. subst. exfalso. apply Ha. now left.
    + apply IH. intros H. apply Ha. now right.
  - destruct (String.eqb a symbol) eqn:E.
    + apply String.eqb_eq in E. subst. contradiction.
    + now apply IH.
Qed.

Lemma count_subscribe_invoked (symbol : string) (tr : list Effect) :
  forallb is_invoked tr = true -> count_subscribe symbol tr = 0.
Proof.
  unfold count_subscribe. induction tr as [|e tr IH]; simpl; auto.
  intros H. apply andb_prop in H. destruct H as [He Ht].
  destruct e; try discriminate. simpl. auto.
Qed.

Lemma fold_sendSubscribe (l : list string) : forall w,
  connected w = true ->
  fold_left (fun w' symbol => sendSubscribe symbol w') l w =
  set_trace (trace w ++ map (fun s => Sent (OSubscribe s "M5")) l) w.
Proof.
  induction l as [|s l IH]; intros w Hc; simpl.
  - rewrite app_nil_r. destruct w; reflexivity.
  - unfold sendSubscribe at 2. rewrite Hc. rewrite IH by exact Hc.
    unfold send, log. cbn. now rewrite <- app_assoc.
Qed.

Lemma startPingInterval_client w :
  client (startPingInterval w) =
  set_pingInterval (Some (length (timers w)))
    (set_reconnectTimer None (client w)).
Proof.
  unfold startPingInterval, setTimeout. cbv zeta. cbn.
  rewrite clearTimers_client, clearTimers_length. reflexivity.
Qed.

Lemma startPingInterval_trace w : trace (startPingInterval w) = trace w.
Proof.
  unfold startPingInterval, setTimeout. cbv zeta. cbn. apply clearTimers_trace.
Qed.

(** What the ['connect'] listener sends and emits, in order. *)
Lemma onConnect_trace w :
  socket (client w) <> None ->
  exists tr,
    trace (onConnect w) =
      (trace w
       ++ map (fun s => Sent (OSubscribe s "M5")) (pendingSubscriptions (client w))
       ++ Emitted (DConnected connected_message) :: tr)%list /\
    forallb is_invoked tr = true.
Proof.
  intros Hs. unfold onConnect. cbv zeta.
  set (w1 := upd_client _ w).
  assert (connected (startPingInterval w1) = true) as Hc.
  { unfold connected. rewrite startPingInterval_client. cbn.
    destruct (socket (client w)); [reflexivity | contradiction]. }
  rewrite (fold_sendSubscribe _ _ Hc).
  rewrite startPingInterval_client, startPingInterval_trace. cbn.
  match goal with |- context [emit ?d ?x] =>
    destruct (emit_trace d x) as (tr & Htr & Hinv);
    remember (emit d x) as w5 eqn:E; clear E
  end.
  cbn in Htr. exists tr. split; [|exact Hinv].
  destruct (connectionResolve (client w5)); cbn;
    unfold resolve; rewrite ?settle_trace, Htr, <- app_assoc; reflexivity.
Qed.

Lemma skipn_length_app {A : Type} (l l' : list A) : skipn (length l) (l ++ l') = l'.
Proof. induction l; simpl; auto. Qed.

(** The registry, the pending set and the socket after the ['disconnect']
    listener. *)
Lemma onDisconnect_spec reason w :
  pendingSubscriptions (client (onDisconnect reason w))
    = requeue (subscribers (client w)) (pendingSubscriptions (client w)) /\
  isConnected (client (onDisconnect reason w)) = false /\
  (socket (client w) <> None -> socket (client (onDisconnect reason w)) <> None).
Proof.
  rewrite onDisconnect_closing.
  destruct (closing_spec reason w) as (_ & _ & _ & _ & _ & P & _ & C & S & _).
  assert (socket (client w) <> None -> socket (client (closing reason w)) <> None)
    as S'.
  { intros H H'. rewrite H' in S. destruct (socket (client w)); [discriminate|auto]. }
  destruct (_ && _); [|auto].
  destruct (Nat.leb_spec maxReconnectAttempts
              (reconnectAttempts (client (closing reason w)))) as [Hge|Hlt].
  - rewrite scheduleReconnection_gives_up by exact Hge.
    match goal with |- context [emit ?d ?x] =>
      destruct (emit_quiet d x eq_refl) as
        [_ _ _ _ _ _ _ Q1 Q2 _ _ _ _ _ Q3]
    end.
    rewrite Q1, Q2. repeat split; auto.
    intros H H'. rewrite H' in Q3. apply (S' H).
    destruct (socket (client (closing reason w))); [discriminate|auto].
  - rewrite scheduleReconnection_arms by exact Hlt. cbn. auto.
Qed.

(** C6 (as corrected).  The client has a socket and subscriptions; the
    transport closes (the ['disconnect'] listener runs), then the next
    connection succeeds (the ['connect'] listener runs, on the same socket
    or on the one a [connect()] call opened in between).  What the client
    does from the reopening on is: one [subscribe] emission for each
    pending symbol, exactly one for every symbol that was subscribed before
    the close, and then the [connected] event, after those emissions. *)
Theorem reconnect_replays_subscriptions (reason : string) (w w1 : World)
    (Hsock : socket (client w) <> None)
    (Hset : NoDup (pendingSubscriptions (client w)))
    (Hreopen : w1 = onDisconnect reason w \/
               w1 = snd (connect (onDisconnect reason w))) :
  let post := skipn (length (trace w1)) (trace (onConnect w1)) in
  (forall symbol,
     map_has String.eqb symbol (subscribers (client w)) = true ->
     count_subscribe symbol post = 1) /\
  exists symbols tr,
    post = (map (fun s => Sent (OSubscribe s "M5")) symbols
            ++ Emitted (DConnected connected_message) :: tr)%list /\
    forallb is_invoked tr = true.
Proof.
  destruct (onDisconnect_spec reason w) as (Hp & Hc & Hs).
  specialize (Hs Hsock).
  assert (pendingSubscriptions (client w1)
            = requeue (subscribers (client w)) (pendingSubscriptions (client w)) /\
          socket (client w1) <> None) as (Hp1 & Hs1).
  { destruct Hreopen as [->| ->]; [auto|].
    unfold connect. rewrite Hc.
    destruct (isConnecting (client (onDisconnect reason w))),
             (connectionPromise (client (onDisconnect reason w))); cbn; auto;
      split; auto; discriminate. }
  destruct (onConnect_trace w1 Hs1) as (tr & Htr & Hinv).
  cbv zeta. rewrite Htr, skipn_length_app, Hp1. split.
  - intros symbol Hsub. unfold count_subscribe.
    rewrite filter_app, length_app. simpl.
    fold (count_subscribe symbol
            (map (fun s => Sent (OSubscribe s "M5"))
               (requeue (subscribers (client w)) (pendingSubscriptions (client w))))).
    fold (count_subscribe symbol tr).
    rewrite count_subscribe_sent, count_subscribe_invoked; auto.
    + now apply requeue_NoDup.
    + apply requeue_In. right. now apply map_has_In_keys.
  - eauto.
Qed.

Lemma reconnect_replays_subscriptions_witness :
  let w := run [ASubscribe "EURUSD" 1; ASubscribe "GBPUSD" 2] online in
  let w1 := onDisconnect "ping timeout" w in
  let post := skipn (length (trace w1)) (trace (onConnect w1)) in
  (forall symbol,
     map_has String.eqb symbol (subscribers (client w)) = true ->
     count_subscribe symbol post = 1) /\
  exists symbols tr,
    post = (map (fun s => Sent (OSubscribe s "M5")) symbols
            ++ Emitted (DConnected connected_message) :: tr)%list /\
    forallb is_invoked tr = true.
Proof.
  apply (reconnect_replays_subscriptions "ping timeout"
           (run [ASubscribe "EURUSD" 1; ASubscribe "GBPUSD" 2] online)).
  - vm_compute. discriminate.
  - vm_compute. constructor.
  - left. reflexivity.
Defined.

(** C6, the claim as stated fails: after the reopening the [subscribe]
    emission comes first and the [connected] event after it. *)
Lemma connected_event_follows_replay :
  let w := subscribe "EURUSD" 1 online in
  let w1 := deliver (MDisconnect "transport close") w in
  let w2 := deliver MConnect w1 in
  skipn (length (trace w1)) (trace w2) =
    [Sent (OSubscribe "EURUSD" "M5"); Emitted (DConnected connected_message)].
Proof. vm_compute. reflexivity. Qed.

(* ================================================================== *)
(** ** Backoff of the automatic reconnection *)

Lemma getErrorCode_not_max message :
  String.eqb (getErrorCode message) "MAX_RECONNECT_ATTEMPTS" = false.
Proof.
  unfold getErrorCode.
  repeat match goal with
         | |- context [if ?c then _ else _] => destruct c
         end; reflexivity.
Qed.

Lemma count_max_errors_app tr tr' :
  count_max_errors (tr ++ tr') = count_max_errors tr + count_max_errors tr'.
Proof. unfold count_max_errors. now rewrite filter_app, length_app. Qed.

Lemma count_max_errors_invoked tr :
  forallb is_invoked tr = true -> count_max_errors tr = 0.
Proof.
  unfold count_max_errors. induction tr as [|e tr IH]; simpl; auto.
  intros H. apply andb_prop in H. destruct H as [He Ht].
  destruct e; try discriminate. simpl. auto.
Qed.

Lemma emit_count_max_errors d w :
  count_max_errors (trace (emit d w)) =
  count_max_errors (trace w) + (if is_max_error (Emitted d) then 1 else 0).
Proof.
  destruct (emit_trace d w) as (tr & Ht & Hinv).
  rewrite Ht, count_max_errors_app. f_equal.
  change (Emitted d :: tr) with ([Emitted d] ++ tr)%list.
  rewrite count_max_errors_app, (count_max_errors_invoked tr Hinv).
  unfold count_max_errors. cbn [filter app].
  destruct (is_max_error (Emitted d)); reflexivity.
Qed.

Lemma timer_log_clearTimeout t w : timer_log (clearTimeout t w) = timer_log w.
Proof.
  unfold timer_log, clearTimeout.
  destruct (nth_error (timers w) t) as [x|] eqn:E; [|reflexivity]. cbn.
  revert t E. induction (timers w) as [|a l IH]; intros [|t] E; simpl in *;
    try discriminate.
  - inversion E. reflexivity.
  - f_equal. now apply IH.
Qed.

Lemma settle_client q o x : client (settle q o x) = client x.
Proof. unfold settle. destruct (is_pending q x); reflexivity. Qed.

Lemma settle_timers q o x : timers (settle q o x) = timers x.
Proof. unfold settle. destruct (is_pending q x); reflexivity. Qed.

(** The part of the ['connect_error'] listener that comes before it
    resolves the promise of [connect()]. *)
Lemma connect_error_scheduled message x :
  let x1 := upd_client (fun c => set_isConnected false (set_isConnecting false c)) x in
  let x2 := emit (DError (getErrorCode message) message
                    (Some (reconnectAttempts (client x1) + 1))) x1 in
  let x3 := scheduleReconnection x2 in
  isConnected (client x3) = false /\
  isConnecting (client x3) = false /\
  if reconnectAttempts (client x) <? maxReconnectAttempts
  then reconnectAttempts (client x3) = S (reconnectAttempts (client x)) /\
       timers x3 = (timers x ++
         [{| action := TReconnect;
             delay := reconnect_delay (S (reconnectAttempts (client x)));
             armed := true |}])%list /\
       reconnectTimer (client x3) = Some (length (timers x)) /\
       count_max_errors (trace x3) = count_max_errors (trace x)
  else reconnectAttempts (client x3) = reconnectAttempts (client x) /\
       timers x3 = timers x /\
       reconnectTimer (client x3) = reconnectTimer (client x) /\
       count_max_errors (trace x3) = S (count_max_errors (trace x)).
Proof.
  cbv zeta.
  match goal with |- context [emit ?d ?y] =>
    pose proof (emit_quiet d y eq_refl) as Hq;
    pose proof (emit_count_max_errors d y) as Hn;
    remember (emit d y) as x2 eqn:E; clear E
  end.
  destruct Hq as [Qt _ _ _ _ _ Qg Qc _ Qa Qr _ _ _ _].
  unfold is_max_error in Hn.
  rewrite getErrorCode_not_max, Nat.add_0_r in Hn.
  change (timers x2 = timers x) in Qt.
  change (isConnecting (client x2) = false) in Qg.
  change (isConnected (client x2) = false) in Qc.
  change (reconnectAttempts (client x2) = reconnectAttempts (client x)) in Qa.
  change (reconnectTimer (client x2) = reconnectTimer (client x)) in Qr.
  change (count_max_errors (trace x2) = count_max_errors (trace x)) in Hn.
  destruct (Nat.ltb_spec (reconnectAttempts (client x)) maxReconnectAttempts)
    as [Hlt|Hge].
  - rewrite scheduleReconnection_arms by (rewrite Qa; exact Hlt).
    cbn [client timers trace upd_client set_timers isConnected isConnecting
         reconnectAttempts reconnectTimer set_reconnectTimer set_reconnectAttempts].
    rewrite Qc, Qg, Qa, Qt, Hn. unfold reconnect_delay. repeat split; reflexivity.
  - rewrite scheduleReconnection_gives_up by (rewrite Qa; exact Hge).
    match goal with |- context [emit ?d ?y] =>
      pose proof (emit_quiet d y eq_refl) as Hq;
      pose proof (emit_count_max_errors d y) as Hn';
      remember (emit d y) as x3 eqn:E; clear E
    end.
    destruct Hq as [Qt' _ _ _ _ _ Qg' Qc' _ Qa' Qr' _ _ _ _].
    change (count_max_errors (trace x3) = count_max_errors (trace x2) + 1) in Hn'.
    rewrite Qc', Qg', Qa', Qt', Qr', Hn', Qc, Qg, Qa, Qt, Qr, Hn.
    repeat split; try reflexivity. apply Nat.add_1_r.
Qed.

(** The ['connect_error'] listener. *)
Lemma onConnectError_spec message x :
  let x' := onConnectError message x in
  isConnected (client x') = false /\
  isConnecting (client x') = false /\
  if reconnectAttempts (client x) <? maxReconnectAttempts
  then reconnectAttempts (client x') = S (reconnectAttempts (client x)) /\
       timers x' = (timers x ++
         [{| action := TReconnect;
             delay := reconnect_delay (S (reconnectAttempts (client x)));
             armed := true |}])%list /\
       reconnectTimer (client x') = Some (length (timers x)) /\
       count_max_errors (trace x') = count_max_errors (trace x)
  else reconnectAttempts (client x') = reconnectAttempts (client x) /\
       timers x' = timers x /\
       reconnectTimer (client x') = reconnectTimer (client x) /\
       count_max_errors (trace x') = S (count_max_errors (trace x)).
Proof.
  cbv zeta. unfold onConnectError. cbv zeta.
  pose proof (connect_error_scheduled message x) as H. cbv zeta in H.
  match type of H with
  | isConnected (client ?y) = _ /\ _ => remember y as x3 eqn:E; clear E
  end.
  destruct (connectionResolve (client x3)); [|exact H].
  unfold resolve.
  cbn [client timers trace upd_client isConnected isConnecting reconnectAttempts
       reconnectTimer set_connectionResolve].
  rewrite settle_trace, settle_timers, settle_client.
  exact H.
Qed.

(** A connection attempt of a client that is neither connected nor
    connecting, and its failure. *)
Lemma failed_connect_spec message w :
  isConnected (client w) = false ->
  isConnecting (client w) = false ->
  let w' := deliver (MConnectError message) (snd (connect w)) in
  isConnected (client w') = false /\
  isConnecting (client w') = false /\
  if reconnectAttempts (client w) <? maxReconnectAttempts
  then reconnectAttempts (client w') = S (reconnectAttempts (client w)) /\
       timers w' = (timers w ++
         [{| action := TReconnect;
             delay := reconnect_delay (S (reconnectAttempts (client w)));
             armed := true |}])%list /\
       reconnectTimer (client w') = Some (length (timers w)) /\
       count_max_errors (trace w') = count_max_errors (trace w)
  else reconnectAttempts (client w') = reconnectAttempts (client w) /\
       timers w' = timers w /\
       reconnectTimer (client w') = reconnectTimer (client w) /\
       count_max_errors (trace w') = S (count_max_errors (trace w)).
Proof.
  intros Hc Hg. cbv zeta.
  assert (deliver (MConnectError message) (snd (connect w))
          = onConnectError message (snd (connect w)) /\
          reconnectAttempts (client (snd (connect w))) = reconnectAttempts (client w) /\
          timers (snd (connect w)) = timers w /\
          reconnectTimer (client (snd (connect w))) = reconnectTimer (client w) /\
          trace (snd (connect w)) = trace w) as (E & Ea & Et & Er & Etr).
  { unfold connect. rewrite Hc, Hg. repeat split. }
  rewrite E.
  pose proof (onConnectError_spec message (snd (connect w))) as H. cbv zeta in H.
  rewrite Ea, Et, Er, Etr in H. exact H.
Qed.

Lemma fire_reconnect t ms w :
  timer_pending t w = Some (TReconnect, ms) ->
  fire t w = snd (connect (clearTimeout t w)).
Proof. intros H. unfold fire. now rewrite H. Qed.

Lemma clearTimeout_client t w : client (clearTimeout t w) = client w.
Proof. unfold clearTimeout. destruct (nth_error _ _); reflexivity. Qed.

Lemma retry_loop_stuck messages w :
  (forall t, reconnectTimer (client w) = Some t -> timer_pending t w = None) ->
  retry_loop messages w = w.
Proof.
  intros H. destruct messages as [|m ms]; simpl; auto.
  destruct (reconnectTimer (client w)) as [t|]; auto.
  now rewrite (H t eq_refl).
Qed.

Lemma timer_log_app w x l :
  timers w = (l ++ [x])%list ->
  timer_log w = (map (fun y => (action y, delay y)) l ++ [(action x, delay x)])%list.
Proof. intros H. unfold timer_log. rewrite H, map_app. reflexivity. Qed.

Lemma reconnect_delay_grows (k : nat) :
  (reconnect_delay k <= reconnect_delay (S k))%Q.
Proof.
  unfold reconnect_delay. apply Qmult_le_l; [reflexivity|].
  apply Qpower_le_compat_l; [lia | discriminate].
Qed.

(** The loop from a state in which attempt number [j] is scheduled. *)
Lemma retry_loop_spec (messages : list string) : forall w j t ms,
  0 < j -> j <= maxReconnectAttempts ->
  isConnected (client w) = false ->
  isConnecting (client w) = false ->
  reconnectAttempts (client w) = j ->
  reconnectTimer (client w) = Some t ->
  timer_pending t w = Some (TReconnect, ms) ->
  let wf := retry_loop messages w in
  timer_log wf =
    (timer_log w ++
     map (fun k => (TReconnect, reconnect_delay k))
       (seq (S j) (min (length messages) (maxReconnectAttempts - j))))%list /\
  count_max_errors (trace wf) =
    count_max_errors (trace w)
    + (if maxReconnectAttempts - j <? length messages then 1 else 0) /\
  (maxReconnectAttempts - j < length messages ->
   forall t', reconnectTimer (client wf) = Some t' -> timer_pending t' wf = None).
Proof.
  induction messages as [|m messages IH]; intros w j t ms Hj Hmax Hc Hg Ha Hrt Htp.
  - simpl. rewrite app_nil_r. repeat split; [lia | intros; lia].
  - cbn [retry_loop]. rewrite Hrt, Htp. unfold failed_attempt.
    rewrite (fire_reconnect t ms w Htp).
    pose proof (failed_connect_spec m (clearTimeout t w)) as Hstep.
    rewrite clearTimeout_client in Hstep. specialize (Hstep Hc Hg).
    cbv zeta in Hstep. destruct Hstep as (Hc1 & Hg1 & Hstep).
    rewrite clearTimeout_trace, Ha in Hstep.
    remember (deliver (MConnectError m) (snd (connect (clearTimeout t w)))) as w1
      eqn:E. clear E.
    destruct (Nat.ltb_spec j maxReconnectAttempts) as [Hlt|Hge].
    + destruct Hstep as (Ha1 & Ht1 & Hrt1 & Hn1).
      assert (timer_pending (length (timers (clearTimeout t w))) w1
              = Some (TReconnect, reconnect_delay (S j))) as Htp1.
      { unfold timer_pending. rewrite Ht1, nth_error_last. reflexivity. }
      destruct (IH w1 (S j) _ _ ltac:(lia) ltac:(lia) Hc1 Hg1 Ha1 Hrt1 Htp1)
        as (I1 & I2 & I3).
      cbv zeta. rewrite I1, I2, Hn1.
      rewrite (timer_log_app _ _ _ Ht1).
      fold (timer_log (clearTimeout t w)). rewrite timer_log_clearTimeout.
      cbn [action delay length].
      replace (min (S (length messages)) (maxReconnectAttempts - j))
        with (S (min (length messages) (maxReconnectAttempts - S j))) by lia.
      cbn [seq map]. rewrite <- app_assoc. cbn [app].
      repeat split.
      * destruct (Nat.ltb_spec (maxReconnectAttempts - S j) (length messages)),
          (Nat.ltb_spec (maxReconnectAttempts - j) (S (length messages))); lia.
      * intros H. apply I3. lia.
    + destruct Hstep as (Ha1 & Ht1 & Hrt1 & Hn1).
      assert (forall t', reconnectTimer (client w1) = Some t' ->
                timer_pending t' w1 = None) as Hspent.
      { intros t' Ht'. rewrite Hrt1, Hrt in Ht'. inversion Ht'; subst t'.
        unfold timer_pending. rewrite Ht1. apply clearTimeout_disarms. }
      cbv zeta. rewrite (retry_loop_stuck messages w1 Hspent).
      unfold timer_log at 1. rewrite Ht1. fold (timer_log (clearTimeout t w)).
      rewrite timer_log_clearTimeout, Hn1. cbn [length].
      replace (min (S (length messages)) (maxReconnectAttempts - j)) with 0 by lia.
      cbn [seq map]. rewrite app_nil_r.
      repeat split.
      * destruct (Nat.ltb_spec (maxReconnectAttempts - j) (S (length messages))); lia.
      * intros _. exact Hspent.
Qed.

(** The chain of attempts.  A client that is neither connected nor
    connecting and has made no attempt tries to connect and fails, and
    then every automatic
    attempt fails too.  The timers this creates are exactly the reconnect
    timers of attempts 1, 2, ... with delays
    [reconnectDelay * reconnectDelayMultiplier ^ (n - 1)], at most
    [maxReconnectAttempts] of them; the delays never decrease; the
    [MAX_RECONNECT_ATTEMPTS] error is emitted once, when the attempt after
    the last allowed one fails, and then no reconnect timer is armed, so
    the loop has ended. *)
Lemma retry_loop_backoff (w : World) (message : string) (messages : list string)
    (Hc : isConnected (client w) = false)
    (Hg : isConnecting (client w) = false)
    (Ha : reconnectAttempts (client w) = 0) :
  let w0 := deliver (MConnectError message) (snd (connect w)) in
  let wf := retry_loop messages w0 in
  timer_log wf =
    (timer_log w ++
     map (fun n => (TReconnect, reconnect_delay n))
       (seq 1 (min (S (length messages)) maxReconnectAttempts)))%list /\
  (forall n, (reconnect_delay n <= reconnect_delay (S n))%Q) /\
  count_max_errors (trace wf) =
    count_max_errors (trace w)
    + (if maxReconnectAttempts <=? length messages then 1 else 0) /\
  (maxReconnectAttempts <= length messages ->
   (forall t, reconnectTimer (client wf) = Some t -> timer_pending t wf = None) /\
   (forall more, retry_loop more wf = wf)).
Proof.
  pose proof (failed_connect_spec message w Hc Hg) as Hstep.
  cbv zeta in Hstep. destruct Hstep as (Hc0 & Hg0 & Hstep).
  rewrite Ha in Hstep.
  change (0 <? maxReconnectAttempts) with true in Hstep.
  destruct Hstep as (Ha0 & Ht0 & Hrt0 & Hn0).
  remember (deliver (MConnectError message) (snd (connect w))) as w0 eqn:E. clear E.
  assert (timer_pending (length (timers w)) w0 = Some (TReconnect, reconnect_delay 1))
    as Htp0.
  { unfold timer_pending. rewrite Ht0, nth_error_last. reflexivity. }
  destruct (retry_loop_spec messages w0 1 _ _ ltac:(lia)
              ltac:(unfold maxReconnectAttempts; lia) Hc0 Hg0 Ha0 Hrt0 Htp0)
    as (I1 & I2 & I3).
  cbv zeta. rewrite I1, I2, Hn0, (timer_log_app _ _ _ Ht0).
  fold (timer_log w). cbn [action delay].
  replace (min (S (length messages)) maxReconnectAttempts)
    with (S (min (length messages) (maxReconnectAttempts - 1)))
    by (unfold maxReconnectAttempts; lia).
  cbn [seq map]. rewrite <- app_assoc. cbn [app].
  split; [reflexivity|]. split; [apply reconnect_delay_grows|]. split.
  - destruct (Nat.ltb_spec (maxReconnectAttempts - 1) (length messages)),
      (Nat.leb_spec maxReconnectAttempts (length messages));
      unfold maxReconnectAttempts in *; lia.
  - intros Hlen.
    assert (forall t, reconnectTimer (client (retry_loop messages w0)) = Some t ->
              timer_pending t (retry_loop messages w0) = None) as Hspent.
    { apply I3. unfold maxReconnectAttempts in *. lia. }
    split; [exact Hspent|]. intros more. now apply retry_loop_stuck.
Qed.

(** The first delays, in milliseconds. *)
Example reconnect_delay_values :
  (reconnect_delay 1 == 5000 # 1)%Q /\
  (reconnect_delay 2 == 7500 # 1)%Q /\
  (reconnect_delay 3 == 11250 # 1)%Q /\
  (reconnect_delay 10 == 98415000 # 512)%Q.
Proof. repeat split. Qed.

(* ================================================================== *)
(** ** The candle cache *)

Lemma append_assoc (a b c : string) : ((a ++ b) ++ c = a ++ (b ++ c))%string.
Proof. induction a as [|x a IH]; simpl; [reflexivity | now rewrite IH]. Qed.

Lemma append_length (a b : string) :
  String.length (a ++ b) = String.length a + String.length b.
Proof. induction a as [|x a IH]; simpl; [reflexivity | now rewrite IH]. Qed.

(** C10.  The cache key does not separate the symbol from the time
    frame: the requests [(a_b, c, n)] and [(a, b_c, n)] differ and have the
    same key; so after a call for one of them, a call for the other
    returns what the first returned (the same in-flight promise or the
    same cached list) and asks the server nothing. *)
Theorem cache_key_collision (a b c : string) (count : nat) (w : World) :
  (a ++ "_" ++ b)%string <> a /\
  cacheKey (a ++ "_" ++ b) c count = cacheKey a (b ++ "_" ++ c) count /\
  cacheKey "A_B" "C" count = cacheKey "A" "B_C" count /\
  getCandlesWithCache a (b ++ "_" ++ c) count
    (snd (getCandlesWithCache (a ++ "_" ++ b) c count w))
  = getCandlesWithCache (a ++ "_" ++ b) c count w.
Proof.
  assert (cacheKey (a ++ "_" ++ b) c count = cacheKey a (b ++ "_" ++ c) count) as Hk.
  { unfold cacheKey. now rewrite !append_assoc. }
  split; [|split; [exact Hk|split; [reflexivity|]]].
  - intros H. apply (f_equal String.length) in H.
    rewrite append_length in H. simpl in H. lia.
  - unfold getCandlesWithCache. cbv zeta. rewrite <- Hk.
    destruct (map_get String.eqb (cacheKey (a ++ "_" ++ b) c count) (candlesPromises w))
      as [p|] eqn:Hp.
    + cbn [snd]. now rewrite Hp.
    + destruct (map_get String.eqb (cacheKey (a ++ "_" ++ b) c count) (candlesCache w))
        as [cs|] eqn:Hc.
      * cbn [snd]. now rewrite Hp, Hc.
      * destruct (getCandles (a ++ "_" ++ b) c count w) as [q w1].
        unfold new_promise. cbv beta iota zeta.
        cbn [snd candlesPromises set_candlesPromises].
        rewrite (map_get_set_same String.eqb String.eqb_eq). reflexivity.
Qed.

(** The collision at work: a list fetched for ["A_B"]/["C"] is served
    from the cache to a request for ["A"]/["B_C"]. *)
Example cache_serves_other_request :
  let w1 := snd (getCandlesWithCache "A_B" "C" 100 online) in
  let w2 := drain (deliver (MData (DCandles "A_B" "C" (Some [sample_candle]))) w1) in
  getCandlesWithCache "A" "B_C" 100 w2 = (Ready [sample_candle], w2).
Proof. vm_compute. reflexivity. Qed.

(** *** Delivery of a data event *)

Lemma delivered_refl n x : delivered n x x.
Proof. constructor; auto. Qed.

Lemma delivered_trans n x y z : delivered n x y -> delivered n y z -> delivered n x z.
Proof.
  intros [] []. constructor; try congruence.
  - intros k Hk. rewrite delivered_promises1, delivered_promises0; auto.
  - auto.
Qed.

Lemma delivered_same_core n x y :
  reactions y = reactions x -> candlesCache y = candlesCache x ->
  candlesPromises y = candlesPromises x -> promises y = promises x ->
  eventListeners (client y) = eventListeners (client x) ->
  delivered n x y.
Proof.
  intros H1 H2 H3 H4 H5. constructor; auto.
  - intros. now rewrite H4.
  - intros e g. unfold listeners_of. now rewrite H5.
Qed.

Lemma log_delivered n e x : delivered n x (log e x).
Proof. apply delivered_same_core; reflexivity. Qed.

Lemma clearTimeout_delivered n t x : delivered n x (clearTimeout t x).
Proof.
  unfold clearTimeout. destruct (nth_error _ _); [|apply delivered_refl].
  apply delivered_same_core; reflexivity.
Qed.

Lemma upd_socket_delivered n f x : delivered n x (upd_socket f x).
Proof. apply delivered_same_core; reflexivity. Qed.

Lemma settle_delivered n q o x : q < n -> delivered n x (settle q o x).
Proof.
  intros Hq. unfold settle. destruct (is_pending q x); [|apply delivered_refl].
  constructor; try reflexivity; auto.
  intros k Hk. cbn. apply list_set_nth_other. lia.
Qed.

Lemma set_delete_In (k x : Callback) (s : list Callback) :
  In x (set_delete Callback_eqb k s) -> In x s.
Proof.
  induction s as [|a s IH]; simpl; auto.
  destruct (Callback_eqb k a); simpl; intuition.
Qed.

Lemma off_delivered n e f x : delivered n x (off e f x).
Proof.
  unfold off. cbv zeta.
  match goal with
  | |- delivered n x (match f with Some cb => upd_socket _ ?y | None => ?y end) =>
      assert (delivered n x y) as Hy
  end.
  { destruct (map_get EventName_eqb e (eventListeners (client x))) as [l|] eqn:E;
      [|apply delivered_refl].
    constructor; try reflexivity; auto.
    intros e' g. unfold listeners_of. cbn.
    destruct (EventName_eq_dec e e') as [<-|Hn].
    - rewrite (map_get_set_same EventName_eqb EventName_eqb_eq), E.
      destruct f; [apply set_delete_In | intros []].
    - now rewrite (map_get_set_other EventName_eqb EventName_eqb_eq). }
  destruct f; [|exact Hy].
  eapply delivered_trans; [exact Hy | apply upd_socket_delivered].
Qed.

Lemma call_delivered n f d : forall x,
  below n (cb_promise f) = true -> delivered n x (call f d x).
Proof.
  induction f; intros x Hf; cbn [call]; cbn [cb_promise below] in Hf;
    try apply Nat.ltb_lt in Hf.
  - apply log_delivered.
  - eapply delivered_trans; [|apply IHf; exact Hf].
    eapply delivered_trans; [apply log_delivered | apply off_delivered].
  - destruct d; try apply log_delivered.
    eapply delivered_trans; [|apply settle_delivered; exact Hf].
    eapply delivered_trans; [|apply off_delivered].
    eapply delivered_trans; [apply log_delivered | apply clearTimeout_delivered].
  - destruct d; try apply log_delivered.
    destruct (_ && _); [|apply log_delivered].
    eapply delivered_trans; [|apply settle_delivered; exact Hf].
    eapply delivered_trans; [|apply upd_socket_delivered].
    eapply delivered_trans; [apply log_delivered | apply clearTimeout_delivered].
  - destruct d; try apply log_delivered.
    destruct (String.eqb _ _); [|apply log_delivered].
    eapply delivered_trans; [|apply settle_delivered; exact Hf].
    eapply delivered_trans; [|apply off_delivered].
    eapply delivered_trans; [apply log_delivered | apply clearTimeout_delivered].
  - destruct d; try apply log_delivered.
    eapply delivered_trans; [|apply settle_delivered; exact Hf].
    eapply delivered_trans; [|apply off_delivered].
    eapply delivered_trans; [apply log_delivered | apply clearTimeout_delivered].
Qed.

Lemma bus_below_delivered n x y : bus_below n x -> delivered n x y -> bus_below n y.
Proof. intros Hb Hd e g Hg. apply (Hb e). now apply (delivered_bus _ _ _ Hd). Qed.

Lemma emit_delivered n d x : bus_below n x -> delivered n x (emit d x).
Proof.
  intros Hb. unfold emit. cbv zeta.
  assert (forall l y, delivered n x y ->
            delivered n x
              (fold_left
                 (fun w' cb =>
                    if set_has Callback_eqb cb (listeners_of (event_name d) (client w'))
                    then call cb d w' else w') l y)) as Hfold.
  { induction l as [|cb l IH]; intros y Hy; simpl; [exact Hy|].
    apply IH.
    destruct (set_has Callback_eqb cb (listeners_of (event_name d) (client y))) eqn:E;
      [|exact Hy].
    eapply delivered_trans; [exact Hy|]. apply call_delivered.
    apply (bus_below_delivered n x y Hb Hy (event_name d)).
    now apply (set_has_In Callback_eqb Callback_eqb_eq). }
  apply Hfold. apply log_delivered.
Qed.

Lemma onTick_delivered n symbol tick x : delivered n x (onTick symbol tick x).
Proof.
  unfold onTick. destruct (map_get _ _ _) as [l|]; [|apply delivered_refl].
  revert x. induction l as [|cb l IH]; intros x; simpl; [apply delivered_refl|].
  eapply delivered_trans; [apply log_delivered | apply IH].
Qed.

Lemma run_listener_delivered n d l x :
  bus_below n x -> below n (listener_promise l) = true ->
  delivered n x (run_listener (MData d) x l).
Proof.
  intros Hb Hl. destruct l; simpl; try apply delivered_refl.
  - destruct d; try apply delivered_refl. apply onTick_delivered.
  - now apply emit_delivered.
  - now apply call_delivered.
  - eapply delivered_trans; [apply upd_socket_delivered | now apply call_delivered].
Qed.

Lemma listeners_delivered n d (ls : list SockListener) : forall x,
  bus_below n x ->
  forallb (fun l => below n (listener_promise l)) ls = true ->
  delivered n x (fold_left (run_listener (MData d)) ls x).
Proof.
  induction ls as [|l ls IH]; intros x Hb Hls; simpl; [apply delivered_refl|].
  simpl in Hls. apply andb_prop in Hls. destruct Hls as [Hl Hls].
  pose proof (run_listener_delivered n d l x Hb Hl) as H1.
  eapply delivered_trans; [exact H1|].
  apply IH; [|exact Hls]. exact (bus_below_delivered n x _ Hb H1).
Qed.

(** *** Coalescing *)

Lemma cache_calls_hit (m : nat) symbol timeframe count p : forall w,
  map_get String.eqb (cacheKey symbol timeframe count) (candlesPromises w) = Some p ->
  cache_calls m symbol timeframe count w = (repeat (Awaiting p) m, w).
Proof.
  induction m as [|m IH]; intros w H; simpl; [reflexivity|].
  unfold getCandlesWithCache. cbv zeta. rewrite H. now rewrite (IH w H).
Qed.

Lemma map_get_In {K V : Type} (eqb : K -> K -> bool) (k : K) (m : list (K * V)) v :
  map_get eqb k m = Some v -> exists k', In (k', v) m.
Proof.
  induction m as [|[k0 v0] m IH]; simpl; [discriminate|].
  destruct (eqb k k0).
  - intros H. inversion H; subst. eauto.
  - intros H. destruct (IH H) as [k' Hk]. eauto.
Qed.

Lemma handles_allocated_spec w :
  handles_allocated w = true ->
  bus_below (length (promises w)) w /\
  (forall s ev, socket (client w) = Some s ->
     forallb (fun l => below (length (promises w)) (listener_promise l))
       (listeners_for ev s) = true) /\
  (forall r, In r (reactions w) ->
     fst (fst r) < length (promises w) /\ snd r < length (promises w)).
Proof.
  unfold handles_allocated. cbv zeta. intros H.
  apply andb_prop in H. destruct H as [H H3].
  apply andb_prop in H. destruct H as [H1 H2].
  split; [|split].
  - intros e g Hg. unfold listeners_of in Hg.
    destruct (map_get EventName_eqb e (eventListeners (client w))) as [l|] eqn:E;
      [|destruct Hg].
    destruct (map_get_In _ _ _ _ E) as [k' Hk].
    rewrite forallb_forall in H2. specialize (H2 _ Hk). cbn in H2.
    rewrite forallb_forall in H2. auto.
  - intros s ev Hs. rewrite Hs in H1. unfold listeners_for.
    rewrite forallb_forall in *. intros l Hl.
    apply in_map_iff in Hl. destruct Hl as ([e l'] & <- & Hl).
    apply filter_In in Hl. destruct Hl as [Hl _]. exact (H1 _ Hl).
  - intros r Hr. rewrite forallb_forall in H3. specialize (H3 _ Hr).
    apply andb_prop in H3. destruct H3 as [A B].
    apply Nat.ltb_lt in A, B. auto.
Qed.

Lemma settle_nth_other q o k w :
  q <> k -> nth_error (promises (settle q o w)) k = nth_error (promises w) k.
Proof.
  intros H. unfold settle. destruct (is_pending q w); [|reflexivity].
  cbn. now apply list_set_nth_other.
Qed.

Lemma react_nth_other w r k :
  snd r <> k -> nth_error (promises (react w r)) k = nth_error (promises w) k.
Proof.
  destruct r as [[q key] p]. cbn [snd]. intros H. unfold react.
  destruct (promise_state q w) as [[v|e]|]; try reflexivity.
  - destruct v; try reflexivity. unfold setTimeout, resolve.
    cbv beta iota zeta. now rewrite settle_nth_other.
  - unfold reject. now rewrite settle_nth_other.
Qed.

Lemma fold_react_nth_other (rs : list (nat * string * nat)) k : forall w,
  (forall r, In r rs -> snd r <> k) ->
  nth_error (promises (fold_left react rs w)) k = nth_error (promises w) k.
Proof.
  induction rs as [|r rs IH]; intros w H; simpl; [reflexivity|].
  rewrite IH by (intros; apply H; now right).
  apply react_nth_other. apply H. now left.
Qed.

Lemma react_resolved w q key p candles :
  promise_state q w = Some (Resolved (VCandles candles)) ->
  is_pending p w = true ->
  promise_state p (react w (q, key, p)) = Some (Resolved (VCandles candles)) /\
  map_get String.eqb key (candlesCache (react w (q, key, p))) = Some candles.
Proof.
  intros Hq Hp. unfold react. rewrite Hq. unfold setTimeout, resolve.
  cbv beta iota zeta. split.
  - apply settle_pending. exact Hp.
  - unfold settle. destruct (is_pending _ _); cbn;
      apply (map_get_set_same String.eqb String.eqb_eq).
Qed.

Lemma react_rejected w q key p message :
  promise_state q w = Some (Rejected message) ->
  is_pending p w = true ->
  map_get String.eqb key (map_delete String.eqb key (candlesPromises w)) = None ->
  let w' := react w (q, key, p) in
  promise_state p w' = Some (Rejected message) /\
  map_get String.eqb key (candlesPromises w') = None /\
  candlesCache w' = candlesCache w /\
  trace w' = trace w /\ connected w' = connected w.
Proof.
  intros Hq Hp Hu. unfold react. rewrite Hq. unfold reject. cbv zeta. split.
  - apply settle_pending. exact Hp.
  - unfold settle. destruct (is_pending _ _); cbn; auto.
Qed.

Lemma listeners_for_sock_on ev l s :
  listeners_for ev (sock_on ev l s) = (listeners_for ev s ++ [l])%list.
Proof.
  unfold listeners_for, sock_on. cbn. rewrite filter_app, map_app. cbn.
  destruct (SockEvent_eqb ev ev) eqn:E; [reflexivity|].
  assert (SockEvent_eqb ev ev = true) by now apply SockEvent_eqb_eq. congruence.
Qed.

(** The first call of a request that is neither in flight nor cached. *)
Lemma cache_miss symbol timeframe count w :
  connected w = true ->
  map_get String.eqb (cacheKey symbol timeframe count) (candlesPromises w) = None ->
  map_get String.eqb (cacheKey symbol timeframe count) (candlesCache w) = None ->
  exists w1,
    getCandlesWithCache symbol timeframe count w
      = (Awaiting (S (length (promises w))), w1) /\
    trace w1 = (trace w ++ [Sent (OGetCandles symbol timeframe count)])%list /\
    candlesPromises w1 =
      map_set String.eqb (cacheKey symbol timeframe count) (S (length (promises w)))
        (candlesPromises w) /\
    candlesCache w1 = candlesCache w /\
    reactions w1 =
      (reactions w ++
       [(length (promises w), cacheKey symbol timeframe count,
         S (length (promises w)))])%list /\
    promises w1 = (promises w ++ [None; None])%list /\
    eventListeners (client w1) = eventListeners (client w) /\
    socket (client w1) =
      option_map
        (sock_on (data_sev candles_ev)
           (LPlain (CbCandles (length (promises w)) (length (timers w))
                      symbol timeframe)))
        (socket (client w)).
Proof.
  intros Hc Hp Hk. eexists. unfold getCandlesWithCache. cbv zeta.
  rewrite Hp, Hk. unfold getCandles, new_promise, setTimeout.
  cbv beta iota zeta.
  replace (connected (set_promises (promises w ++ [None]) w)) with (connected w)
    by reflexivity.
  rewrite Hc. cbv beta iota zeta. cbn [promises set_promises].
  split.
  - replace (length (promises
               (send (OGetCandles symbol timeframe count)
                  (upd_socket
                     (sock_on (data_sev candles_ev)
                        (LPlain (CbCandles (length (promises w))
                                   (length (timers (set_promises (promises w ++ [None]) w)))
                                   symbol timeframe)))
                     (set_timers
                        (timers (set_promises (promises w ++ [None]) w) ++
                         [{| action :=
                               TCandlesTimeout (length (promises w))
                                 (CbCandles (length (promises w))
                                    (length (timers (set_promises (promises w ++ [None]) w)))
                                    symbol timeframe);
                             delay := 10000 # 1; armed := true |}])
                        (set_promises (promises w ++ [None]) w))))))
      with (S (length (promises w))).
    + reflexivity.
    + cbn. rewrite length_app. simpl. lia.
  - cbn. rewrite <- app_assoc. repeat split; reflexivity.
Qed.

Lemma clearTimeout_promises t w : promises (clearTimeout t w) = promises w.
Proof. unfold clearTimeout. destruct (nth_error _ _); reflexivity. Qed.

Lemma settle_hook q o w :
  reactions (settle q o w) = reactions w /\
  candlesCache (settle q o w) = candlesCache w /\
  candlesPromises (settle q o w) = candlesPromises w.
Proof. unfold settle. destruct (is_pending q w); auto. Qed.

(** The handler of [getCandles] called with the response it waits for. *)
Lemma candles_handler_resolves q t symbol timeframe candles x :
  is_pending q x = true ->
  let y := call (CbCandles q t symbol timeframe)
             (DCandles symbol timeframe (Some candles)) x in
  promise_state q y = Some (Resolved (VCandles candles)) /\
  reactions y = reactions x /\
  (forall k, k <> q -> nth_error (promises y) k = nth_error (promises x) k).
Proof.
  intros Hp. cbn [call]. rewrite !String.eqb_refl. cbn [andb]. unfold resolve.
  split; [|split].
  - apply settle_pending. unfold is_pending in *. cbn [promises upd_socket upd_client].
    now rewrite clearTimeout_promises.
  - match goal with |- context [settle ?a ?b ?c] =>
      destruct (settle_hook a b c) as (-> & _ & _)
    end.
    cbn. unfold clearTimeout. destruct (nth_error _ _); reflexivity.
  - intros k Hk. rewrite settle_nth_other by auto.
    cbn [promises upd_socket upd_client]. now rewrite clearTimeout_promises.
Qed.

(* ================================================================== *)
(** ** A listener added while connected *)

Lemma kept_refl cb x : kept cb x x.
Proof. constructor; auto. Qed.

Lemma kept_trans cb x y z : kept cb x y -> kept cb y z -> kept cb x z.
Proof.
  intros [] []. constructor; try congruence;
    intros e; now rewrite kept_bus1, kept_bus0.
Qed.

Lemma kept_same cb x y :
  trace y = trace x -> client y = client x -> kept cb x y.
Proof. intros H1 H2. constructor; now rewrite ?H1, ?H2. Qed.

Lemma count_invoked_log cb e x :
  count_invoked cb (trace (log e x)) =
  count_invoked cb (trace x) + (if is_call_of cb e then 1 else 0).
Proof.
  unfold count_invoked. cbn. rewrite filter_app, length_app. cbn.
  destruct (is_call_of cb e); reflexivity.
Qed.

Lemma log_kept cb e x : is_call_of cb e = false -> kept cb x (log e x).
Proof.
  intros H. constructor; try reflexivity.
  rewrite count_invoked_log, H. lia.
Qed.

Lemma clearTimeout_kept cb t x : kept cb x (clearTimeout t x).
Proof.
  apply kept_same; [apply clearTimeout_trace | apply clearTimeout_client].
Qed.

Lemma settle_kept cb q o x : kept cb x (settle q o x).
Proof.
  apply kept_same; [apply settle_trace|].
  unfold settle. destruct (is_pending q x); reflexivity.
Qed.

Lemma remove_first_reaches cb ev p hs :
  (forall l, p l = true -> reaches cb l = false) ->
  filter (fun x => reaches cb (snd x)) (remove_first ev p hs) =
  filter (fun x => reaches cb (snd x)) hs.
Proof.
  intros Hp. induction hs as [|[e l] hs IH]; simpl; auto.
  destruct (SockEvent_eqb ev e && p l) eqn:E; simpl.
  - apply andb_prop in E. destruct E as [_ E]. now rewrite (Hp _ E).
  - now rewrite IH.
Qed.

Lemma sock_off_kept cb ev p x :
  (forall l, p l = true -> reaches cb l = false) ->
  (forall l, p l = true -> is_builtin l = false) ->
  kept cb x (upd_socket (sock_off ev p) x).
Proof.
  intros H1 H2. constructor; try reflexivity; cbn;
    destruct (socket (client x)); cbn; auto; f_equal.
  - now apply remove_first_reaches.
  - unfold builtin_only, sock_off. cbn. now rewrite remove_first_builtin.
Qed.

Lemma listener_is_reaches cb f l :
  wraps cb f = false -> listener_is f l = true -> reaches cb l = false.
Proof.
  intros Hf. destruct l; simpl; try discriminate;
    intros H; apply Callback_eqb_eq in H; now subst.
Qed.

Lemma wrapper_is_reaches cb f l :
  wraps cb f = false -> wrapper_is f l = true -> reaches cb l = false.
Proof.
  intros Hf. destruct l; simpl; try discriminate;
    intros H; apply Callback_eqb_eq in H; now subst.
Qed.

Lemma set_delete_wraps cb f (l : list Callback) :
  wraps cb f = false ->
  filter (wraps cb) (set_delete Callback_eqb f l) = filter (wraps cb) l.
Proof.
  intros Hf. induction l as [|a l IH]; simpl; auto.
  destruct (Callback_eqb f a) eqn:E; simpl.
  - apply Callback_eqb_eq in E. subst a. now rewrite Hf.
  - now rewrite IH.
Qed.

Lemma off_kept cb e f x : wraps cb f = false -> kept cb x (off e (Some f) x).
Proof.
  intros Hf. unfold off. cbv zeta.
  eapply kept_trans;
    [|apply sock_off_kept;
      [intros l; apply listener_is_reaches; exact Hf
      |apply listener_is_not_builtin]].
  destruct (map_get EventName_eqb e (eventListeners (client x))) as [l|] eqn:E;
    [|apply kept_refl].
  constructor; try reflexivity.
  intros e'. unfold listeners_of. cbn.
  destruct (EventName_eq_dec e e') as [<-|Hn].
  - rewrite (map_get_set_same EventName_eqb EventName_eqb_eq), E.
    now apply set_delete_wraps.
  - now rewrite (map_get_set_other EventName_eqb EventName_eqb_eq).
Qed.

Lemma wraps_self_false cb f : wraps cb f = false -> Callback_eqb f cb = false.
Proof. destruct f; simpl; intros H; apply orb_false_iff in H; tauto. Qed.

(** Calling a listener that does not call [cb]. *)
Lemma foreign_call_kept cb f d : forall x,
  wraps cb f = false -> kept cb x (call f d x).
Proof.
  induction f; intros x Hf; cbn [call];
    pose proof (wraps_self_false _ _ Hf) as Hself.
  - now apply log_kept.
  - cbn [wraps] in Hf. apply orb_false_iff in Hf. destruct Hf as [_ Hg].
    eapply kept_trans; [|apply IHf; exact Hg].
    eapply kept_trans;
      [|apply off_kept; cbn [wraps]; now rewrite Hself, Hg].
    apply log_kept; exact Hself.
  - destruct d; try (apply log_kept; exact Hself).
    eapply kept_trans; [|apply settle_kept].
    eapply kept_trans; [|apply off_kept; exact Hf].
    eapply kept_trans; [|apply clearTimeout_kept].
    apply log_kept; exact Hself.
  - destruct d; try (apply log_kept; exact Hself).
    destruct (_ && _); [|apply log_kept; exact Hself].
    eapply kept_trans; [|apply settle_kept].
    eapply kept_trans;
      [|apply sock_off_kept;
        [intros l; apply listener_is_reaches; exact Hf
        |apply listener_is_not_builtin]].
    eapply kept_trans; [|apply clearTimeout_kept].
    apply log_kept; exact Hself.
  - destruct d; try (apply log_kept; exact Hself).
    destruct (String.eqb _ _); [|apply log_kept; exact Hself].
    eapply kept_trans; [|apply settle_kept].
    eapply kept_trans; [|apply off_kept; exact Hf].
    eapply kept_trans; [|apply clearTimeout_kept].
    apply log_kept; exact Hself.
  - destruct d; try (apply log_kept; exact Hself).
    eapply kept_trans; [|apply settle_kept].
    eapply kept_trans; [|apply off_kept; exact Hf].
    eapply kept_trans; [|apply clearTimeout_kept].
    apply log_kept; exact Hself.
Qed.

Lemma kept_called cb x y : kept cb x y -> called cb 0 x y.
Proof. intros []. constructor; auto. lia. Qed.

Lemma called_refl cb x : called cb 0 x x.
Proof. apply kept_called, kept_refl. Qed.

Lemma called_trans cb n m x y z :
  called cb n x y -> called cb m y z -> called cb (n + m) x z.
Proof.
  intros [] []. constructor; try congruence;
    first [ lia | intros e; now rewrite called_bus1, called_bus0 ].
Qed.

Lemma user_call_called id d x : called (CbUser id) 1 x (call (CbUser id) d x).
Proof.
  cbn [call]. constructor; try reflexivity.
  rewrite count_invoked_log. cbn.
  unfold Callback_eqb. destruct (Callback_eq_dec _ _); [reflexivity | congruence].
Qed.

Lemma wraps_filter_unique cb (l : list Callback) f :
  filter (wraps cb) l = [cb] -> In f l -> wraps cb f = true -> f = cb.
Proof.
  intros H Hin Hw.
  assert (In f (filter (wraps cb) l)) as Hf by (apply filter_In; auto).
  rewrite H in Hf. destruct Hf as [Hf|[]]. auto.
Qed.

(** The event bus calls a registered user callback once per event. *)
Lemma emit_called id d x :
  filter (wraps (CbUser id)) (listeners_of (event_name d) (client x)) = [CbUser id] ->
  called (CbUser id) 1 x (emit d x).
Proof.
  intros Hreg. unfold emit. cbv zeta.
  set (cb := CbUser id) in *.
  assert (forall l y,
            (forall f, In f l -> wraps cb f = true -> f = cb) ->
            filter (wraps cb) (listeners_of (event_name d) (client y)) = [cb] ->
            called cb (length (filter (wraps cb) l)) y
              (fold_left
                 (fun w' f =>
                    if set_has Callback_eqb f (listeners_of (event_name d) (client w'))
                    then call f d w' else w') l y)) as Hfold.
  { induction l as [|f l IH]; intros y Hl Hy; [apply called_refl|].
    cbn [fold_left filter].
    assert (forall f0, In f0 l -> wraps cb f0 = true -> f0 = cb) as Hl'
      by (intros; apply Hl; [now right | assumption]).
    destruct (wraps cb f) eqn:Hw.
    - assert (f = cb) as -> by (apply Hl; [now left | assumption]).
      assert (set_has Callback_eqb cb (listeners_of (event_name d) (client y)) = true)
        as Hmem.
      { apply (set_has_In Callback_eqb Callback_eqb_eq).
        assert (In cb (filter (wraps cb) (listeners_of (event_name d) (client y))))
          as Hin by (rewrite Hy; now left).
        apply filter_In in Hin. tauto. }
      rewrite Hmem. cbn [length].
      change (S (length (filter (wraps cb) l)))
        with (1 + length (filter (wraps cb) l)).
      eapply called_trans; [apply user_call_called|].
      apply IH; [exact Hl'|]. exact Hy.
    - destruct (set_has Callback_eqb f (listeners_of (event_name d) (client y)));
        [|now apply IH].
      pose proof (foreign_call_kept cb f d y Hw) as Hk.
      change (length (filter (wraps cb) l))
        with (0 + length (filter (wraps cb) l)).
      eapply called_trans; [apply kept_called; exact Hk|].
      apply IH; [exact Hl'|]. rewrite (kept_bus _ _ _ Hk). exact Hy. }
  specialize (Hfold (listeners_of (event_name d) (client (log (Emitted d) x)))
                (log (Emitted d) x)).
  change (listeners_of (event_name d) (client (log (Emitted d) x)))
    with (listeners_of (event_name d) (client x)) in Hfold.
  rewrite Hreg in Hfold. cbn [length] in Hfold.
  change 1 with (0 + 1).
  apply (called_trans cb 0 1 x (log (Emitted d) x)).
  - apply kept_called, log_kept. reflexivity.
  - apply Hfold; [|reflexivity].
    intros f Hin Hw. exact (wraps_filter_unique cb _ f Hreg Hin Hw).
Qed.

Lemma onTick_kept cb symbol tick x : kept cb x (onTick symbol tick x).
Proof.
  unfold onTick. destruct (map_get _ _ _) as [l|]; [|apply kept_refl].
  revert x. induction l as [|c l IH]; intros x; simpl; [apply kept_refl|].
  apply (kept_trans cb x (log (TickCall c tick) x)); [|apply IH].
  apply log_kept. reflexivity.
Qed.

Lemma run_listener_called id d l x :
  filter (wraps (CbUser id)) (listeners_of (event_name d) (client x)) = [CbUser id] ->
  (reaches (CbUser id) l = true -> l = LPlain (CbUser id)) ->
  called (CbUser id) (contribution (CbUser id) l) x (run_listener (MData d) x l).
Proof.
  intros Hreg Hl. unfold contribution.
  destruct l; cbn [run_listener is_forward reaches]; try apply called_refl.
  - destruct d; try apply called_refl. apply kept_called, onTick_kept.
  - now apply emit_called.
  - destruct (wraps (CbUser id) f) eqn:Hw.
    + specialize (Hl Hw). inversion Hl; subst f. apply user_call_called.
    + now apply kept_called, foreign_call_kept.
  - destruct (wraps (CbUser id) f) eqn:Hw.
    + specialize (Hl Hw). discriminate.
    + change (0 + 0) with 0.
      apply kept_called. eapply kept_trans.
      * apply sock_off_kept.
        -- intros l. apply wrapper_is_reaches. exact Hw.
        -- apply wrapper_is_not_builtin.
      * now apply foreign_call_kept.
Qed.

Lemma listeners_called id d (ls : list SockListener) : forall x,
  filter (wraps (CbUser id)) (listeners_of (event_name d) (client x)) = [CbUser id] ->
  (forall l, In l ls -> reaches (CbUser id) l = true -> l = LPlain (CbUser id)) ->
  called (CbUser id)
    (length (filter is_forward ls) + length (filter (reaches (CbUser id)) ls))
    x (fold_left (run_listener (MData d)) ls x).
Proof.
  induction ls as [|l ls IH]; intros x Hreg Hls; [apply called_refl|].
  cbn [fold_left].
  pose proof (run_listener_called id d l x Hreg (Hls l (or_introl eq_refl))) as H1.
  assert (called (CbUser id)
            (length (filter is_forward ls) + length (filter (reaches (CbUser id)) ls))
            (run_listener (MData d) x l)
            (fold_left (run_listener (MData d)) ls (run_listener (MData d) x l)))
    as H2.
  { apply IH.
    - rewrite (called_bus _ _ _ _ H1). exact Hreg.
    - intros l' Hin. apply Hls. now right. }
  pose proof (called_trans _ _ _ _ _ _ H1 H2) as H3.
  replace (length (filter is_forward (l :: ls))
           + length (filter (reaches (CbUser id)) (l :: ls)))
    with (contribution (CbUser id) l
          + (length (filter is_forward ls)
             + length (filter (reaches (CbUser id)) ls))); [exact H3|].
  unfold contribution. cbn [filter].
  destruct (is_forward l), (reaches (CbUser id) l); cbn [length]; lia.
Qed.

Lemma filter_listeners_for (p : SockListener -> bool) ev s :
  filter p (listeners_for ev s) =
  listeners_for ev {| handlers := filter (fun x => p (snd x)) (handlers s) |}.
Proof.
  unfold listeners_for. cbn. induction (handlers s) as [|[e l] hs IH]; simpl; auto.
  destruct (SockEvent_eqb ev e) eqn:E, (p l) eqn:P; simpl;
    rewrite ?E, ?P; simpl; rewrite ?P, IH; reflexivity.
Qed.

Lemma forwards_of_builtin ev s :
  filter is_forward (listeners_for ev s) =
  filter is_forward (listeners_for ev (builtin_only s)).
Proof.
  unfold builtin_only. rewrite <- filter_listeners_for.
  induction (listeners_for ev s) as [|l ls IH]; simpl; auto.
  destruct l; simpl; rewrite ?IH; reflexivity.
Qed.

Lemma standard_forwards (event : EventName) :
  length (filter is_forward
            (listeners_for (data_sev event)
               (setupSocketListeners {| handlers := [] |})))
  = if EventName_eqb event tick_ev then 0 else 1.
Proof. destruct event; reflexivity. Qed.

(** One data event delivered to a client on which a user callback is
    registered twice. *)
Lemma deliver_registered id d x :
  registered_twice (CbUser id) (event_name d) x ->
  called (CbUser id) (if EventName_eqb (event_name d) tick_ev then 1 else 2)
    x (deliver (MData d) x) /\
  registered_twice (CbUser id) (event_name d) (deliver (MData d) x).
Proof.
  intros (Hbus & s & Hs & Hb & Hr).
  assert (called (CbUser id)
            (if EventName_eqb (event_name d) tick_ev then 1 else 2)
            x (deliver (MData d) x)) as Hc.
  { unfold deliver. rewrite Hs. cbn [sock_event].
    pose proof (listeners_called id d (listeners_for (data_sev (event_name d)) s) x Hbus)
      as H.
    rewrite Hr, forwards_of_builtin, Hb, standard_forwards in H. cbn [length] in H.
    destruct (EventName_eqb (event_name d) tick_ev); cbn in H; apply H;
      intros l Hin Hl;
      (assert (In l (filter (reaches (CbUser id))
                       (listeners_for (data_sev (event_name d)) s))) as Hf
         by (apply filter_In; auto));
      rewrite Hr in Hf; destruct Hf as [Hf|[]]; auto. }
  split; [exact Hc|].
  destruct Hc as [_ Cb Cs Cbi]. split.
  - rewrite Cb. exact Hbus.
  - rewrite Hs in Cs, Cbi.
    destruct (socket (client (deliver (MData d) x))) as [s'|]; [|discriminate].
    cbn in Cs, Cbi. exists s'. split; [reflexivity|]. split.
    + congruence.
    + rewrite filter_listeners_for. inversion Cs as [Cs'].
      rewrite Cs', <- filter_listeners_for. exact Hr.
Qed.

Lemma forallb_filter_nil {A : Type} (p : A -> bool) (l : list A) :
  forallb (fun x => negb (p x)) l = true -> filter p l = [].
Proof.
  induction l as [|a l IH]; simpl; auto.
  intros H. apply andb_prop in H. destruct H as [Ha Hl].
  destruct (p a); [discriminate | auto].
Qed.

Lemma set_add_new (cb : Callback) (l : list Callback) :
  filter (wraps cb) l = [] -> set_add Callback_eqb cb l = (l ++ [cb])%list.
Proof.
  intros H. unfold set_add.
  destruct (set_has Callback_eqb cb l) eqn:E; [|reflexivity].
  apply (set_has_In Callback_eqb Callback_eqb_eq) in E.
  assert (In cb (filter (wraps cb) l)) as Hin.
  { apply filter_In. split; auto. destruct cb; cbn;
      unfold Callback_eqb; destruct (Callback_eq_dec _ _); try reflexivity;
      congruence. }
  rewrite H in Hin. destruct Hin.
Qed.

Lemma wraps_refl cb : wraps cb cb = true.
Proof.
  destruct cb; cbn; unfold Callback_eqb;
    destruct (Callback_eq_dec _ _); try reflexivity; congruence.
Qed.

(** [on] while connected registers a new user callback twice. *)
Lemma on_registers_twice event id w s :
  connected w = true ->
  socket (client w) = Some s ->
  builtin_only s = setupSocketListeners {| handlers := [] |} ->
  unknown (CbUser id) w = true ->
  registered_twice (CbUser id) event (on event (CbUser id) w) /\
  trace (on event (CbUser id) w) = trace w.
Proof.
  intros Hc Hs Hb Hu. unfold unknown in Hu. rewrite Hs in Hu.
  apply andb_prop in Hu. destruct Hu as [Hbus Hsock].
  assert (filter (wraps (CbUser id)) (listeners_of event (client w)) = []) as Hl.
  { unfold listeners_of.
    destruct (map_get EventName_eqb event (eventListeners (client w))) as [l|] eqn:E;
      [|reflexivity].
    destruct (map_get_In _ _ _ _ E) as [k' Hk].
    rewrite forallb_forall in Hbus. specialize (Hbus _ Hk). cbn in Hbus.
    now apply forallb_filter_nil. }
  unfold on. cbv zeta.
  replace (connected _) with (connected w) by reflexivity.
  rewrite Hc. split; [|reflexivity].
  unfold registered_twice. split.
  - unfold listeners_of at 1. cbn.
    rewrite (map_get_set_same EventName_eqb EventName_eqb_eq).
    rewrite (set_add_new _ _ Hl), filter_app, Hl. cbn [filter app].
    now rewrite wraps_refl.
  - cbn. rewrite Hs. cbn. eexists. split; [reflexivity|]. split.
    + unfold builtin_only, sock_on in *. cbn. rewrite filter_app. cbn.
      rewrite app_nil_r. exact Hb.
    + rewrite listeners_for_sock_on, filter_app. cbn [filter reaches].
      rewrite wraps_refl.
      rewrite filter_listeners_for.
      rewrite (forallb_filter_nil _ _ Hsock). reflexivity.
Qed.

(** C9 (as corrected).  [on(event, cb)] is called while the client is
    connected, for a callback not registered before; the socket has the
    listeners of [setupSocketListeners] besides those added by [on], [once]
    and [getCandles].  Then every inbound event of that name calls [cb]
    twice, once from the socket and once through the event bus, except
    for [tick], which is not forwarded to the event bus: a [tick] calls
    [cb] once. *)
Theorem listener_added_while_connected
    (event : EventName) (id : nat) (ds : list EventData) (w : World) (s : Socket)
    (Hconn : connected w = true)
    (Hsock : socket (client w) = Some s)
    (Hstd : builtin_only s = setupSocketListeners {| handlers := [] |})
    (Hnew : unknown (CbUser id) w = true)
    (Hname : forall d, In d ds -> event_name d = event) :
  let w1 := on event (CbUser id) w in
  let w2 := fold_left (fun x d => deliver (MData d) x) ds w1 in
  In (CbUser id) (listeners_of event (client w1)) /\
  (exists s1, socket (client w1) = Some s1 /\
              In (data_sev event, LPlain (CbUser id)) (handlers s1)) /\
  count_invoked (CbUser id) (trace w2) =
    count_invoked (CbUser id) (trace w)
    + (if EventName_eqb event tick_ev then 1 else 2) * length ds.
Proof.
  destruct (on_registers_twice event id w s Hconn Hsock Hstd Hnew) as (Hreg & Htr).
  cbv zeta. split; [|split].
  - destruct Hreg as (Hbus & _).
    assert (In (CbUser id)
              (filter (wraps (CbUser id))
                 (listeners_of event (client (on event (CbUser id) w))))) as Hin
      by (rewrite Hbus; now left).
    apply filter_In in Hin. tauto.
  - unfold on. cbv zeta.
    replace (connected _) with (connected w) by reflexivity.
    rewrite Hconn. cbn. rewrite Hsock. cbn. eexists. split; [reflexivity|].
    cbn. apply in_or_app. right. now left.
  - rewrite <- Htr.
    remember (on event (CbUser id) w) as w1 eqn:E. clear E Htr.
    revert w1 Hreg. induction ds as [|d ds IH]; intros w1 Hreg.
    + cbn. lia.
    + cbn [fold_left length].
      assert (event_name d = event) as Hd by (apply Hname; now left).
      rewrite <- Hd in Hreg.
      destruct (deliver_registered id d w1 Hreg) as (Hc & Hreg').
      rewrite Hd in Hreg', Hc.
      rewrite IH; [|intros; apply Hname; now right|exact Hreg'].
      rewrite (called_count _ _ _ _ Hc). lia.
Qed.

Lemma listener_added_while_connected_witness :
  let ds := [DHealth "HEALTHY"; DHealth "DEGRADED"] in
  let w1 := on health_ev (CbUser 7) online in
  let w2 := fold_left (fun x d => deliver (MData d) x) ds w1 in
  In (CbUser 7) (listeners_of health_ev (client w1)) /\
  (exists s1, socket (client w1) = Some s1 /\
              In (data_sev health_ev, LPlain (CbUser 7)) (handlers s1)) /\
  count_invoked (CbUser 7) (trace w2) =
    count_invoked (CbUser 7) (trace online)
    + (if EventName_eqb health_ev tick_ev then 1 else 2) * length ds.
Proof.
  apply (listener_added_while_connected health_ev 7
           [DHealth "HEALTHY"; DHealth "DEGRADED"] online
           (setupSocketListeners {| handlers := [] |})).
  - vm_compute. reflexivity.
  - vm_compute. reflexivity.
  - vm_compute. reflexivity.
  - vm_compute. reflexivity.
  - intros d [<-|[<-|[]]]; reflexivity.
Defined.

(** C9, the claim as stated fails: a callback added with [on('tick',
    cb)] while connected is on the socket and in the listener set, but a
    [tick] is not forwarded to the listener set, and [cb] is called
    once. *)
Lemma tick_listener_called_once :
  let tick := {| tick_symbol := "EURUSD"; bid := 1 # 1; ask := 1 # 1;
                 last := 1 # 1; tick_volume := 1 # 1; tick_time := "";
                 tick_spread := 0 # 1; change := 0 # 1; changePercent := 0 # 1 |} in
  let w1 := on tick_ev (CbUser 7) online in
  let w2 := deliver (MData (DTick "EURUSD" tick)) w1 in
  connected online = true /\
  In (CbUser 7) (listeners_of tick_ev (client w1)) /\
  count_invoked (CbUser 7) (trace w2) = count_invoked (CbUser 7) (trace w1) + 1.
Proof.
  cbv zeta. split; [vm_compute; reflexivity|]. split.
  - vm_compute. now left.
  - vm_compute. reflexivity.
Qed.

(* ================================================================== *)
(** * Further properties of the client *)

(** ** [connect()] *)

(** X1.  [connect()] is idempotent: on a connected client it answers
    [true] and changes nothing, and a second call made while the first
    attempt is in progress returns the promise of the first and opens no
    second socket. *)
Theorem connect_coalesces (w : World) :
  (isConnected (client w) = true -> connect w = (Now true, w)) /\
  connect (snd (connect w)) = connect w /\
  (isConnected (client w) = false ->
   exists p, fst (connect w) = Later p /\
             connectionPromise (client (snd (connect w))) = Some p /\
             isConnecting (client (snd (connect w))) = true).
Proof.
  split; [|split].
  - intros H. unfold connect. now rewrite H.
  - unfold connect at 2 3.
    destruct (isConnected (client w)) eqn:Hc.
    + cbn [snd]. unfold connect. now rewrite Hc.
    + destruct (isConnecting (client w)) eqn:Hg;
        destruct (connectionPromise (client w)) eqn:Hp;
        unfold new_promise; cbv beta iota zeta; cbn [snd];
        unfold connect; cbn; rewrite ?Hc, ?Hg, ?Hp; reflexivity.
  - intros Hc. unfold connect. rewrite Hc.
    destruct (isConnecting (client w)) eqn:Hg;
      destruct (connectionPromise (client w)) eqn:Hp;
      unfold new_promise; cbv beta iota zeta; cbn [fst snd].
    2-4: eexists; split; [reflexivity|]; split; reflexivity.
    exists n. split; [reflexivity|]. split; [exact Hp|exact Hg].
Qed.

Lemma connect_coalesces_witness :
  exists p, fst (connect initial) = Later p /\
            connectionPromise (client (snd (connect initial))) = Some p /\
            isConnecting (client (snd (connect initial))) = true.
Proof.
  apply (proj2 (proj2 (connect_coalesces initial))).
  vm_compute; reflexivity.
Defined.

(** ** The handshake *)

Lemma clearTimers_promises w : promises (clearTimers w) = promises w.
Proof.
  unfold clearTimers. cbv zeta.
  destruct (reconnectTimer (client w)); cbn;
    match goal with
    | |- context [pingInterval ?c] => destruct (pingInterval c)
    end; cbn; rewrite ?clearTimeout_promises; cbn; rewrite ?clearTimeout_promises;
    reflexivity.
Qed.

Lemma startPingInterval_timers w :
  timers (startPingInterval w) =
  (timers (clearTimers w)
   ++ [{| action := TPing; delay := 30000 # 1; armed := true |}])%list.
Proof. reflexivity. Qed.

Lemma startPingInterval_promises w : promises (startPingInterval w) = promises w.
Proof.
  unfold startPingInterval, setTimeout. cbv zeta. cbn. apply clearTimers_promises.
Qed.

Lemma startPingInterval_armed w :
  timer_pending (length (timers w)) (startPingInterval w) = Some (TPing, 30000 # 1).
Proof.
  unfold timer_pending. rewrite startPingInterval_timers.
  rewrite <- (clearTimers_length w). now rewrite nth_error_last.
Qed.

(** The state the ['connect'] listener leaves. *)
Lemma onConnect_state w :
  socket (client w) <> None ->
  let w' := onConnect w in
  connected w' = true /\
  isConnecting (client w') = false /\
  reconnectAttempts (client w') = 0 /\
  pendingSubscriptions (client w') = [] /\
  reconnectTimer (client w') = None /\
  pingInterval (client w') = Some (length (timers w)) /\
  timer_pending (length (timers w)) w' = Some (TPing, 30000 # 1) /\
  connectionResolve (client w') = None /\
  subscribers (client w') = subscribers (client w) /\
  (forall p, connectionResolve (client w) = Some p -> is_pending p w = true ->
             promise_state p w' = Some (Resolved (VBool true))).
Proof.
  intros Hs. unfold onConnect. cbv zeta.
  set (w1 := upd_client _ w).
  assert (connected (startPingInterval w1) = true) as Hc.
  { unfold connected. rewrite startPingInterval_client. cbn.
    destruct (socket (client w)); [reflexivity | contradiction]. }
  rewrite (fold_sendSubscribe _ _ Hc).
  pose proof (startPingInterval_armed w1) as Ha.
  pose proof (startPingInterval_promises w1) as Hp.
  pose proof (startPingInterval_client w1) as Hcl.
  remember (startPingInterval w1) as w2 eqn:E2. clear E2.
  match goal with |- context [emit ?d ?x] =>
    pose proof (emit_quiet d x eq_refl) as Hq;
    remember (emit d x) as w5 eqn:E; clear E
  end.
  assert (connected w5 = true) as Hc5.
  { rewrite (quiet_connected _ _ Hq). exact Hc. }
  destruct Hq. cbn in *. rewrite Hcl in *. cbn in *.
  assert (timer_pending (length (timers w)) w5 = Some (TPing, 30000 # 1)) as Ha5.
  { unfold timer_pending in *. now rewrite quiet_timers0. }
  assert (forall o x, connected x = true ->
            connected (upd_client (set_connectionResolve o) x) = true) as Hu.
  { intros o x. unfold connected. cbn. auto. }
  destruct (connectionResolve (client w5)) as [p|] eqn:Hr; cbn.
  - unfold resolve. rewrite settle_client.
    repeat split; try assumption.
    + apply Hu. unfold connected. rewrite settle_client. exact Hc5.
    + unfold timer_pending in *. cbn. now rewrite settle_timers.
    + intros p' Hp' Hpend. rewrite quiet_connectionResolve0 in Hr.
      assert (p' = p) as -> by congruence.
      unfold promise_state. cbn.
      apply (settle_pending p (Resolved (VBool true)) w5).
      unfold is_pending in *. rewrite quiet_promises0, Hp. exact Hpend.
  - repeat split; try assumption.
    intros p' Hp'. congruence.
Qed.

(** X2.  A successful handshake: [connect()] on an idle client followed
    by the socket's ['connect'] event leaves the client connected, with
    the attempt counter at zero, nothing pending, no reconnection timer, the
    30 s heartbeat armed, and the promise [connect()] returned resolved
    with [true]. *)
Theorem connect_handshake (w : World) :
  isConnected (client w) = false ->
  isConnecting (client w) = false ->
  let p := length (promises w) in
  let w' := deliver MConnect (snd (connect w)) in
  fst (connect w) = Later p /\
  promise_state p w' = Some (Resolved (VBool true)) /\
  connected w' = true /\
  isConnecting (client w') = false /\
  reconnectAttempts (client w') = 0 /\
  pendingSubscriptions (client w') = [] /\
  reconnectTimer (client w') = None /\
  (exists t, pingInterval (client w') = Some t /\
             timer_pending t w' = Some (TPing, 30000 # 1)) /\
  subscribers (client w') = subscribers (client w).
Proof.
  intros Hc Hg. cbv zeta.
  unfold connect. rewrite Hc, Hg. unfold new_promise. cbv beta iota zeta.
  cbn [fst snd].
  match goal with |- context [deliver MConnect ?x] => set (x0 := x) end.
  assert (deliver MConnect x0 = onConnect x0) as -> by reflexivity.
  assert (socket (client x0) <> None) as Hs by (cbn; discriminate).
  destruct (onConnect_state x0 Hs) as (A & B & C & D & E & F & G & _ & I & J).
  split; [reflexivity|].
  split.
  { apply J; [reflexivity|]. unfold is_pending. cbn. now rewrite nth_error_last. }
  repeat split; try assumption.
  exists (length (timers x0)). split; assumption.
Qed.

Lemma connect_handshake_witness :
  promise_state 0 (deliver MConnect (snd (connect initial)))
    = Some (Resolved (VBool true)).
Proof.
  apply (connect_handshake initial); vm_compute; reflexivity.
Defined.

Lemma scheduleReconnection_frame w :
  promises (scheduleReconnection w) = promises w /\
  connectionResolve (client (scheduleReconnection w)) = connectionResolve (client w) /\
  exists tr, trace (scheduleReconnection w) = (trace w ++ tr)%list.
Proof.
  destruct (Nat.leb_spec maxReconnectAttempts (reconnectAttempts (client w)))
    as [Hge|Hlt].
  - rewrite scheduleReconnection_gives_up by exact Hge.
    match goal with |- context [emit ?d ?x] =>
      destruct (emit_quiet d x eq_refl);
      destruct (emit_trace d x) as (tr & Htr & _)
    end.
    repeat split; try assumption. eauto.
  - rewrite scheduleReconnection_arms by exact Hlt. cbn.
    repeat split. exists []. now rewrite app_nil_r.
Qed.

(** X3.  A failed handshake: the promise [connect()] returned is resolved
    with [false], never rejected, and the [error] event carries the code
    [getErrorCode] derives from the message and the number of the
    attempt. *)
Theorem connect_failure_reported (message : string) (w : World) :
  isConnected (client w) = false ->
  isConnecting (client w) = false ->
  let p := length (promises w) in
  let w' := deliver (MConnectError message) (snd (connect w)) in
  fst (connect w) = Later p /\
  promise_state p w' = Some (Resolved (VBool false)) /\
  connectionResolve (client w') = None /\
  exists tr,
    trace w' =
    (trace w
     ++ Emitted (DError (getErrorCode message) message
                   (Some (reconnectAttempts (client w) + 1))) :: tr)%list.
Proof.
  intros Hc Hg. cbv zeta.
  unfold connect. rewrite Hc, Hg. unfold new_promise. cbv beta iota zeta.
  cbn [fst snd].
  split; [reflexivity|].
  match goal with |- context [deliver _ ?x] => set (x0 := x) end.
  assert (deliver (MConnectError message) x0 = onConnectError message x0) as ->
    by reflexivity.
  assert (is_pending (length (promises w)) x0 = true) as Hpend.
  { unfold is_pending. cbn. now rewrite nth_error_last. }
  assert (connectionResolve (client x0) = Some (length (promises w))) as Hres
    by reflexivity.
  assert (trace x0 = trace w) as Htr0 by reflexivity.
  assert (reconnectAttempts (client x0) = reconnectAttempts (client w)) as Hat
    by reflexivity.
  clearbody x0. unfold onConnectError. cbv zeta.
  match goal with |- context [emit ?d ?x] =>
    pose proof (emit_quiet d x eq_refl) as Hq;
    destruct (emit_trace d x) as (tr & Htr & _);
    remember (emit d x) as x2 eqn:E; clear E
  end.
  destruct Hq. cbn in *.
  destruct (scheduleReconnection_frame x2) as (Hp & Hr & tr' & Htr').
  remember (scheduleReconnection x2) as x3 eqn:E; clear E.
  rewrite Hr, quiet_connectionResolve0, Hres.
  unfold resolve. cbn. rewrite settle_trace.
  split; [|split; [reflexivity|]].
  - unfold promise_state. cbn.
    apply (settle_pending (length (promises w)) (Resolved (VBool false)) x3).
    unfold is_pending in *. now rewrite Hp, quiet_promises0.
  - exists (tr ++ tr')%list. rewrite Htr', Htr, Hat, Htr0.
    now rewrite <- app_assoc.
Qed.

Lemma connect_failure_reported_witness :
  promise_state 0 (deliver (MConnectError "xhr poll error") (snd (connect initial)))
    = Some (Resolved (VBool false)).
Proof.
  apply (connect_failure_reported "xhr poll error" initial); vm_compute; reflexivity.
Defined.

(** ** Heartbeat and teardown *)

Lemma sent_app tr tr' : sent (tr ++ tr') = (sent tr ++ sent tr')%list.
Proof. unfold sent. apply flat_map_app. Qed.

Lemma sent_invoked tr : forallb is_invoked tr = true -> sent tr = [].
Proof.
  induction tr as [|e tr IH]; simpl; auto.
  intros H. apply andb_prop in H. destruct H as [He Ht].
  destruct e; try discriminate. simpl. auto.
Qed.

Lemma clearTimers_disarms_ping t w :
  pingInterval (client w) = Some t -> timer_pending t (clearTimers w) = None.
Proof.
  intros H. unfold clearTimers. cbv zeta.
  match goal with
  | |- context [pingInterval (client ?x)] =>
      assert (pingInterval (client x) = Some t) as H1
  end.
  { destruct (reconnectTimer (client w)); cbn; [|exact H].
    rewrite clearTimeout_client. exact H. }
  rewrite H1. apply clearTimeout_disarms.
Qed.

(** The heartbeat and what is sent when the connection closes. *)
Lemma closing_ping reason w :
  let wc := closing reason w in
  pingInterval (client wc) = None /\
  (forall t, pingInterval (client w) = Some t -> timer_pending t wc = None) /\
  sent (trace wc) = sent (trace w).
Proof.
  destruct (closing_spec reason w) as (_ & _ & _ & _ & _ & _ & _ & _ & _ & tr & Htr & Hinv).
  cbv zeta. split; [|split].
  - unfold closing. cbv zeta. rewrite fold_requeue.
    match goal with |- context [emit ?d ?x] =>
      destruct (emit_quiet d x eq_refl)
    end.
    cbn in *. rewrite clearTimers_client in *. assumption.
  - intros t Ht. unfold closing. cbv zeta. rewrite fold_requeue.
    match goal with |- context [emit ?d ?x] =>
      destruct (emit_quiet d x eq_refl)
    end.
    unfold timer_pending. rewrite quiet_timers0. cbn.
    apply (clearTimers_disarms_ping t (upd_client (set_isConnected false) w)).
    exact Ht.
  - rewrite Htr, sent_app.
    change (sent (Emitted (DDisconnected reason) :: tr)) with (sent tr).
    rewrite (sent_invoked _ Hinv). now rewrite app_nil_r.
Qed.

Lemma deliberate_close_frame (ls : list SockListener) : forall w,
  pingInterval (client w) = None ->
  let w' := fold_left (run_listener (MDisconnect "io client disconnect")) ls w in
  pingInterval (client w') = None /\
  (forall t, timer_pending t w = None -> timer_pending t w' = None) /\
  sent (trace w') = sent (trace w).
Proof.
  induction ls as [|l ls IH]; intros w Hw; simpl; [auto|].
  assert (pingInterval
            (client (run_listener (MDisconnect "io client disconnect") w l)) = None /\
          (forall t, timer_pending t w = None ->
             timer_pending t (run_listener (MDisconnect "io client disconnect") w l)
               = None) /\
          sent (trace (run_listener (MDisconnect "io client disconnect") w l))
            = sent (trace w)) as (H1 & H2 & H3).
  { destruct l; simpl; auto.
    change (onDisconnect "io client disconnect" w)
      with (closing "io client disconnect" w).
    destruct (closing_spec "io client disconnect" w)
      as (_ & _ & _ & _ & D & _).
    destruct (closing_ping "io client disconnect" w) as (A & _ & C). auto. }
  destruct (IH _ H1) as (H4 & H5 & H6).
  repeat split; auto. congruence.
Qed.

Lemma disconnect_state (w : World) :
  let w' := disconnect w in
  socket (client w') = None /\
  isConnected (client w') = false /\
  subscribers (client w') = [] /\
  pendingSubscriptions (client w') = [] /\
  reconnectAttempts (client w') = 0 /\
  pingInterval (client w') = None /\
  (forall t, pingInterval (client w) = Some t -> timer_pending t w' = None) /\
  sent (trace w') = sent (trace w).
Proof.
  cbv zeta. unfold disconnect. cbv zeta.
  pose proof (clearTimers_client w) as Hcl.
  pose proof (clearTimers_trace w) as Htr.
  pose proof (clearTimers_disarms_ping) as Hd. specialize (fun t => Hd t w).
  remember (clearTimers w) as w1 eqn:E. clear E.
  assert (pingInterval (client w1) = None) as Hp by now rewrite Hcl.
  destruct (socket (client w1)) as [s|] eqn:Hs; cbn.
  - destruct (isConnected (client w1)) eqn:Hc; cbn.
    + unfold deliver. rewrite Hs. cbn [sock_event].
      destruct (deliberate_close_frame
                  (listeners_for disconnect_sev s) w1 Hp) as (A & B & C).
      match goal with |- context [fold_left ?f ?l ?x] =>
        remember (fold_left f l x) as w2 eqn:E; clear E
      end.
      repeat split; auto.
      * intros t Ht. exact (B t (Hd t Ht)).
      * unfold sent in *. cbn. congruence.
    + repeat split; auto; try (intros t Ht; exact (Hd t Ht));
        unfold sent in *; cbn; congruence.
  - repeat split; auto; try (intros t Ht; exact (Hd t Ht));
      unfold sent in *; cbn; congruence.
Qed.

(** X4.  [disconnect()] tears the client down: no socket, not connected,
    an empty registry, nothing pending, the attempt counter at zero, the
    heartbeat cleared, and nothing sent to the server (the subscriptions
    are dropped without an [unsubscribe] request). *)
Theorem disconnect_teardown (w : World) :
  let w' := disconnect w in
  socket (client w') = None /\
  isConnected (client w') = false /\
  subscribers (client w') = [] /\
  pendingSubscriptions (client w') = [] /\
  reconnectAttempts (client w') = 0 /\
  pingInterval (client w') = None /\
  (forall t, pingInterval (client w) = Some t -> timer_pending t w' = None) /\
  sent (trace w') = sent (trace w).
Proof. exact (disconnect_state w). Qed.

Lemma fire_ping t d w :
  timer_pending t w = Some (TPing, d) -> connected w = true ->
  fire t w = send OPing w.
Proof. intros H Hc. unfold fire. rewrite H. unfold ping. now rewrite Hc. Qed.

Lemma scheduleReconnection_keeps_disarmed t w :
  t < length (timers w) -> timer_pending t w = None ->
  timer_pending t (scheduleReconnection w) = None.
Proof.
  intros Hlen H.
  destruct (Nat.leb_spec maxReconnectAttempts (reconnectAttempts (client w)))
    as [Hge|Hlt].
  - rewrite scheduleReconnection_gives_up by exact Hge.
    match goal with |- context [emit ?d ?z] =>
      destruct (emit_quiet d z eq_refl) as [Ht]
    end.
    now rewrite (timer_pending_quiet _ _ _ Ht).
  - rewrite scheduleReconnection_arms by exact Hlt.
    unfold timer_pending in *.
    cbn [timers upd_client set_timers].
    now rewrite nth_error_app1 by exact Hlen.
Qed.

Lemma onDisconnect_ping reason t w :
  pingInterval (client w) = Some t -> t < length (timers w) ->
  timer_pending t (onDisconnect reason w) = None.
Proof.
  intros Hp Hlen. rewrite onDisconnect_closing.
  destruct (closing_ping reason w) as (_ & B & _). specialize (B _ Hp).
  destruct (closing_spec reason w) as (_ & L & _).
  remember (closing reason w) as wc eqn:E. clear E.
  destruct (_ && _); [|exact B].
  apply scheduleReconnection_keeps_disarmed; [lia | exact B].
Qed.

(** X5.  The heartbeat runs exactly while the client is connected: the
    interval the ['connect'] listener arms sends one [ping] each time it
    fires and stays armed; the ['disconnect'] listener, whatever the
    reason, and [disconnect()] clear it, after which firing it does
    nothing; [ping()] itself sends nothing when not connected. *)
Theorem heartbeat_while_connected (x : World) :
  socket (client x) <> None ->
  let y := onConnect x in
  let t := length (timers x) in
  pingInterval (client y) = Some t /\
  sent (trace (fire t y)) = (sent (trace y) ++ [OPing])%list /\
  timer_pending t (fire t y) = Some (TPing, 30000 # 1) /\
  (forall reason,
     timer_pending t (onDisconnect reason y) = None /\
     fire t (onDisconnect reason y) = onDisconnect reason y /\
     ping (onDisconnect reason y) = onDisconnect reason y) /\
  timer_pending t (disconnect y) = None /\
  fire t (disconnect y) = disconnect y /\
  ping (disconnect y) = disconnect y.
Proof.
  intros Hs. cbv zeta.
  destruct (onConnect_state x Hs) as (A & _ & _ & _ & _ & F & G & _).
  remember (onConnect x) as y eqn:E. clear E.
  destruct (disconnect_state y) as (_ & D2 & _ & _ & _ & _ & D7 & _).
  remember (disconnect y) as yd eqn:E. clear E.
  assert (forall z, timer_pending (length (timers x)) z = None ->
            fire (length (timers x)) z = z) as Hfire.
  { intros z Hz. unfold fire. now rewrite Hz. }
  assert (forall z, isConnected (client z) = false -> ping z = z) as Hping.
  { intros z Hz. unfold ping, connected. rewrite Hz.
    now destruct (socket (client z)). }
  split; [exact F|].
  split; [|split; [|split; [|split; [|split]]]].
  - rewrite (fire_ping _ _ _ G A). unfold send. rewrite log_trace.
    now rewrite sent_app.
  - rewrite (fire_ping _ _ _ G A). rewrite <- G.
    apply timer_pending_quiet. reflexivity.
  - intros reason.
    assert (timer_pending (length (timers x)) (onDisconnect reason y) = None) as Hn.
    { apply onDisconnect_ping; [exact F|].
      apply nth_error_Some. unfold timer_pending in G.
      destruct (nth_error (timers y) (length (timers x))); congruence. }
    split; [exact Hn|]. split; [now apply Hfire|].
    apply Hping. apply (onDisconnect_spec reason y).
  - exact (D7 _ F).
  - apply Hfire. exact (D7 _ F).
  - apply Hping. exact D2.
Qed.

Lemma heartbeat_while_connected_witness :
  pingInterval (client (onConnect (snd (connect initial)))) = Some 0.
Proof.
  apply (heartbeat_while_connected (snd (connect initial))).
  vm_compute. discriminate.
Defined.

(* ================================================================== *)
(** ** Listeners of the event bus and of the socket, in general *)

Lemma unknown_absent cb w : unknown cb w = true -> absent cb w.
Proof.
  unfold unknown, absent. intros Hu. apply andb_prop in Hu.
  destruct Hu as [Hbus Hsock]. split.
  - intros e. unfold listeners_of.
    destruct (map_get EventName_eqb e (eventListeners (client w))) as [l|] eqn:E;
      [|reflexivity].
    destruct (map_get_In _ _ _ _ E) as [k' Hk].
    rewrite forallb_forall in Hbus. specialize (Hbus _ Hk). cbn in Hbus.
    now apply forallb_filter_nil.
  - intros s Hs. rewrite Hs in Hsock.
    now apply (forallb_filter_nil (fun p => reaches cb (snd p))).
Qed.

Lemma kept_absent cb x y : kept cb x y -> absent cb x -> absent cb y.
Proof.
  intros [_ Kb Ks _] [Hb Hs]. split.
  - intros e. rewrite Kb. apply Hb.
  - intros s Hy. rewrite Hy in Ks.
    destruct (socket (client x)) as [s0|]; [|discriminate].
    cbn in Ks. inversion Ks as [E]. rewrite E. apply (Hs s0 eq_refl).
Qed.

Lemma called_registered cb n e b k x y :
  called cb n x y -> registered cb e b k x -> registered cb e b k y.
Proof.
  intros [_ Cb Cs Cbi] (Hbus & s & Hs & Hb & Hr). split.
  - rewrite Cb. exact Hbus.
  - rewrite Hs in Cs, Cbi.
    destruct (socket (client y)) as [s'|]; [|discriminate].
    cbn in Cs, Cbi. exists s'. split; [reflexivity|]. split.
    + congruence.
    + rewrite filter_listeners_for. inversion Cs as [Cs'].
      rewrite Cs', <- filter_listeners_for. exact Hr.
Qed.

Lemma kept_fields cb x y :
  count_invoked cb (trace y) = count_invoked cb (trace x) ->
  eventListeners (client y) = eventListeners (client x) ->
  socket (client y) = socket (client x) ->
  kept cb x y.
Proof.
  intros H1 H2 H3. constructor; auto.
  - intros e. unfold listeners_of. now rewrite H2.
  - now rewrite H3.
  - now rewrite H3.
Qed.

Lemma count_invoked_app cb tr tr' :
  count_invoked cb (tr ++ tr') = count_invoked cb tr + count_invoked cb tr'.
Proof. unfold count_invoked. now rewrite filter_app, length_app. Qed.

Lemma count_invoked_sent cb (l : list string) :
  count_invoked cb (map (fun s => Sent (OSubscribe s "M5")) l) = 0.
Proof. induction l; simpl; auto. Qed.

(** The event bus does not call a callback that is not in its set. *)
Lemma emit_kept id d x :
  filter (wraps (CbUser id)) (listeners_of (event_name d) (client x)) = [] ->
  kept (CbUser id) x (emit d x).
Proof.
  intros Hreg. unfold emit. cbv zeta.
  set (cb := CbUser id) in *.
  assert (forall l y,
            (forall f, In f l -> wraps cb f = false) ->
            kept cb y
              (fold_left
                 (fun w' f =>
                    if set_has Callback_eqb f (listeners_of (event_name d) (client w'))
                    then call f d w' else w') l y)) as Hfold.
  { induction l as [|f l IH]; intros y Hl; [apply kept_refl|].
    cbn [fold_left].
    assert (forall f0, In f0 l -> wraps cb f0 = false) as Hl'
      by (intros; apply Hl; now right).
    destruct (set_has Callback_eqb f (listeners_of (event_name d) (client y)));
      [|now apply IH].
    apply (kept_trans cb y (call f d y)); [|now apply IH].
    apply foreign_call_kept. apply Hl. now left. }
  apply (kept_trans cb x (log (Emitted d) x)).
  - apply log_kept. reflexivity.
  - apply Hfold. intros f Hin.
    change (listeners_of (event_name d) (client (log (Emitted d) x)))
      with (listeners_of (event_name d) (client x)) in Hin.
    destruct (wraps cb f) eqn:E; [|reflexivity].
    assert (In f (filter (wraps cb) (listeners_of (event_name d) (client x)))) as Hf
      by (apply filter_In; auto).
    rewrite Hreg in Hf. destruct Hf.
Qed.

Lemma emit_called_gen id d x (b : bool) :
  filter (wraps (CbUser id)) (listeners_of (event_name d) (client x))
    = (if b then [CbUser id] else []) ->
  called (CbUser id) (if b then 1 else 0) x (emit d x).
Proof.
  destruct b; intros H; [now apply emit_called | now apply kept_called, emit_kept].
Qed.

Lemma run_listener_socket id d l x :
  filter (wraps (CbUser id)) (listeners_of (event_name d) (client x)) = [] ->
  (reaches (CbUser id) l = true -> l = LPlain (CbUser id)) ->
  called (CbUser id) (if reaches (CbUser id) l then 1 else 0)
    x (run_listener (MData d) x l).
Proof.
  intros Hreg Hl.
  destruct l; cbn [run_listener reaches]; try apply called_refl.
  - destruct d; try apply called_refl. apply kept_called, onTick_kept.
  - now apply kept_called, emit_kept.
  - destruct (wraps (CbUser id) f) eqn:Hw.
    + specialize (Hl Hw). inversion Hl; subst f. apply user_call_called.
    + now apply kept_called, foreign_call_kept.
  - destruct (wraps (CbUser id) f) eqn:Hw.
    + specialize (Hl Hw). discriminate.
    + apply kept_called. eapply kept_trans.
      * apply sock_off_kept.
        -- intros l. apply wrapper_is_reaches. exact Hw.
        -- apply wrapper_is_not_builtin.
      * now apply foreign_call_kept.
Qed.

Lemma listeners_socket id d (ls : list SockListener) : forall x,
  filter (wraps (CbUser id)) (listeners_of (event_name d) (client x)) = [] ->
  (forall l, In l ls -> reaches (CbUser id) l = true -> l = LPlain (CbUser id)) ->
  called (CbUser id) (length (filter (reaches (CbUser id)) ls))
    x (fold_left (run_listener (MData d)) ls x).
Proof.
  induction ls as [|l ls IH]; intros x Hreg Hls; [apply called_refl|].
  cbn [fold_left].
  pose proof (run_listener_socket id d l x Hreg (Hls l (or_introl eq_refl))) as H1.
  assert (called (CbUser id) (length (filter (reaches (CbUser id)) ls))
            (run_listener (MData d) x l)
            (fold_left (run_listener (MData d)) ls (run_listener (MData d) x l)))
    as H2.
  { apply IH.
    - rewrite (called_bus _ _ _ _ H1). exact Hreg.
    - intros l' Hin. apply Hls. now right. }
  pose proof (called_trans _ _ _ _ _ _ H1 H2) as H3.
  replace (length (filter (reaches (CbUser id)) (l :: ls)))
    with ((if reaches (CbUser id) l then 1 else 0)
          + length (filter (reaches (CbUser id)) ls)); [exact H3|].
  cbn [filter]. destruct (reaches (CbUser id) l); reflexivity.
Qed.

(** One data event delivered to a client on which a user callback is
    registered. *)
Lemma deliver_registration id d b k x :
  registered (CbUser id) (event_name d) b k x ->
  called (CbUser id) (calls_per_event (event_name d) b k) x (deliver (MData d) x).
Proof.
  intros (Hbus & s & Hs & Hb & Hr).
  unfold deliver. rewrite Hs. cbn [sock_event].
  assert (forall l, In l (listeners_for (data_sev (event_name d)) s) ->
            reaches (CbUser id) l = true -> l = LPlain (CbUser id)) as Hall.
  { intros l Hin Hl.
    assert (In l (filter (reaches (CbUser id))
                    (listeners_for (data_sev (event_name d)) s))) as Hf
      by (apply filter_In; auto).
    rewrite Hr in Hf. now apply repeat_spec in Hf. }
  unfold calls_per_event. destruct b.
  - pose proof (listeners_called id d (listeners_for (data_sev (event_name d)) s) x
                  Hbus Hall) as H.
    rewrite Hr, forwards_of_builtin, Hb, standard_forwards, repeat_length in H.
    exact H.
  - pose proof (listeners_socket id d (listeners_for (data_sev (event_name d)) s) x
                  Hbus Hall) as H.
    rewrite Hr, repeat_length in H. exact H.
Qed.

(** A run of events of one name. *)
Lemma deliver_many id event b k (ds : list EventData) : forall x,
  registered (CbUser id) event b k x ->
  (forall d, In d ds -> event_name d = event) ->
  let y := fold_left (fun w d => deliver (MData d) w) ds x in
  count_invoked (CbUser id) (trace y) =
    count_invoked (CbUser id) (trace x) + calls_per_event event b k * length ds /\
  registered (CbUser id) event b k y.
Proof.
  induction ds as [|d ds IH]; intros x Hreg Hname; cbv zeta.
  - cbn. split; [lia | exact Hreg].
  - cbn [fold_left length].
    assert (event_name d = event) as Hd by (apply Hname; now left).
    rewrite <- Hd in Hreg.
    pose proof (deliver_registration id d b k x Hreg) as Hc.
    pose proof (called_registered _ _ _ _ _ _ _ Hc Hreg) as Hreg'.
    rewrite Hd in Hreg', Hc.
    destruct (IH (deliver (MData d) x) Hreg') as (H1 & H2).
    { intros; apply Hname; now right. }
    split; [|exact H2].
    rewrite H1, (called_count _ _ _ _ Hc). lia.
Qed.

(** [on] for a callback that is not registered. *)
Lemma on_bus cb event w :
  absent cb w ->
  forall e, filter (wraps cb) (listeners_of e (client (on event cb w)))
            = if EventName_eqb e event then [cb] else [].
Proof.
  intros [Hb _] e.
  assert (eventListeners (client (on event cb w)) =
          map_set EventName_eqb event
            (set_add Callback_eqb cb (listeners_of event (client w)))
            (eventListeners (client w))) as E.
  { unfold on. cbv zeta. destruct (connected _); reflexivity. }
  unfold listeners_of at 1. rewrite E.
  destruct (EventName_eqb e event) eqn:Ee.
  - apply EventName_eqb_eq in Ee. subst e.
    rewrite (map_get_set_same EventName_eqb EventName_eqb_eq).
    rewrite (set_add_new _ _ (Hb event)), filter_app, (Hb event). cbn [filter app].
    now rewrite wraps_refl.
  - assert (event <> e) as Hn.
    { intros ->. assert (EventName_eqb e e = true) by now apply EventName_eqb_eq.
      congruence. }
    rewrite (map_get_set_other EventName_eqb EventName_eqb_eq) by exact Hn.
    apply (Hb e).
Qed.

Lemma on_registers id event w s :
  connected w = true ->
  socket (client w) = Some s ->
  builtin_only s = setupSocketListeners {| handlers := [] |} ->
  absent (CbUser id) w ->
  registered (CbUser id) event true 1 (on event (CbUser id) w).
Proof.
  intros Hc Hs Hb Ha. split.
  - rewrite (on_bus _ _ _ Ha).
    assert (EventName_eqb event event = true) as -> by now apply EventName_eqb_eq.
    reflexivity.
  - destruct Ha as [_ Hsock]. specialize (Hsock s Hs).
    unfold on. cbv zeta.
    replace (connected _) with (connected w) by reflexivity.
    rewrite Hc. cbn. rewrite Hs. cbn. eexists. split; [reflexivity|]. split.
    + unfold builtin_only, sock_on in *. cbn. rewrite filter_app. cbn.
      rewrite app_nil_r. exact Hb.
    + rewrite listeners_for_sock_on, filter_app. cbn [filter reaches].
      rewrite wraps_refl.
      rewrite filter_listeners_for, Hsock. reflexivity.
Qed.

Lemma set_add_wraps cb f (l : list Callback) :
  wraps cb f = false ->
  filter (wraps cb) (set_add Callback_eqb f l) = filter (wraps cb) l.
Proof.
  intros Hf. unfold set_add. destruct (set_has _ _ _); [reflexivity|].
  rewrite filter_app. cbn. rewrite Hf. apply app_nil_r.
Qed.

(** [on] for another callback. *)
Lemma on_kept cb e f x : wraps cb f = false -> kept cb x (on e f x).
Proof.
  intros Hf. unfold on. cbv zeta.
  match goal with
  | |- kept cb x (if connected ?y then _ else _) =>
      assert (kept cb x y) as Hy
  end.
  { constructor; try reflexivity.
    intros e'. unfold listeners_of at 1. cbn.
    destruct (EventName_eq_dec e e') as [<-|Hn].
    - rewrite (map_get_set_same EventName_eqb EventName_eqb_eq).
      now apply set_add_wraps.
    - now rewrite (map_get_set_other EventName_eqb EventName_eqb_eq). }
  destruct (connected _); [|exact Hy].
  eapply kept_trans; [exact Hy|].
  constructor; try reflexivity; cbn;
    destruct (socket (client x)); cbn; auto; f_equal.
  - rewrite filter_app. cbn. rewrite Hf. apply app_nil_r.
  - unfold builtin_only, sock_on. cbn. rewrite filter_app. cbn.
    now rewrite app_nil_r.
Qed.

Lemma set_delete_self cb (l : list Callback) (b : bool) :
  filter (wraps cb) l = (if b then [cb] else []) ->
  filter (wraps cb) (set_delete Callback_eqb cb l) = [].
Proof.
  revert b. induction l as [|a l IH]; intros b H; simpl; auto.
  simpl in H. destruct (Callback_eqb cb a) eqn:E.
  - apply Callback_eqb_eq in E. subst a. rewrite wraps_refl in H.
    destruct b; inversion H. reflexivity.
  - simpl. destruct (wraps cb a) eqn:Ew.
    + destruct b; inversion H. subst a.
      assert (Callback_eqb cb cb = true) by now apply Callback_eqb_eq. congruence.
    + now apply (IH b).
Qed.

Lemma remove_first_self cb ev hs :
  (forall l, In l (listeners_for ev {| handlers := hs |}) ->
             reaches cb l = true -> l = LPlain cb) ->
  filter (reaches cb)
    (listeners_for ev {| handlers := remove_first ev (listener_is cb) hs |}) =
  tl (filter (reaches cb) (listeners_for ev {| handlers := hs |})).
Proof.
  unfold listeners_for. cbn [handlers].
  induction hs as [|[e l] hs IH]; intros H; [reflexivity|].
  cbn [remove_first filter map fst snd] in *.
  destruct (SockEvent_eqb ev e) eqn:Ee; cbn [andb map filter snd] in *.
  - destruct (listener_is cb l) eqn:El.
    + assert (reaches cb l = true) as Hr.
      { destruct l; try discriminate; cbn in *;
          apply Callback_eqb_eq in El; subst; apply wraps_refl. }
      rewrite Hr. reflexivity.
    + cbn [map filter fst snd]. rewrite Ee. cbn [map filter snd].
      destruct (reaches cb l) eqn:Hr.
      * assert (l = LPlain cb) as -> by (apply H; [now left | exact Hr]).
        cbn in El. assert (Callback_eqb cb cb = true) by now apply Callback_eqb_eq.
        congruence.
      * apply IH. intros l' Hin. apply H. now right.
  - cbn [map filter fst snd]. rewrite Ee. apply IH. exact H.
Qed.

(** [off(event, cb)] removes [cb] from the event bus and one of its
    listeners from the socket. *)
Lemma off_unregisters cb event b k x :
  registered cb event b k x ->
  registered cb event false (pred k) (off event (Some cb) x) /\
  trace (off event (Some cb) x) = trace x.
Proof.
  intros (Hbus & s & Hs & Hb & Hr). split; [|apply off_trace].
  unfold off. cbv zeta. split.
  - unfold listeners_of in *.
    destruct (map_get EventName_eqb event (eventListeners (client x))) as [l|] eqn:E.
    + cbn. destruct (socket (client x)); cbn;
        rewrite (map_get_set_same EventName_eqb EventName_eqb_eq);
        exact (set_delete_self cb l b Hbus).
    + cbn. destruct (socket (client x)); cbn; rewrite E; reflexivity.
  - assert (forall y, socket (client y) = Some s ->
              exists s', socket (client
                (upd_socket (sock_off (data_sev event) (listener_is cb)) y)) = Some s' /\
                s' = sock_off (data_sev event) (listener_is cb) s) as Hu.
    { intros y Hy. cbn. rewrite Hy. cbn. eauto. }
    destruct (Hu (match map_get EventName_eqb event (eventListeners (client x)) with
                  | Some l =>
                      upd_client (fun c =>
                        set_eventListeners
                          (map_set EventName_eqb event
                             (set_delete Callback_eqb cb l) (eventListeners c)) c) x
                  | None => x
                  end)) as (s' & Hs' & ->).
    { destruct (map_get _ _ _); exact Hs. }
    eexists. split; [exact Hs'|]. split.
    + unfold builtin_only, sock_off in *. cbn.
      rewrite remove_first_builtin; [exact Hb|]. apply listener_is_not_builtin.
    + unfold sock_off. destruct s as [hs]. cbn [handlers].
      rewrite remove_first_self.
      * rewrite Hr. destruct k; reflexivity.
      * intros l Hin Hl.
        assert (In l (filter (reaches cb)
                        (listeners_for (data_sev event) {| handlers := hs |}))) as Hf
          by (apply filter_In; auto).
        rewrite Hr in Hf. now apply repeat_spec in Hf.
Qed.

(** [off(event)] empties the set of the event bus; the socket keeps its
    listeners. *)
Lemma off_all_registered cb event b k x :
  registered cb event b k x ->
  registered cb event false k (off event None x) /\
  trace (off event None x) = trace x.
Proof.
  intros (Hbus & s & Hs & Hb & Hr). split; [|apply off_trace].
  unfold off. cbv zeta. split.
  - unfold listeners_of in *.
    destruct (map_get EventName_eqb event (eventListeners (client x))) as [l|] eqn:E.
    + cbn. now rewrite (map_get_set_same EventName_eqb EventName_eqb_eq).
    + now rewrite E.
  - exists s. split; [|split; assumption].
    destruct (map_get _ _ _); exact Hs.
Qed.

Lemma on_trace e f w : trace (on e f w) = trace w.
Proof. unfold on. cbv zeta. destruct (connected _); reflexivity. Qed.

Lemma on_connected e f w : connected (on e f w) = connected w.
Proof.
  unfold on. cbv zeta.
  replace (connected (upd_client _ w)) with (connected w) by reflexivity.
  destruct (connected w) eqn:E; [|exact E].
  unfold connected in *. cbn. destruct (socket (client w)); [exact E | discriminate].
Qed.

Lemma off_connected e f w : connected (off e f w) = connected w.
Proof. apply quiet_connected, off_quiet. Qed.

Lemma kept_standard cb x y s :
  kept cb x y -> socket (client x) = Some s ->
  builtin_only s = setupSocketListeners {| handlers := [] |} ->
  exists s', socket (client y) = Some s' /\
             builtin_only s' = setupSocketListeners {| handlers := [] |}.
Proof.
  intros [_ _ _ Kb] Hs Hb. rewrite Hs in Kb.
  destruct (socket (client y)) as [s'|]; [|discriminate].
  cbn in Kb. exists s'. split; [reflexivity | congruence].
Qed.

Lemma wraps_user a b : a <> b -> wraps (CbUser a) (CbUser b) = false.
Proof.
  intros H. cbn. unfold Callback_eqb.
  destruct (Callback_eq_dec _ _) as [E|]; [inversion E; congruence | reflexivity].
Qed.

(** X6.  [on] followed by [off] with the same function, on a connected
    client, removes the callback from the event bus and from the socket:
    no later event of that name calls it. *)
Theorem on_off_roundtrip
    (event : EventName) (id : nat) (ds : list EventData) (w : World) (s : Socket)
    (Hconn : connected w = true)
    (Hsock : socket (client w) = Some s)
    (Hstd : builtin_only s = setupSocketListeners {| handlers := [] |})
    (Hnew : unknown (CbUser id) w = true)
    (Hname : forall d, In d ds -> event_name d = event) :
  let w1 := off event (Some (CbUser id)) (on event (CbUser id) w) in
  let w2 := fold_left (fun x d => deliver (MData d) x) ds w1 in
  ~ In (CbUser id) (listeners_of event (client w1)) /\
  count_invoked (CbUser id) (trace w2) = count_invoked (CbUser id) (trace w).
Proof.
  cbv zeta.
  pose proof (on_registers id event w s Hconn Hsock Hstd (unknown_absent _ _ Hnew))
    as Hreg.
  destruct (off_unregisters _ _ _ _ _ Hreg) as (Hoff & Htr).
  rewrite on_trace in Htr. cbn [pred] in Hoff.
  split.
  - intros Hin. destruct Hoff as (Hbus & _).
    assert (In (CbUser id)
              (filter (wraps (CbUser id))
                 (listeners_of event
                    (client (off event (Some (CbUser id)) (on event (CbUser id) w))))))
      as Hf by (apply filter_In; split; [exact Hin | apply wraps_refl]).
    rewrite Hbus in Hf. destruct Hf.
  - destruct (deliver_many id event false 0 ds _ Hoff Hname) as (Hc & _).
    rewrite Hc, Htr. cbn. lia.
Qed.

Lemma on_off_roundtrip_witness :
  let ds := [DHealth "HEALTHY"; DHealth "DEGRADED"] in
  let w1 := off health_ev (Some (CbUser 7)) (on health_ev (CbUser 7) online) in
  let w2 := fold_left (fun x d => deliver (MData d) x) ds w1 in
  ~ In (CbUser 7) (listeners_of health_ev (client w1)) /\
  count_invoked (CbUser 7) (trace w2) = count_invoked (CbUser 7) (trace online).
Proof.
  apply (on_off_roundtrip health_ev 7
           [DHealth "HEALTHY"; DHealth "DEGRADED"] online
           (setupSocketListeners {| handlers := [] |})).
  - vm_compute. reflexivity.
  - vm_compute. reflexivity.
  - vm_compute. reflexivity.
  - vm_compute. reflexivity.
  - intros d [<-|[<-|[]]]; reflexivity.
Defined.

(** X7.  [off(event)] without a callback empties the listener set of the
    event but removes nothing from the socket: a callback added with [on]
    while connected is still called, once, by every later event of that
    name. *)
Theorem off_event_keeps_socket_listener
    (event : EventName) (id : nat) (ds : list EventData) (w : World) (s : Socket)
    (Hconn : connected w = true)
    (Hsock : socket (client w) = Some s)
    (Hstd : builtin_only s = setupSocketListeners {| handlers := [] |})
    (Hnew : unknown (CbUser id) w = true)
    (Hname : forall d, In d ds -> event_name d = event) :
  let w1 := off event None (on event (CbUser id) w) in
  let w2 := fold_left (fun x d => deliver (MData d) x) ds w1 in
  listeners_of event (client w1) = [] /\
  count_invoked (CbUser id) (trace w2) =
    count_invoked (CbUser id) (trace w) + length ds.
Proof.
  cbv zeta.
  pose proof (on_registers id event w s Hconn Hsock Hstd (unknown_absent _ _ Hnew))
    as Hreg.
  destruct (off_all_registered _ _ _ _ _ Hreg) as (Hoff & Htr).
  rewrite on_trace in Htr.
  split.
  - unfold off. cbv zeta. unfold listeners_of at 1.
    destruct (map_get EventName_eqb event
                (eventListeners (client (on event (CbUser id) w)))) as [l|] eqn:E.
    + cbn. now rewrite (map_get_set_same EventName_eqb EventName_eqb_eq).
    + now rewrite E.
  - destruct (deliver_many id event false 1 ds _ Hoff Hname) as (Hc & _).
    rewrite Hc, Htr. cbn. lia.
Qed.

Lemma off_event_keeps_socket_listener_witness :
  let ds := [DHealth "HEALTHY"; DHealth "DEGRADED"] in
  let w1 := off health_ev None (on health_ev (CbUser 7) online) in
  let w2 := fold_left (fun x d => deliver (MData d) x) ds w1 in
  listeners_of health_ev (client w1) = [] /\
  count_invoked (CbUser 7) (trace w2) =
    count_invoked (CbUser 7) (trace online) + length ds.
Proof.
  apply (off_event_keeps_socket_listener health_ev 7
           [DHealth "HEALTHY"; DHealth "DEGRADED"] online
           (setupSocketListeners {| handlers := [] |})).
  - vm_compute. reflexivity.
  - vm_compute. reflexivity.
  - vm_compute. reflexivity.
  - vm_compute. reflexivity.
  - intros d [<-|[<-|[]]]; reflexivity.
Defined.

(** X8.  The cleanup of the effect of [useOrderBook] passes
    [handleOrderBookData] to [off('order_book', ...)], which is not the
    function the effect registered: the listener stays on the event bus
    and on the socket, and every later [order_book] event still calls it
    twice. *)
Theorem useOrderBook_cleanup_leaks
    (handleConnect handleDisconnect handleError handleOrderBookData listener : nat)
    (ds : list EventData) (w : World) (s : Socket)
    (Hconn : connected w = true)
    (Hsock : socket (client w) = Some s)
    (Hstd : builtin_only s = setupSocketListeners {| handlers := [] |})
    (Hnew : unknown (CbUser listener) w = true)
    (H1 : listener <> handleConnect)
    (H2 : listener <> handleDisconnect)
    (H3 : listener <> handleError)
    (H4 : listener <> handleOrderBookData)
    (Hname : forall d, In d ds -> event_name d = order_book_ev) :
  let w1 := useOrderBook_listen handleConnect handleDisconnect handleError listener w in
  let w2 := useOrderBook_cleanup handleConnect handleDisconnect handleError
              handleOrderBookData w1 in
  let w3 := fold_left (fun x d => deliver (MData d) x) ds w2 in
  In (CbUser listener) (listeners_of order_book_ev (client w2)) /\
  count_invoked (CbUser listener) (trace w3) =
    count_invoked (CbUser listener) (trace w) + 2 * length ds.
Proof.
  cbv zeta. unfold useOrderBook_listen, useOrderBook_cleanup.
  set (cb := CbUser listener) in *.
  set (x1 := on connected_ev (CbUser handleConnect) w).
  set (x2 := on disconnected_ev (CbUser handleDisconnect) x1).
  set (x3 := on error_ev (CbUser handleError) x2).
  assert (kept cb w x3) as K3.
  { apply (kept_trans cb w x2); [apply (kept_trans cb w x1)|];
      apply on_kept; now apply wraps_user. }
  destruct (kept_standard _ _ _ _ K3 Hsock Hstd) as (s3 & Hs3 & Hb3).
  assert (connected x3 = true) as Hc3.
  { unfold x3, x2, x1. now rewrite !on_connected. }
  pose proof (on_registers listener order_book_ev x3 s3 Hc3 Hs3 Hb3
                (kept_absent _ _ _ K3 (unknown_absent _ _ Hnew))) as Hreg.
  fold cb in Hreg.
  set (x4 := on order_book_ev cb x3) in *.
  set (y1 := off connected_ev (Some (CbUser handleConnect)) x4).
  set (y2 := off disconnected_ev (Some (CbUser handleDisconnect)) y1).
  set (y3 := off error_ev (Some (CbUser handleError)) y2).
  set (y4 := off order_book_ev (Some (CbUser handleOrderBookData)) y3).
  assert (kept cb x4 y4) as K4.
  { apply (kept_trans cb x4 y3);
      [apply (kept_trans cb x4 y2); [apply (kept_trans cb x4 y1)|]|];
      apply off_kept; now apply wraps_user. }
  pose proof (called_registered _ _ _ _ _ _ _ (kept_called _ _ _ K4) Hreg) as Hreg4.
  assert (trace y4 = trace w) as Htr.
  { unfold y4, y3, y2, y1, x4, x3, x2, x1.
    now rewrite !off_trace, !on_trace. }
  split.
  - destruct Hreg4 as (Hbus & _).
    assert (In cb (filter (wraps cb) (listeners_of order_book_ev (client y4)))) as Hf
      by (rewrite Hbus; now left).
    apply filter_In in Hf. tauto.
  - destruct (deliver_many listener order_book_ev true 1 ds y4 Hreg4 Hname) as (Hc & _).
    fold cb in Hc. rewrite Hc, Htr. reflexivity.
Qed.

Lemma useOrderBook_cleanup_leaks_witness :
  let ds := [DOrderBook "EURUSD" (sample_book "EURUSD")] in
  let w1 := useOrderBook_listen 1 2 3 5 online in
  let w2 := useOrderBook_cleanup 1 2 3 4 w1 in
  let w3 := fold_left (fun x d => deliver (MData d) x) ds w2 in
  In (CbUser 5) (listeners_of order_book_ev (client w2)) /\
  count_invoked (CbUser 5) (trace w3) =
    count_invoked (CbUser 5) (trace online) + 2 * length ds.
Proof.
  apply (useOrderBook_cleanup_leaks 1 2 3 4 5
           [DOrderBook "EURUSD" (sample_book "EURUSD")] online
           (setupSocketListeners {| handlers := [] |})).
  - vm_compute. reflexivity.
  - vm_compute. reflexivity.
  - vm_compute. reflexivity.
  - vm_compute. reflexivity.
  - discriminate.
  - discriminate.
  - discriminate.
  - discriminate.
  - intros d [<-|[]]; reflexivity.
Defined.

(** The ['connect'] listener calls the [connected] listeners of the event
    bus once. *)
Lemma onConnect_called id x (b : bool) :
  socket (client x) <> None ->
  filter (wraps (CbUser id)) (listeners_of connected_ev (client x))
    = (if b then [CbUser id] else []) ->
  called (CbUser id) (if b then 1 else 0) x (onConnect x).
Proof.
  intros Hs Hbus. unfold onConnect. cbv zeta.
  set (w1 := upd_client _ x).
  assert (connected (startPingInterval w1) = true) as Hc.
  { unfold connected. rewrite startPingInterval_client. cbn.
    destruct (socket (client x)); [reflexivity | contradiction]. }
  rewrite (fold_sendSubscribe _ _ Hc).
  pose proof (startPingInterval_client w1) as Hcl.
  pose proof (startPingInterval_trace w1) as Htr.
  remember (startPingInterval w1) as w2 eqn:E2. clear E2 Hc.
  match goal with |- context [emit ?d ?y] => set (x4 := y) end.
  assert (kept (CbUser id) x x4) as K4.
  { apply kept_fields.
    - unfold x4. cbn [trace upd_client set_trace].
      rewrite count_invoked_app, count_invoked_sent, Htr, Nat.add_0_r.
      reflexivity.
    - unfold x4. cbn [client upd_client set_trace eventListeners
                      set_pendingSubscriptions].
      rewrite Hcl. reflexivity.
    - unfold x4. cbn [client upd_client set_trace socket set_pendingSubscriptions].
      rewrite Hcl. reflexivity. }
  assert (called (CbUser id) (if b then 1 else 0) x4
            (emit (DConnected connected_message) x4)) as C5.
  { apply emit_called_gen. cbn [event_name]. rewrite (kept_bus _ _ _ K4). exact Hbus. }
  remember (emit (DConnected connected_message) x4) as x5 eqn:E5. clear E5.
  clearbody x4.
  assert (called (CbUser id) (if b then 1 else 0) x x5) as C.
  { change (if b then 1 else 0) with (0 + (if b then 1 else 0)).
    eapply called_trans; [apply kept_called; exact K4 | exact C5]. }
  destruct (connectionResolve (client x5)); [|exact C].
  replace (if b then 1 else 0) with ((if b then 1 else 0) + 0) by lia.
  eapply called_trans; [exact C|]. apply kept_called.
  apply kept_fields.
  - cbn [trace upd_client]. unfold resolve. now rewrite settle_trace.
  - cbn [client upd_client eventListeners set_connectionResolve].
    unfold resolve. now rewrite settle_client.
  - cbn [client upd_client socket set_connectionResolve].
    unfold resolve. now rewrite settle_client.
Qed.

(** X9.  A listener added with [on] before the client connects (as the
    provider does) is registered on the event bus only.  The handshake
    calls it once if it listens to [connected]; afterwards every inbound
    event of its name calls it once, and an inbound [tick] never calls
    it, because a [tick] is not forwarded to the event bus. *)
Theorem listener_added_before_connect
    (event : EventName) (id : nat) (ds : list EventData) (w : World)
    (Hidle : isConnected (client w) = false)
    (Hnot : isConnecting (client w) = false)
    (Hnew : unknown (CbUser id) w = true)
    (Hname : forall d, In d ds -> event_name d = event) :
  let w1 := on event (CbUser id) w in
  let w2 := deliver MConnect (snd (connect w1)) in
  let w3 := fold_left (fun x d => deliver (MData d) x) ds w2 in
  count_invoked (CbUser id) (trace w2) =
    count_invoked (CbUser id) (trace w)
    + (if EventName_eqb event connected_ev then 1 else 0) /\
  count_invoked (CbUser id) (trace w3) =
    count_invoked (CbUser id) (trace w2)
    + (if EventName_eqb event tick_ev then 0 else 1) * length ds.
Proof.
  cbv zeta.
  pose proof (on_bus (CbUser id) event w (unknown_absent _ _ Hnew)) as Hbus.
  pose proof (on_trace event (CbUser id) w) as Htr.
  assert (isConnected (client (on event (CbUser id) w)) = false) as Hidle1.
  { unfold on. cbv zeta. destruct (connected _); cbn; exact Hidle. }
  assert (isConnecting (client (on event (CbUser id) w)) = false) as Hnot1.
  { unfold on. cbv zeta. destruct (connected _); cbn; exact Hnot. }
  remember (on event (CbUser id) w) as w1 eqn:E. clear E.
  unfold connect. rewrite Hidle1, Hnot1. unfold new_promise. cbv beta iota zeta.
  cbn [snd].
  match goal with |- context [deliver MConnect ?x] => set (x0 := x) end.
  assert (deliver MConnect x0 = onConnect x0) as -> by reflexivity.
  assert (forall e, listeners_of e (client x0) = listeners_of e (client w1)) as Hl
    by reflexivity.
  assert (trace x0 = trace w) as Htr0 by exact Htr.
  assert (socket (client x0) = Some (setupSocketListeners {| handlers := [] |}))
    as Hs0 by reflexivity.
  clearbody x0.
  assert (EventName_eqb event event = true) as Hrefl by now apply EventName_eqb_eq.
  assert (registered (CbUser id) event true 0 x0) as Hreg.
  { split.
    - rewrite Hl, Hbus, Hrefl. reflexivity.
    - eexists. split; [exact Hs0|]. split; [reflexivity|].
      destruct event; reflexivity. }
  assert (called (CbUser id) (if EventName_eqb event connected_ev then 1 else 0)
            x0 (onConnect x0)) as Hc.
  { replace (EventName_eqb event connected_ev)
      with (EventName_eqb connected_ev event) by (destruct event; reflexivity).
    apply onConnect_called.
    - rewrite Hs0. discriminate.
    - rewrite Hl, Hbus. reflexivity. }
  pose proof (called_registered _ _ _ _ _ _ _ Hc Hreg) as Hreg'.
  split.
  - rewrite (called_count _ _ _ _ Hc), Htr0. reflexivity.
  - destruct (deliver_many id event true 0 ds _ Hreg' Hname) as (Hd & _).
    rewrite Hd. unfold calls_per_event. now rewrite Nat.add_0_r.
Qed.

Lemma listener_added_before_connect_witness :
  let ds := [DConnected "again"; DConnected "and again"] in
  let w1 := on connected_ev (CbUser 7) initial in
  let w2 := deliver MConnect (snd (connect w1)) in
  let w3 := fold_left (fun x d => deliver (MData d) x) ds w2 in
  count_invoked (CbUser 7) (trace w2) =
    count_invoked (CbUser 7) (trace initial)
    + (if EventName_eqb connected_ev connected_ev then 1 else 0) /\
  count_invoked (CbUser 7) (trace w3) =
    count_invoked (CbUser 7) (trace w2)
    + (if EventName_eqb connected_ev tick_ev then 0 else 1) * length ds.
Proof.
  apply (listener_added_before_connect connected_ev 7
           [DConnected "again"; DConnected "and again"] initial).
  - vm_compute. reflexivity.
  - vm_compute. reflexivity.
  - vm_compute. reflexivity.
  - intros d [<-|[<-|[]]]; reflexivity.
Defined.

(* ================================================================== *)
(** ** The end of a subscription *)

Lemma unsubscribe_final (symbol : string) (cb : option nat) (w : World) :
  unique_entry symbol w ->
  match cb with
  | Some c => set_delete Nat.eqb c (callbacks_of symbol w) = []
  | None => True
  end ->
  let w' := unsubscribe symbol cb w in
  map_has String.eqb symbol (subscribers (client w')) = false /\
  trace w' =
    (trace w ++ if connected w then [Sent (OUnsubscribe symbol)] else [])%list /\
  pendingSubscriptions (client w') = pendingSubscriptions (client w) /\
  forall symbol', symbol' <> symbol -> callbacks_of symbol' w' = callbacks_of symbol' w.
Proof.
  intros [Hhas Hu] Hlast. unfold callbacks_of in *. unfold unsubscribe.
  unfold map_has in Hhas.
  destruct (map_get String.eqb symbol (subscribers (client w))) as [l|] eqn:Hget;
    [|discriminate].
  assert (forall x : World,
            subscribers (client x) =
              map_delete String.eqb symbol (subscribers (client w)) ->
            connected x = connected w -> trace x = trace w ->
            pendingSubscriptions (client x) = pendingSubscriptions (client w) ->
            map_has String.eqb symbol (subscribers (client (sendUnsubscribe symbol x)))
              = false /\
            trace (sendUnsubscribe symbol x) =
              (trace w ++ if connected w then [Sent (OUnsubscribe symbol)] else [])%list /\
            pendingSubscriptions (client (sendUnsubscribe symbol x))
              = pendingSubscriptions (client w) /\
            forall symbol', symbol' <> symbol ->
              match map_get String.eqb symbol'
                      (subscribers (client (sendUnsubscribe symbol x))) with
              | Some l0 => l0
              | None => []
              end =
              match map_get String.eqb symbol' (subscribers (client w)) with
              | Some l0 => l0
              | None => []
              end) as Hfin.
  { intros x Hsub Hc Htr Hp. unfold sendUnsubscribe. rewrite Hc.
    destruct (connected w); cbn; rewrite Hsub, ?Htr, ?app_nil_r;
      (split; [unfold map_has; now rewrite Hu|]);
      (split; [reflexivity|]); (split; [exact Hp|]);
      intros symbol' Hn;
      rewrite (map_get_delete_other String.eqb String.eqb_eq) by congruence;
      reflexivity. }
  destruct cb as [c|].
  - rewrite Hlast. cbn. apply Hfin; try reflexivity.
    cbn. now rewrite (map_delete_set String.eqb String.eqb_eq).
  - apply Hfin; reflexivity.
Qed.

(** X10.  Removing the last callback of a symbol, or calling
    [unsubscribe(symbol)] without a callback, deletes the entry of the
    symbol and, when connected, sends one [unsubscribe]; when not
    connected nothing is sent, and in both cases [pendingSubscriptions] is
    left as it is.  Other symbols keep their callbacks. *)
Theorem unsubscribe_releases (symbol : string) (cb : option nat) (w : World) :
  unique_entry symbol w ->
  match cb with
  | Some c => set_delete Nat.eqb c (callbacks_of symbol w) = []
  | None => True
  end ->
  let w' := unsubscribe symbol cb w in
  map_has String.eqb symbol (subscribers (client w')) = false /\
  trace w' =
    (trace w ++ if connected w then [Sent (OUnsubscribe symbol)] else [])%list /\
  pendingSubscriptions (client w') = pendingSubscriptions (client w) /\
  forall symbol', symbol' <> symbol -> callbacks_of symbol' w' = callbacks_of symbol' w.
Proof. exact (unsubscribe_final symbol cb w). Qed.

Lemma unsubscribe_releases_witness :
  let w := subscribe "EURUSD" 1 online in
  let w' := unsubscribe "EURUSD" (Some 1) w in
  map_has String.eqb "EURUSD" (subscribers (client w')) = false /\
  trace w' =
    (trace w ++ if connected w then [Sent (OUnsubscribe "EURUSD")] else [])%list /\
  pendingSubscriptions (client w') = pendingSubscriptions (client w) /\
  forall symbol', symbol' <> "EURUSD" -> callbacks_of symbol' w' = callbacks_of symbol' w.
Proof.
  apply (unsubscribe_releases "EURUSD" (Some 1) (subscribe "EURUSD" 1 online)).
  - split; vm_compute; reflexivity.
  - vm_compute. reflexivity.
Defined.

(** X11.  A symbol subscribed and unsubscribed again while the client is
    not connected stays in [pendingSubscriptions]: the next ['connect']
    event sends [subscribe] for it although no callback is registered. *)
Theorem pending_outlives_unsubscribe (symbol : string) (cb : nat) (w : World) :
  map_has String.eqb symbol (subscribers (client w)) = false ->
  connected w = false ->
  socket (client w) <> None ->
  let w1 := unsubscribe symbol (Some cb) (subscribe symbol cb w) in
  let w2 := onConnect w1 in
  subscribers (client w1) = subscribers (client w) /\
  trace w1 = trace w /\
  In symbol (pendingSubscriptions (client w1)) /\
  callbacks_of symbol w2 = [] /\
  exists tr, trace w2 = (trace w ++ tr)%list /\
             In (Sent (OSubscribe symbol "M5")) tr.
Proof.
  intros Hno Hc Hs. cbv zeta.
  destruct (subscribe_first symbol cb w Hno) as (Hu & Hc1 & H1).
  rewrite Hc in H1, Hc1. destruct H1 as (Htr1 & Hp1).
  assert (subscribers (client (subscribe symbol cb w)) =
          map_set String.eqb symbol [cb]
            (map_set String.eqb symbol [] (subscribers (client w)))) as Hsub.
  { unfold subscribe. rewrite Hno. unfold subscribers_add, sendSubscribe.
    replace (connected (upd_client _ w)) with (connected w) by reflexivity.
    rewrite Hc. cbn.
    rewrite (map_get_set_same String.eqb String.eqb_eq). cbn. reflexivity. }
  assert (socket (client (subscribe symbol cb w)) = socket (client w)) as Hsock.
  { unfold subscribe. rewrite Hno. unfold subscribers_add, sendSubscribe.
    replace (connected (upd_client _ w)) with (connected w) by reflexivity.
    rewrite Hc. cbn.
    rewrite (map_get_set_same String.eqb String.eqb_eq). cbn. reflexivity. }
  assert (set_delete Nat.eqb cb (callbacks_of symbol (subscribe symbol cb w)) = [])
    as Hlast.
  { unfold callbacks_of. rewrite Hsub.
    rewrite (map_get_set_same String.eqb String.eqb_eq). cbn.
    now rewrite Nat.eqb_refl. }
  destruct (unsubscribe_final symbol (Some cb) _ Hu Hlast) as (Hhas & Htr2 & Hp2 & _).
  rewrite Hc1 in Htr2. rewrite app_nil_r in Htr2.
  assert (subscribers (client (unsubscribe symbol (Some cb) (subscribe symbol cb w)))
          = subscribers (client w)) as Hsub2.
  { unfold unsubscribe. rewrite Hsub.
    rewrite (map_get_set_same String.eqb String.eqb_eq). cbn.
    rewrite Nat.eqb_refl. unfold sendUnsubscribe.
    replace (connected (upd_client _ (upd_client _ (subscribe symbol cb w))))
      with (connected (subscribe symbol cb w)) by reflexivity.
    rewrite Hc1. cbn [client upd_client subscribers set_subscribers]. rewrite Hsub.
    rewrite !(map_delete_set String.eqb String.eqb_eq).
    apply (map_get_none_delete String.eqb).
    unfold map_has in Hno.
    destruct (map_get String.eqb symbol (subscribers (client w))); congruence. }
  assert (socket (client (unsubscribe symbol (Some cb) (subscribe symbol cb w)))
          <> None) as Hs2.
  { unfold unsubscribe. rewrite Hsub.
    rewrite (map_get_set_same String.eqb String.eqb_eq). cbn.
    rewrite Nat.eqb_refl. unfold sendUnsubscribe.
    replace (connected (upd_client _ (upd_client _ (subscribe symbol cb w))))
      with (connected (subscribe symbol cb w)) by reflexivity.
    rewrite Hc1. cbn [client upd_client socket set_subscribers]. rewrite Hsock.
    exact Hs. }
  remember (unsubscribe symbol (Some cb) (subscribe symbol cb w)) as w1 eqn:E.
  clear E.
  assert (In symbol (pendingSubscriptions (client w1))) as Hin.
  { rewrite Hp2, Hp1. apply (set_add_In String.eqb String.eqb_eq). now left. }
  split; [exact Hsub2|]. split; [congruence|]. split; [exact Hin|].
  destruct (onConnect_state w1 Hs2) as (_ & _ & _ & _ & _ & _ & _ & _ & Hsubs & _).
  destruct (onConnect_trace w1 Hs2) as (tr & Htr & _).
  split.
  - unfold callbacks_of. rewrite Hsubs, Hsub2.
    unfold map_has in Hno.
    destruct (map_get String.eqb symbol (subscribers (client w))); congruence.
  - eexists. split.
    + rewrite Htr, Htr2, Htr1. reflexivity.
    + apply in_or_app. left. apply in_map_iff. exists symbol. auto.
Qed.

Lemma pending_outlives_unsubscribe_witness :
  let w := deliver (MDisconnect "transport close") online in
  let w1 := unsubscribe "EURUSD" (Some 1) (subscribe "EURUSD" 1 w) in
  let w2 := onConnect w1 in
  subscribers (client w1) = subscribers (client w) /\
  trace w1 = trace w /\
  In "EURUSD" (pendingSubscriptions (client w1)) /\
  callbacks_of "EURUSD" w2 = [] /\
  exists tr, trace w2 = (trace w ++ tr)%list /\
             In (Sent (OSubscribe "EURUSD" "M5")) tr.
Proof.
  apply (pending_outlives_unsubscribe "EURUSD" 1
           (deliver (MDisconnect "transport close") online)).
  - vm_compute. reflexivity.
  - vm_compute. reflexivity.
  - vm_compute. discriminate.
Defined.

(* ================================================================== *)
(** ** Tick dispatch *)

Lemma tick_calls_app tr tr' :
  tick_calls (tr ++ tr') = (tick_calls tr ++ tick_calls tr')%list.
Proof. unfold tick_calls. apply flat_map_app. Qed.

Lemma tick_calls_invoked tr : forallb is_invoked tr = true -> tick_calls tr = [].
Proof.
  induction tr as [|e tr IH]; simpl; auto.
  intros H. apply andb_prop in H. destruct H as [He Ht].
  destruct e; try discriminate. simpl. auto.
Qed.

Lemma same_ticks_refl x : same_ticks x x.
Proof. split; reflexivity. Qed.

Lemma same_ticks_trans x y z : same_ticks x y -> same_ticks y z -> same_ticks x z.
Proof. intros [] []. split; congruence. Qed.

Lemma call_same_ticks f d x : inert d = true -> same_ticks x (call f d x).
Proof.
  intros Hd. split.
  - apply (quiet_subscribers _ _ (call_quiet f d Hd x)).
  - destruct (call_trace f d x) as (tr & Htr & Hinv).
    rewrite Htr, tick_calls_app, (tick_calls_invoked _ Hinv). apply app_nil_r.
Qed.

Lemma emit_same_ticks d x : inert d = true -> same_ticks x (emit d x).
Proof.
  intros Hd. split.
  - apply (quiet_subscribers _ _ (emit_quiet d x Hd)).
  - destruct (emit_trace d x) as (tr & Htr & Hinv).
    rewrite Htr, tick_calls_app.
    change (tick_calls (Emitted d :: tr)) with (tick_calls tr).
    rewrite (tick_calls_invoked _ Hinv). apply app_nil_r.
Qed.

(** The ['tick'] listener calls the callbacks of the symbol, in the order
    of their registration. *)
Lemma onTick_calls symbol tick x :
  subscribers (client (onTick symbol tick x)) = subscribers (client x) /\
  tick_calls (trace (onTick symbol tick x)) =
    (tick_calls (trace x) ++ map (fun cb => (cb, tick)) (callbacks_of symbol x))%list.
Proof.
  unfold onTick, callbacks_of.
  destruct (map_get String.eqb symbol (subscribers (client x))) as [l|];
    [|now rewrite app_nil_r].
  revert x. induction l as [|c l IH]; intros x; cbn [fold_left map].
  - now rewrite app_nil_r.
  - destruct (IH (log (TickCall c tick) x)) as (H1 & H2).
    split; [exact H1|]. rewrite H2, log_trace, tick_calls_app.
    now rewrite <- app_assoc.
Qed.

Lemma ticks_of_builtin ev s :
  filter is_tick_listener (listeners_for ev s) =
  filter is_tick_listener (listeners_for ev (builtin_only s)).
Proof.
  unfold builtin_only. rewrite <- filter_listeners_for.
  induction (listeners_for ev s) as [|l ls IH]; simpl; auto.
  destruct l; simpl; rewrite ?IH; reflexivity.
Qed.

Lemma listeners_tick symbol tick (ls : list SockListener) : forall x,
  let y := fold_left (run_listener (MData (DTick symbol tick))) ls x in
  subscribers (client y) = subscribers (client x) /\
  tick_calls (trace y) =
    (tick_calls (trace x)
     ++ concat (map (fun _ => map (fun cb => (cb, tick)) (callbacks_of symbol x))
                  (filter is_tick_listener ls)))%list.
Proof.
  induction ls as [|l ls IH]; intros x; cbv zeta; cbn [fold_left].
  - cbn. now rewrite app_nil_r.
  - destruct (IH (run_listener (MData (DTick symbol tick)) x l)) as (H1 & H2).
    assert (if is_tick_listener l
            then subscribers (client (run_listener (MData (DTick symbol tick)) x l))
                   = subscribers (client x) /\
                 tick_calls (trace (run_listener (MData (DTick symbol tick)) x l))
                   = (tick_calls (trace x)
                      ++ map (fun cb => (cb, tick)) (callbacks_of symbol x))%list
            else same_ticks x (run_listener (MData (DTick symbol tick)) x l)) as Hl.
    { destruct l; cbn [is_tick_listener run_listener]; try apply same_ticks_refl.
      - apply onTick_calls.
      - now apply emit_same_ticks.
      - now apply call_same_ticks.
      - apply (same_ticks_trans x
                 (upd_socket (sock_off (data_sev (event_name (DTick symbol tick)))
                                (wrapper_is f)) x)).
        + split; reflexivity.
        + now apply call_same_ticks. }
    assert (callbacks_of symbol (run_listener (MData (DTick symbol tick)) x l)
            = callbacks_of symbol x) as Hcb.
    { unfold callbacks_of. destruct (is_tick_listener l);
        destruct Hl as [Hl _]; now rewrite Hl. }
    rewrite Hcb in H2. cbn [filter].
    destruct (is_tick_listener l).
    + destruct Hl as (Hs & Ht). split; [congruence|].
      rewrite H2, Ht. cbn [map concat]. now rewrite <- app_assoc.
    + destruct Hl as (Hs & Ht). split; [congruence|].
      rewrite H2, Ht. reflexivity.
Qed.

Lemma deliver_tick_calls
    (symbol : string) (tick : TickData) (w : World) (s : Socket) :
  socket (client w) = Some s ->
  builtin_only s = setupSocketListeners {| handlers := [] |} ->
  let w' := deliver (MData (DTick symbol tick)) w in
  tick_calls (trace w') =
    (tick_calls (trace w) ++ map (fun cb => (cb, tick)) (callbacks_of symbol w))%list /\
  subscribers (client w') = subscribers (client w).
Proof.
  intros Hs Hb. cbv zeta. unfold deliver. rewrite Hs. cbn [sock_event event_name].
  destruct (listeners_tick symbol tick (listeners_for (data_sev tick_ev) s) w)
    as (H1 & H2).
  split; [|exact H1].
  rewrite H2, ticks_of_builtin, Hb. cbn. now rewrite app_nil_r.
Qed.

(** X12.  An inbound [tick] calls exactly the callbacks subscribed to its
    symbol, once each and in the order of their registration, whatever
    other listeners the socket has; callbacks of other symbols are not
    called, and the registry is left as it is. *)
Theorem tick_reaches_subscribers
    (symbol : string) (tick : TickData) (w : World) (s : Socket) :
  socket (client w) = Some s ->
  builtin_only s = setupSocketListeners {| handlers := [] |} ->
  let w' := deliver (MData (DTick symbol tick)) w in
  tick_calls (trace w') =
    (tick_calls (trace w) ++ map (fun cb => (cb, tick)) (callbacks_of symbol w))%list /\
  subscribers (client w') = subscribers (client w).
Proof. exact (deliver_tick_calls symbol tick w s). Qed.

Lemma tick_reaches_subscribers_witness :
  let tick := {| tick_symbol := "EURUSD"; bid := 1 # 1; ask := 1 # 1;
                 last := 1 # 1; tick_volume := 1 # 1; tick_time := "";
                 tick_spread := 0 # 1; change := 0 # 1; changePercent := 0 # 1 |} in
  let w := subscribe "GBPUSD" 3 (subscribe "EURUSD" 2 (subscribe "EURUSD" 1 online)) in
  let w' := deliver (MData (DTick "EURUSD" tick)) w in
  tick_calls (trace w') =
    (tick_calls (trace w) ++ map (fun cb => (cb, tick)) (callbacks_of "EURUSD" w))%list /\
  subscribers (client w') = subscribers (client w).
Proof.
  cbv zeta.
  apply (tick_reaches_subscribers "EURUSD" _ _
           (setupSocketListeners {| handlers := [] |})).
  - vm_compute. reflexivity.
  - vm_compute. reflexivity.
Defined.

(* ================================================================== *)
(** ** The life of a cache entry *)

Section MapKeys.
Context {K V : Type} (eqb : K -> K -> bool).
Hypothesis eqb_eq : forall a b, eqb a b = true <-> a = b.

Lemma map_get_not_in (k : K) (m : list (K * V)) :
  ~ In k (map fst m) -> map_get eqb k m = None.
Proof.
  induction m as [|[k0 v0] m IH]; simpl; [reflexivity|].
  intros H. destruct (eqb k k0) eqn:E.
  - apply eqb_eq in E. subst. exfalso. apply H. now left.
  - apply IH. intros Hin. apply H. now right.
Qed.

Lemma map_delete_keys (k k' : K) (m : list (K * V)) :
  In k' (map fst (map_delete eqb k m)) -> In k' (map fst m).
Proof.
  induction m as [|[k0 v0] m IH]; simpl; [tauto|].
  destruct (eqb k k0); simpl; [tauto|]. intros [H|H]; auto.
Qed.

Lemma map_delete_NoDup (k : K) (m : list (K * V)) :
  NoDup (map fst m) -> NoDup (map fst (map_delete eqb k m)).
Proof.
  induction m as [|[k0 v0] m IH]; simpl; intros H; [constructor|].
  inversion H as [|? ? Hn Hm]; subst.
  destruct (eqb k k0); [exact Hm|]. simpl. constructor; [|auto].
  intros Hin. apply Hn. eapply map_delete_keys. exact Hin.
Qed.

Lemma map_get_delete_same (k : K) (m : list (K * V)) :
  NoDup (map fst m) -> map_get eqb k (map_delete eqb k m) = None.
Proof.
  induction m as [|[k0 v0] m IH]; simpl; intros H; [reflexivity|].
  inversion H as [|? ? Hn Hm]; subst.
  destruct (eqb k k0) eqn:E.
  - apply eqb_eq in E. subst. now apply map_get_not_in.
  - simpl. rewrite E. auto.
Qed.

Lemma map_set_keys (k k' : K) (v : V) (m : list (K * V)) :
  In k' (map fst (map_set eqb k v m)) -> k' = k \/ In k' (map fst m).
Proof.
  induction m as [|[k0 v0] m IH]; simpl.
  - intros [H|[]]. auto.
  - destruct (eqb k k0) eqn:E; simpl.
    + apply eqb_eq in E. subst. tauto.
    + intros [H|H]; [tauto|]. destruct (IH H); auto.
Qed.

Lemma map_set_NoDup (k : K) (v : V) (m : list (K * V)) :
  NoDup (map fst m) -> NoDup (map fst (map_set eqb k v m)).
Proof.
  induction m as [|[k0 v0] m IH]; simpl; intros H.
  - constructor; [tauto | constructor].
  - inversion H as [|? ? Hn Hm]; subst.
    destruct (eqb k k0) eqn:E; simpl.
    + apply eqb_eq in E. subst. exact H.
    + constructor; [|auto]. intros Hin.
      destruct (map_set_keys _ _ _ _ Hin) as [->|Hin']; [|auto].
      rewrite eqb_refl_gen in E by exact eqb_eq. discriminate.
Qed.
End MapKeys.

Lemma clearTimeout_hook t w :
  reactions (clearTimeout t w) = reactions w /\
  candlesCache (clearTimeout t w) = candlesCache w /\
  candlesPromises (clearTimeout t w) = candlesPromises w.
Proof. unfold clearTimeout. destruct (nth_error _ _); auto. Qed.

Lemma clearTimeout_connected t w : connected (clearTimeout t w) = connected w.
Proof. unfold connected. now rewrite clearTimeout_client. Qed.

(** The [then] callback of a fetch that resolved. *)
Lemma react_resolved_fields w q key p candles :
  promise_state q w = Some (Resolved (VCandles candles)) ->
  let w1 := react w (q, key, p) in
  candlesCache w1 = map_set String.eqb key candles (candlesCache w) /\
  candlesPromises w1 = map_delete String.eqb key (candlesPromises w) /\
  timers w1 =
    (timers w ++ [{| action := TCacheExpire key; delay := 30000 # 1;
                     armed := true |}])%list /\
  trace w1 = trace w /\
  client w1 = client w /\
  length (promises w1) = length (promises w).
Proof.
  intros Hq. cbv zeta. unfold react. rewrite Hq. unfold setTimeout, resolve.
  cbv beta iota zeta.
  match goal with |- context [settle ?a ?b ?x] =>
    destruct (settle_hook a b x) as (_ & H2 & H3);
    pose proof (settle_timers a b x) as H4;
    pose proof (settle_trace a b x) as H5;
    pose proof (settle_client a b x) as H6;
    assert (length (promises (settle a b x)) = length (promises x)) as H7
      by (unfold settle; destruct (is_pending a x); cbn;
          rewrite ?list_set_length; reflexivity);
    remember (settle a b x) as y eqn:E; clear E
  end.
  cbn in *. repeat split; assumption.
Qed.

Lemma react_markers w r :
  NoDup (map fst (candlesPromises w)) ->
  NoDup (map fst (candlesPromises (react w r))).
Proof.
  intros H. destruct r as [[q key] p]. unfold react.
  destruct (promise_state q w) as [[v|e]|]; try exact H.
  - destruct v; try exact H. unfold setTimeout, resolve. cbv beta iota zeta.
    match goal with |- context [settle ?a ?b ?x] =>
      destruct (settle_hook a b x) as (_ & _ & ->)
    end.
    cbn. now apply map_delete_NoDup.
  - unfold reject.
    match goal with |- context [settle ?a ?b ?x] =>
      destruct (settle_hook a b x) as (_ & _ & ->)
    end.
    cbn. now apply map_delete_NoDup.
Qed.

Lemma fold_react_markers (rs : list (nat * string * nat)) : forall w,
  NoDup (map fst (candlesPromises w)) ->
  NoDup (map fst (candlesPromises (fold_left react rs w))).
Proof.
  induction rs as [|r rs IH]; intros w H; simpl; [exact H|].
  apply IH. now apply react_markers.
Qed.

Lemma fire_cache_expire t key d x :
  timer_pending t x = Some (TCacheExpire key, d) ->
  fire t x =
  set_candlesCache (map_delete String.eqb key (candlesCache (clearTimeout t x)))
    (clearTimeout t x).
Proof. intros H. unfold fire. now rewrite H. Qed.

Lemma fire_candles_timeout t q h d x :
  timer_pending t x = Some (TCandlesTimeout q h, d) ->
  fire t x =
  resolve q (VCandles [])
    (upd_socket (sock_off (data_sev candles_ev) (listener_is h)) (clearTimeout t x)).
Proof. intros H. unfold fire. now rewrite H. Qed.

(** X13.  The life of a cache entry: when the fetch resolves, the list
    is stored under the key and a 30 s timer is armed; until the timer
    fires every call for the key is answered from the cache without a
    request and without any change of state; when it fires the entry is
    removed, and the next call of a connected client sends a new
    request. *)
Theorem cache_entry_expires
    (symbol timeframe : string) (count q p : nat) (candles : list CandleData)
    (w : World)
    (Hq : promise_state q w = Some (Resolved (VCandles candles)))
    (Hcache : NoDup (map fst (candlesCache w)))
    (Hmarkers : NoDup (map fst (candlesPromises w))) :
  let key := cacheKey symbol timeframe count in
  let t := length (timers w) in
  let w1 := react w (q, key, p) in
  let w2 := fire t w1 in
  getCandlesWithCache symbol timeframe count w1 = (Ready candles, w1) /\
  timer_pending t w1 = Some (TCacheExpire key, 30000 # 1) /\
  map_get String.eqb key (candlesCache w2) = None /\
  timer_pending t w2 = None /\
  (connected w = true ->
   trace (snd (getCandlesWithCache symbol timeframe count w2)) =
     (trace w ++ [Sent (OGetCandles symbol timeframe count)])%list).
Proof.
  cbv zeta.
  destruct (react_resolved_fields w q (cacheKey symbol timeframe count) p candles Hq)
    as (Hc1 & Hm1 & Ht1 & Htr1 & Hcl1 & _).
  remember (react w (q, cacheKey symbol timeframe count, p)) as w1 eqn:E. clear E.
  assert (map_get String.eqb (cacheKey symbol timeframe count) (candlesPromises w1)
          = None) as Hnone.
  { rewrite Hm1. now apply (map_get_delete_same String.eqb String.eqb_eq). }
  assert (timer_pending (length (timers w)) w1
          = Some (TCacheExpire (cacheKey symbol timeframe count), 30000 # 1)) as Hp.
  { unfold timer_pending. rewrite Ht1. now rewrite nth_error_last. }
  split; [|split; [exact Hp|]].
  { unfold getCandlesWithCache. cbv zeta. rewrite Hnone, Hc1.
    now rewrite (map_get_set_same String.eqb String.eqb_eq). }
  rewrite (fire_cache_expire _ _ _ _ Hp).
  destruct (clearTimeout_hook (length (timers w)) w1) as (_ & Hc2 & Hm2).
  pose proof (clearTimeout_disarms (length (timers w)) w1) as Hd.
  pose proof (clearTimeout_trace (length (timers w)) w1) as Htr2.
  pose proof (clearTimeout_connected (length (timers w)) w1) as Hcn.
  remember (clearTimeout (length (timers w)) w1) as x eqn:E. clear E.
  assert (map_get String.eqb (cacheKey symbol timeframe count)
            (map_delete String.eqb (cacheKey symbol timeframe count) (candlesCache x))
          = None) as Hgone.
  { rewrite Hc2, Hc1, (map_delete_set String.eqb String.eqb_eq).
    now apply (map_get_delete_same String.eqb String.eqb_eq). }
  split; [exact Hgone|]. split; [exact Hd|].
  intros Hconn.
  destruct (cache_miss symbol timeframe count
              (set_candlesCache
                 (map_delete String.eqb (cacheKey symbol timeframe count)
                    (candlesCache x)) x)) as (x1 & E1 & T1 & _).
  - change (connected x = true). rewrite Hcn. unfold connected. now rewrite Hcl1.
  - cbn. now rewrite Hm2.
  - exact Hgone.
  - rewrite E1. cbn [snd]. rewrite T1. cbn. now rewrite Htr2, Htr1.
Qed.

Lemma cache_entry_expires_witness :
  let w := snd (getCandles "EURUSD" "M5" 100 initial) in
  let key := cacheKey "EURUSD" "M5" 100 in
  let w1 := react w (0, key, 1) in
  getCandlesWithCache "EURUSD" "M5" 100 w1 = (Ready [], w1).
Proof.
  apply (cache_entry_expires "EURUSD" "M5" 100 0 1 []
           (snd (getCandles "EURUSD" "M5" 100 initial))).
  - vm_compute. reflexivity.
  - vm_compute. constructor.
  - vm_compute. constructor.
Defined.

Lemma list_set_last {A : Type} (l : list A) (x y : A) :
  list_set (length l) x (l ++ [y]) = (l ++ [x])%list.
Proof. induction l as [|a l IH]; simpl; [reflexivity | now rewrite IH]. Qed.

(** The microtask checkpoint after the newest fetch has resolved. *)
Lemma drain_completes symbol timeframe count candles N rs y :
  reactions y = (rs ++ [(N, cacheKey symbol timeframe count, S N)])%list ->
  (forall r, In r rs -> fst (fst r) < N /\ snd r < N) ->
  promise_state N y = Some (Resolved (VCandles candles)) ->
  is_pending (S N) y = true ->
  NoDup (map fst (candlesPromises y)) ->
  let w2 := drain y in
  promise_state (S N) w2 = Some (Resolved (VCandles candles)) /\
  map_get String.eqb (cacheKey symbol timeframe count) (candlesCache w2)
    = Some candles /\
  getCandlesWithCache symbol timeframe count w2 = (Ready candles, w2).
Proof.
  intros Hre Hrs Hq Hp Hnd. cbv zeta.
  assert (exists z,
            drain y = react z (N, cacheKey symbol timeframe count, S N) /\
            (forall k, N <= k ->
               nth_error (promises z) k = nth_error (promises y) k) /\
            NoDup (map fst (candlesPromises z))) as Hd.
  { unfold drain. cbv zeta. rewrite Hre, !filter_app. cbn [filter].
    assert (source_settled y (N, cacheKey symbol timeframe count, S N) = true)
      as Hset by (unfold source_settled; cbn [fst]; now rewrite Hq).
    rewrite Hset. cbn [negb]. rewrite fold_left_app. cbn [fold_left].
    eexists. split; [reflexivity|]. split.
    - intros k Hk. rewrite fold_react_nth_other; [reflexivity|].
      intros r Hr. apply filter_In in Hr. destruct Hr as [Hr _].
      destruct (Hrs r Hr). lia.
    - apply fold_react_markers. exact Hnd. }
  destruct Hd as (z & -> & Hfold & Hndz).
  assert (promise_state N z = Some (Resolved (VCandles candles))) as Hqz.
  { unfold promise_state in *. now rewrite Hfold by lia. }
  assert (is_pending (S N) z = true) as Hpz.
  { unfold is_pending in *. now rewrite Hfold by lia. }
  destruct (react_resolved z N (cacheKey symbol timeframe count) (S N) candles Hqz Hpz)
    as (R1 & R2).
  destruct (react_resolved_fields z N (cacheKey symbol timeframe count) (S N)
              candles Hqz) as (_ & Hm & _).
  split; [exact R1|]. split; [exact R2|].
  unfold getCandlesWithCache. cbv zeta. rewrite Hm.
  rewrite (map_get_delete_same String.eqb String.eqb_eq) by exact Hndz.
  now rewrite R2.
Qed.

Lemma cache_miss_timer symbol timeframe count w :
  connected w = true ->
  map_get String.eqb (cacheKey symbol timeframe count) (candlesPromises w) = None ->
  map_get String.eqb (cacheKey symbol timeframe count) (candlesCache w) = None ->
  timer_pending (length (timers w))
    (snd (getCandlesWithCache symbol timeframe count w)) =
  Some (TCandlesTimeout (length (promises w))
          (CbCandles (length (promises w)) (length (timers w)) symbol timeframe),
        10000 # 1).
Proof.
  intros Hc Hp Hk. unfold getCandlesWithCache. cbv zeta.
  rewrite Hp, Hk. unfold getCandles, new_promise, setTimeout.
  cbv beta iota zeta.
  replace (connected (set_promises (promises w ++ [None]) w)) with (connected w)
    by reflexivity.
  rewrite Hc. cbv beta iota zeta. unfold timer_pending. cbn.
  now rewrite nth_error_last.
Qed.

Lemma cache_miss_offline symbol timeframe count w :
  connected w = false ->
  map_get String.eqb (cacheKey symbol timeframe count) (candlesPromises w) = None ->
  map_get String.eqb (cacheKey symbol timeframe count) (candlesCache w) = None ->
  exists w1,
    getCandlesWithCache symbol timeframe count w
      = (Awaiting (S (length (promises w))), w1) /\
    trace w1 = trace w /\
    candlesPromises w1 =
      map_set String.eqb (cacheKey symbol timeframe count) (S (length (promises w)))
        (candlesPromises w) /\
    reactions w1 =
      (reactions w ++
       [(length (promises w), cacheKey symbol timeframe count,
         S (length (promises w)))])%list /\
    promises w1 = (promises w ++ [Some (Resolved (VCandles [])); None])%list.
Proof.
  intros Hc Hp Hk. eexists. unfold getCandlesWithCache. cbv zeta.
  rewrite Hp, Hk. unfold getCandles, new_promise.
  cbv beta iota zeta.
  replace (connected (set_promises (promises w ++ [None]) w)) with (connected w)
    by reflexivity.
  rewrite Hc. cbv beta iota zeta. unfold resolve, settle, is_pending.
  cbn [promises set_promises]. rewrite nth_error_last, list_set_last.
  cbn [promises set_promises].
  split.
  - rewrite length_app. cbn [length]. rewrite Nat.add_1_r. reflexivity.
  - cbn. rewrite <- app_assoc. repeat split; reflexivity.
Qed.

Lemma nth_error_two {A : Type} (l : list A) (a b : A) :
  nth_error (l ++ [a; b]) (length l) = Some a /\
  nth_error (l ++ [a; b]) (S (length l)) = Some b.
Proof.
  split.
  - change [a; b] with ([a] ++ [b])%list.
    rewrite app_assoc, nth_error_app1 by (rewrite length_app; simpl; lia).
    apply nth_error_last.
  - change [a; b] with ([a] ++ [b])%list. rewrite app_assoc.
    replace (S (length l)) with (length (l ++ [a]))
      by (rewrite length_app; simpl; lia).
    apply nth_error_last.
Qed.

(** X14.  A fetch the server never answers is cached as an empty list:
    the 10 s timeout resolves the promise of [getCandles] with [[]], the
    [then] callback stores [[]] under the key, and the next call for the
    key is answered with [[]] from the cache, without a request. *)
Theorem timed_out_fetch_is_cached
    (symbol timeframe : string) (count : nat) (w : World)
    (Hconn : connected w = true)
    (Hmarker : map_get String.eqb (cacheKey symbol timeframe count)
                 (candlesPromises w) = None)
    (Hcache : map_get String.eqb (cacheKey symbol timeframe count)
                (candlesCache w) = None)
    (Hids : handles_allocated w = true)
    (Hmarkers : NoDup (map fst (candlesPromises w))) :
  let key := cacheKey symbol timeframe count in
  let p := S (length (promises w)) in
  let w1 := snd (getCandlesWithCache symbol timeframe count w) in
  let w2 := drain (fire (length (timers w)) w1) in
  fst (getCandlesWithCache symbol timeframe count w) = Awaiting p /\
  promise_state p w2 = Some (Resolved (VCandles [])) /\
  map_get String.eqb key (candlesCache w2) = Some [] /\
  getCandlesWithCache symbol timeframe count w2 = (Ready [], w2).
Proof.
  cbv zeta.
  pose proof (cache_miss_timer symbol timeframe count w Hconn Hmarker Hcache) as Ht.
  destruct (cache_miss symbol timeframe count w Hconn Hmarker Hcache)
    as (w1 & Ecall & _ & Hcp & _ & Hre & Hpr & _).
  rewrite Ecall in *. cbn [fst snd] in *.
  split; [reflexivity|].
  rewrite (fire_candles_timeout _ _ _ _ _ Ht).
  destruct (handles_allocated_spec w Hids) as (_ & _ & Hreact).
  destruct (nth_error_two (promises w) (@None Outcome) None) as (HN & HSN).
  rewrite <- Hpr in HN, HSN.
  match goal with |- context [resolve ?q ?v ?x] =>
    assert (promises x = promises w1) as Hpx
      by (cbn [promises upd_socket upd_client]; apply clearTimeout_promises);
    assert (reactions x = reactions w1 /\ candlesPromises x = candlesPromises w1)
      as (Hrx & Hmx)
      by (destruct (clearTimeout_hook (length (timers w)) w1) as (A & _ & C);
          split; [exact A | exact C]);
    remember x as x0 eqn:E; clear E
  end.
  unfold resolve.
  destruct (settle_hook (length (promises w)) (Resolved (VCandles [])) x0)
    as (Hry & _ & Hmy).
  apply (drain_completes symbol timeframe count [] (length (promises w))
           (reactions w)).
  - now rewrite Hry, Hrx.
  - exact Hreact.
  - apply settle_pending. unfold is_pending. now rewrite Hpx, HN.
  - unfold is_pending. rewrite settle_nth_other by lia. now rewrite Hpx, HSN.
  - rewrite Hmy, Hmx, Hcp. now apply (map_set_NoDup String.eqb String.eqb_eq).
Qed.

Lemma timed_out_fetch_is_cached_witness :
  let w1 := snd (getCandlesWithCache "EURUSD" "M5" 100 online) in
  let w2 := drain (fire (length (timers online)) w1) in
  getCandlesWithCache "EURUSD" "M5" 100 w2 = (Ready [], w2).
Proof.
  apply (timed_out_fetch_is_cached "EURUSD" "M5" 100 online).
  - vm_compute. reflexivity.
  - vm_compute. reflexivity.
  - vm_compute. reflexivity.
  - vm_compute. reflexivity.
  - vm_compute. constructor.
Defined.

(** X15.  A fetch made while the client is not connected is cached as
    an empty list too: [getCandles] resolves with [[]] at once, nothing is
    sent, and after the microtask checkpoint the key is answered with [[]]
    from the cache. *)
Theorem offline_fetch_is_cached
    (symbol timeframe : string) (count : nat) (w : World)
    (Hconn : connected w = false)
    (Hmarker : map_get String.eqb (cacheKey symbol timeframe count)
                 (candlesPromises w) = None)
    (Hcache : map_get String.eqb (cacheKey symbol timeframe count)
                (candlesCache w) = None)
    (Hids : handles_allocated w = true)
    (Hmarkers : NoDup (map fst (candlesPromises w))) :
  let key := cacheKey symbol timeframe count in
  let p := S (length (promises w)) in
  let w1 := snd (getCandlesWithCache symbol timeframe count w) in
  let w2 := drain w1 in
  fst (getCandlesWithCache symbol timeframe count w) = Awaiting p /\
  trace w1 = trace w /\
  promise_state p w2 = Some (Resolved (VCandles [])) /\
  map_get String.eqb key (candlesCache w2) = Some [] /\
  getCandlesWithCache symbol timeframe count w2 = (Ready [], w2).
Proof.
  cbv zeta.
  destruct (cache_miss_offline symbol timeframe count w Hconn Hmarker Hcache)
    as (w1 & Ecall & Htr & Hcp & Hre & Hpr).
  rewrite Ecall in *. cbn [fst snd] in *.
  split; [reflexivity|]. split; [exact Htr|].
  destruct (handles_allocated_spec w Hids) as (_ & _ & Hreact).
  destruct (nth_error_two (promises w) (Some (Resolved (VCandles []))) None)
    as (HN & HSN).
  rewrite <- Hpr in HN, HSN.
  apply (drain_completes symbol timeframe count [] (length (promises w))
           (reactions w)).
  - exact Hre.
  - exact Hreact.
  - unfold promise_state. now rewrite HN.
  - unfold is_pending. now rewrite HSN.
  - rewrite Hcp. now apply (map_set_NoDup String.eqb String.eqb_eq).
Qed.

Lemma offline_fetch_is_cached_witness :
  let w1 := snd (getCandlesWithCache "EURUSD" "M5" 100 initial) in
  let w2 := drain w1 in
  getCandlesWithCache "EURUSD" "M5" 100 w2 = (Ready [], w2).
Proof.
  apply (offline_fetch_is_cached "EURUSD" "M5" 100 initial).
  - vm_compute. reflexivity.
  - vm_compute. reflexivity.
  - vm_compute. reflexivity.
  - vm_compute. reflexivity.
  - vm_compute. constructor.
Defined.

(* ================================================================== *)
(** ** Error codes *)




(* ================================================================== *)
(** ** The subscription manager *)

Lemma subscribe_socket symbol cb w :
  socket (client (subscribe symbol cb w)) = socket (client w).
Proof.
  unfold subscribe. destruct (map_has _ _ _).
  - unfold subscribers_add. cbn. destruct (map_get _ _ _); reflexivity.
  - unfold sendSubscribe.
    replace (connected (upd_client _ w)) with (connected w) by reflexivity.
    destruct (connected w); unfold subscribers_add; cbn;
      destruct (map_get _ _ _); reflexivity.
Qed.

Lemma unsubscribe_socket symbol cb w :
  socket (client (unsubscribe symbol cb w)) = socket (client w).
Proof.
  unfold unsubscribe. destruct (map_get _ _ _) as [l|]; [|reflexivity].
  destruct cb as [c|].
  - destruct (set_delete Nat.eqb c l); [|reflexivity].
    unfold sendUnsubscribe.
    match goal with |- context [connected ?x] => destruct (connected x) end;
      reflexivity.
  - unfold sendUnsubscribe.
    match goal with |- context [connected ?x] => destruct (connected x) end;
      reflexivity.
Qed.

Lemma subscribe_callbacks symbol cb w :
  map_has String.eqb symbol (subscribers (client w)) = true ->
  callbacks_of symbol (subscribe symbol cb w) =
  set_add Nat.eqb cb (callbacks_of symbol w).
Proof.
  intros Hhas. unfold subscribe, callbacks_of. rewrite Hhas.
  unfold map_has in Hhas. unfold subscribers_add.
  destruct (map_get String.eqb symbol (subscribers (client w))) as [l|] eqn:E;
    [|discriminate].
  cbn. rewrite E. cbn. now rewrite (map_get_set_same String.eqb String.eqb_eq).
Qed.

(** X17.  The manager shares the client with the other hooks.  When a
    symbol already has callbacks on the client, the first subscription of
    the manager adds its dispatcher to them and sends nothing; when the
    manager's last callback for the symbol is removed it calls
    [wsClient.unsubscribe(symbol)] without a callback, which deletes every
    callback of the symbol on the client, also those the manager did not
    register: the next tick for the symbol calls nobody. *)
Theorem manager_unsubscribe_drops_direct
    (symbol : string) (cb dispatcher : nat) (tick : TickData)
    (m : list (string * list nat)) (w : World) (s : Socket) :
  map_has String.eqb symbol m = false ->
  unique_entry symbol w ->
  socket (client w) = Some s ->
  builtin_only s = setupSocketListeners {| handlers := [] |} ->
  let st1 := manager_subscribe symbol cb dispatcher (m, w) in
  let st2 := manager_unsubscribe symbol cb st1 in
  let w3 := deliver (MData (DTick symbol tick)) (snd st2) in
  trace (snd st1) = trace w /\
  callbacks_of symbol (snd st1) = set_add Nat.eqb dispatcher (callbacks_of symbol w) /\
  dispatch (fst st1) symbol tick = [(cb, tick)] /\
  map_has String.eqb symbol (fst st2) = false /\
  callbacks_of symbol (snd st2) = [] /\
  trace (snd st2) =
    (trace w ++ if connected w then [Sent (OUnsubscribe symbol)] else [])%list /\
  tick_calls (trace w3) = tick_calls (trace (snd st2)).
Proof.
  intros Hm Hu Hs Hb. cbv zeta.
  unfold manager_subscribe. rewrite Hm. cbn [fst snd].
  rewrite (map_get_set_same String.eqb String.eqb_eq). cbn [set_add set_has app].
  destruct (subscribe_again symbol dispatcher w Hu) as (Hu1 & Hc1 & Htr1 & _).
  pose proof (subscribe_callbacks symbol dispatcher w (proj1 Hu)) as Hcb1.
  pose proof (subscribe_socket symbol dispatcher w) as Hs1.
  remember (subscribe symbol dispatcher w) as w1 eqn:E. clear E.
  split; [exact Htr1|]. split; [exact Hcb1|].
  split.
  { unfold dispatch. now rewrite (map_get_set_same String.eqb String.eqb_eq). }
  unfold manager_unsubscribe.
  rewrite (map_get_set_same String.eqb String.eqb_eq).
  cbn [set_delete]. rewrite Nat.eqb_refl. cbn [fst snd].
  destruct (unsubscribe_final symbol None w1 Hu1 I) as (Hhas & Htr2 & _ & _).
  pose proof (unsubscribe_socket symbol None w1) as Hs2.
  remember (unsubscribe symbol None w1) as w2 eqn:E. clear E.
  assert (callbacks_of symbol w2 = []) as Hnone.
  { unfold callbacks_of. unfold map_has in Hhas.
    destruct (map_get String.eqb symbol (subscribers (client w2)));
      [discriminate | reflexivity]. }
  split.
  { rewrite !(map_delete_set String.eqb String.eqb_eq).
    unfold map_has in *.
    destruct (map_get String.eqb symbol m) eqn:Eg; [discriminate|].
    now rewrite (map_get_none_delete String.eqb _ _ Eg), Eg. }
  split; [exact Hnone|].
  split; [rewrite Htr2, Htr1, Hc1; reflexivity|].
  destruct (deliver_tick_calls symbol tick w2 s) as (Ht & _).
  - congruence.
  - exact Hb.
  - rewrite Ht, Hnone. apply app_nil_r.
Qed.

Lemma manager_unsubscribe_drops_direct_witness :
  let tick := {| tick_symbol := "EURUSD"; bid := 1 # 1; ask := 1 # 1;
                 last := 1 # 1; tick_volume := 1 # 1; tick_time := "";
                 tick_spread := 0 # 1; change := 0 # 1; changePercent := 0 # 1 |} in
  let w := subscribe "EURUSD" 9 online in
  let st1 := manager_subscribe "EURUSD" 1 2 ([], w) in
  let st2 := manager_unsubscribe "EURUSD" 1 st1 in
  let w3 := deliver (MData (DTick "EURUSD" tick)) (snd st2) in
  trace (snd st1) = trace w /\
  callbacks_of "EURUSD" (snd st1) = set_add Nat.eqb 2 (callbacks_of "EURUSD" w) /\
  dispatch (fst st1) "EURUSD" tick = [(1, tick)] /\
  map_has String.eqb "EURUSD" (fst st2) = false /\
  callbacks_of "EURUSD" (snd st2) = [] /\
  trace (snd st2) =
    (trace w ++ if connected w then [Sent (OUnsubscribe "EURUSD")] else [])%list /\
  tick_calls (trace w3) = tick_calls (trace (snd st2)).
Proof.
  cbv zeta.
  apply (manager_unsubscribe_drops_direct "EURUSD" 1 2 _ [] _
           (setupSocketListeners {| handlers := [] |})).
  - vm_compute. reflexivity.
  - split; vm_compute; reflexivity.
  - vm_compute. reflexivity.
  - vm_compute. reflexivity.
Defined.

(* ================================================================== *)
(** ** The reducer of the market-data context *)

Lemma set_delete_has_same (k : string) (s : list string) :
  NoDup s -> set_has String.eqb k (set_delete String.eqb k s) = false.
Proof.
  induction s as [|a s IH]; simpl; intros H; [reflexivity|].
  inversion H as [|? ? Hn Hs]; subst.
  destruct (String.eqb k a) eqn:E.
  - apply String.eqb_eq in E. subst.
    destruct (set_has String.eqb a s) eqn:Eh; [|reflexivity].
    apply (set_has_In String.eqb String.eqb_eq) in Eh. contradiction.
  - simpl. rewrite E. auto.
Qed.

Lemma set_delete_In_string (k x : string) (s : list string) :
  In x (set_delete String.eqb k s) -> In x s.
Proof.
  induction s as [|a s IH]; simpl; [tauto|].
  destruct (String.eqb k a); simpl; [tauto|]. intros [H|H]; auto.
Qed.

Lemma set_delete_NoDup (k : string) (s : list string) :
  NoDup s -> NoDup (set_delete String.eqb k s).
Proof.
  induction s as [|a s IH]; simpl; intros H; [constructor|].
  inversion H as [|? ? Hn Hs]; subst.
  destruct (String.eqb k a); [exact Hs|]. constructor; [|auto].
  intros Hin. apply Hn. eapply set_delete_In_string. exact Hin.
Qed.

(** X18.  [REMOVE_SYMBOL] forgets the subscription, the market data and
    the order book of the symbol and of no other symbol; the symbol stays
    in the list of symbols, which the action does not touch. *)
Theorem reducer_remove_symbol
    (state : MarketDataContext.MarketDataState) (symbol : string) :
  MarketDataContext.well_formed state ->
  let state' :=
    MarketDataContext.marketDataReducer state
      (MarketDataContext.REMOVE_SYMBOL symbol) in
  MarketDataContext.isSubscribed state' symbol = false /\
  MarketDataContext.getMarketData state' symbol = None /\
  MarketDataContext.getOrderBook state' symbol = None /\
  MarketDataContext.symbols state' = MarketDataContext.symbols state /\
  forall other, other <> symbol ->
    MarketDataContext.isSubscribed state' other
      = MarketDataContext.isSubscribed state other /\
    MarketDataContext.getMarketData state' other
      = MarketDataContext.getMarketData state other /\
    MarketDataContext.getOrderBook state' other
      = MarketDataContext.getOrderBook state other.
Proof.
  intros (_ & Hsub & Hmd & Hob). cbv zeta.
  unfold MarketDataContext.isSubscribed, MarketDataContext.getMarketData,
    MarketDataContext.getOrderBook. cbn.
  split; [now apply set_delete_has_same|].
  split; [now apply (map_get_delete_same String.eqb String.eqb_eq)|].
  split; [now apply (map_get_delete_same String.eqb String.eqb_eq)|].
  split; [reflexivity|].
  intros other Hn. split; [|split].
  - now apply (set_delete_has_other String.eqb String.eqb_eq).
  - apply (map_get_delete_other String.eqb String.eqb_eq). congruence.
  - apply (map_get_delete_other String.eqb String.eqb_eq). congruence.
Qed.

Lemma reducer_remove_symbol_witness :
  MarketDataContext.isSubscribed
    (MarketDataContext.marketDataReducer
       (MarketDataContext.marketDataReducer MarketDataContext.initialState
          (MarketDataContext.ADD_SYMBOL "EURUSD"))
       (MarketDataContext.REMOVE_SYMBOL "EURUSD")) "EURUSD" = false.
Proof.
  apply (reducer_remove_symbol
           (MarketDataContext.marketDataReducer MarketDataContext.initialState
              (MarketDataContext.ADD_SYMBOL "EURUSD")) "EURUSD").
  repeat split; vm_compute;
    repeat (constructor; [simpl; intuition discriminate|]); constructor.
Defined.

Lemma reducer_step_well_formed state action :
  MarketDataContext.well_formed state ->
  (forall l, action = MarketDataContext.SET_SYMBOLS l -> NoDup l) ->
  MarketDataContext.well_formed (MarketDataContext.marketDataReducer state action).
Proof.
  intros (H1 & H2 & H3 & H4) Hset. unfold MarketDataContext.well_formed.
  destruct action; cbn; repeat split; auto;
    try constructor;
    try (now apply (map_set_NoDup String.eqb String.eqb_eq));
    try (now apply (map_delete_NoDup String.eqb));
    try (now apply set_delete_NoDup);
    try (now apply (set_add_NoDup String.eqb String.eqb_eq)).
Qed.

Lemma reducer_step_grows state action :
  MarketDataContext.replaces_symbols action = false ->
  incl (MarketDataContext.symbols state)
       (MarketDataContext.symbols (MarketDataContext.marketDataReducer state action)).
Proof.
  intros H. destruct action; cbn; try apply incl_refl; try discriminate.
  destruct (set_has String.eqb payload (MarketDataContext.symbols state));
    [apply incl_refl | apply incl_appl, incl_refl].
Qed.

(** X19.  Over any sequence of actions the state of the context stays
    well formed, provided every [SET_SYMBOLS] payload is free of
    duplicates: [ADD_SYMBOL] never lists a symbol twice.  Without
    [SET_SYMBOLS] the list of symbols only grows: [REMOVE_SYMBOL] and
    [CLEAR_DATA] never remove a symbol from it. *)
Theorem reducer_invariants
    (actions : list MarketDataContext.MarketDataAction)
    (state : MarketDataContext.MarketDataState) :
  MarketDataContext.well_formed state ->
  let state' := fold_left MarketDataContext.marketDataReducer actions state in
  ((forall l, In (MarketDataContext.SET_SYMBOLS l) actions -> NoDup l) ->
   MarketDataContext.well_formed state') /\
  (forallb (fun a => negb (MarketDataContext.replaces_symbols a)) actions = true ->
   incl (MarketDataContext.symbols state) (MarketDataContext.symbols state')).
Proof.
  revert state. induction actions as [|a actions IH]; intros state Hwf; cbv zeta.
  - split; [intros _; exact Hwf | intros _; apply incl_refl].
  - cbn [fold_left]. split.
    + intros Hset.
      apply IH.
      * apply reducer_step_well_formed; [exact Hwf|].
        intros l ->. apply Hset. now left.
      * intros l Hl. apply Hset. now right.
    + intros Hno. cbn in Hno. apply andb_prop in Hno. destruct Hno as [Ha Hr].
      apply negb_true_iff in Ha.
      eapply incl_tran; [apply reducer_step_grows; exact Ha|].
      apply IH; [|exact Hr].
      apply reducer_step_well_formed; [exact Hwf|].
      intros l ->. discriminate.
Qed.

Lemma reducer_invariants_witness :
  MarketDataContext.well_formed
    (fold_left MarketDataContext.marketDataReducer
       [MarketDataContext.ADD_SYMBOL "EURUSD"; MarketDataContext.ADD_SYMBOL "SOLUSD";
        MarketDataContext.REMOVE_SYMBOL "EURUSD"; MarketDataContext.CLEAR_DATA]
       MarketDataContext.initialState).
Proof.
  apply (reducer_invariants
           [MarketDataContext.ADD_SYMBOL "EURUSD"; MarketDataContext.ADD_SYMBOL "SOLUSD";
            MarketDataContext.REMOVE_SYMBOL "EURUSD"; MarketDataContext.CLEAR_DATA]
           MarketDataContext.initialState).
  - repeat split; vm_compute;
      repeat (constructor; [simpl; intuition discriminate|]); constructor.
  - intros l [H|[H|[H|[H|[]]]]]; discriminate.
Defined.

(* ================================================================== *)
(** ** The response of a pull query *)

Lemma delivered_serving n q v h x y :
  n <= q -> delivered n x y -> serving n q v h x -> serving n q v h y.
Proof.
  intros Hq [_ _ _ Hp Hb] [Ha Hbus]. split.
  - unfold awaiting in *. now rewrite Hp.
  - intros e g Hg. apply (Hbus e). now apply Hb.
Qed.

Lemma resolve_awaiting q v y :
  awaiting q v y ->
  promise_state q (resolve q v y) = Some (Resolved v) /\
  awaiting q v (resolve q v y).
Proof.
  intros [H|H].
  - assert (promise_state q (resolve q v y) = Some (Resolved v)) as Hr.
    { apply settle_pending. unfold is_pending. now rewrite H. }
    split; [exact Hr|]. right. unfold promise_state in Hr.
    destruct (nth_error (promises (resolve q v y)) q) as [[o|]|]; congruence.
  - unfold resolve, settle, is_pending, promise_state. rewrite H.
    split; [now rewrite H | now right].
Qed.

(** The handler of a query called with the response the query waits for:
    it clears the timer, deregisters itself and resolves the promise. *)
Lemma handler_answers n k q t d v x :
  answers k d = Some v ->
  exists y,
    call (query_handler k q t) d x = resolve q v y /\
    delivered n x y /\ timer_pending t y = None.
Proof.
  intros Ha.
  assert (forall e f, timer_pending t
            (off e f (clearTimeout t (log (Invoked (query_handler k q t) d) x)))
          = None) as Hoff.
  { intros e f.
    rewrite (timer_pending_quiet t _ _ (quiet_timers _ _ (off_quiet e f _))).
    apply clearTimeout_disarms. }
  assert (forall e f, delivered n x
            (off e f (clearTimeout t (log (Invoked (query_handler k q t) d) x))))
    as Hdel.
  { intros e f.
    eapply delivered_trans; [|apply off_delivered].
    eapply delivered_trans; [apply log_delivered | apply clearTimeout_delivered]. }
  destruct k, d; try discriminate; cbn [answers] in Ha; cbn [query_handler] in *.
  - inversion Ha; subst. cbn [call]. eexists. split; [reflexivity|].
    split; [apply Hdel | apply Hoff].
  - destruct (String.eqb symbol0 symbol && String.eqb timeframe0 timeframe) eqn:E;
      [|discriminate].
    inversion Ha; subst. cbn [call]. rewrite E. eexists. split; [reflexivity|].
    split.
    + eapply delivered_trans; [|apply upd_socket_delivered].
      eapply delivered_trans; [apply log_delivered | apply clearTimeout_delivered].
    + apply (clearTimeout_disarms t).
  - destruct (String.eqb symbol0 symbol) eqn:E; [|discriminate].
    inversion Ha; subst. cbn [call]. rewrite E. eexists. split; [reflexivity|].
    split; [apply Hdel | apply Hoff].
  - inversion Ha; subst. cbn [call]. eexists. split; [reflexivity|].
    split; [apply Hdel | apply Hoff].
Qed.

Lemma resolve_serving n q v h y :
  serving n q v h y -> serving n q v h (resolve q v y).
Proof.
  intros [Ha Hb]. split; [now apply resolve_awaiting|].
  intros e g. unfold resolve. rewrite settle_client. apply Hb.
Qed.

Lemma handler_below n k q t : n <= q -> below n (cb_promise (query_handler k q t)) = false.
Proof.
  intros H. destruct k; cbn; apply Nat.ltb_ge; exact H.
Qed.

Lemma wraps_below n h f :
  below n (cb_promise h) = false -> wraps h f = true ->
  below n (cb_promise f) = false.
Proof.
  intros Hh. induction f; cbn [wraps]; intros H;
    apply orb_true_iff in H; destruct H as [H|H];
    try (apply Callback_eqb_eq in H; subst h; exact Hh);
    try discriminate.
  cbn [cb_promise]. now apply IHf.
Qed.

(** Calling an allowed callback with the response. *)
Lemma call_allowed n k q t d v :
  n <= q -> answers k d = Some v ->
  forall f x,
    allowed n (query_handler k q t) f ->
    serving n q v (query_handler k q t) x ->
    serving n q v (query_handler k q t) (call f d x) /\
    (wraps (query_handler k q t) f = true ->
     promise_state q (call f d x) = Some (Resolved v) /\
     timer_pending t (call f d x) = None).
Proof.
  intros Hq Ha. set (h := query_handler k q t).
  assert (forall f x, Callback_eqb f h = true ->
            serving n q v h x ->
            serving n q v h (call f d x) /\
            promise_state q (call f d x) = Some (Resolved v) /\
            timer_pending t (call f d x) = None) as Hself.
  { intros f x Hf Hx. apply Callback_eqb_eq in Hf. subst f. unfold h in *.
    destruct (handler_answers n k q t d v x Ha) as (y & -> & Hd & Ht).
    pose proof (delivered_serving _ _ _ _ _ _ Hq Hd Hx) as Hy.
    split; [now apply resolve_serving|]. split.
    - apply resolve_awaiting. apply Hy.
    - unfold resolve. unfold timer_pending in *. now rewrite settle_timers. }
  assert (forall f x, wraps h f = false -> allowed n h f ->
            serving n q v h x -> serving n q v h (call f d x)) as Hforeign.
  { intros f x Hw [Hb|Hb] Hx; [|congruence].
    exact (delivered_serving _ _ _ _ _ _ Hq (call_delivered n f d x Hb) Hx). }
  induction f; intros x Hf Hx;
    match goal with
    | |- context [call ?f0 d x] => destruct (Callback_eqb f0 h) eqn:Eh
    end;
    try (destruct (Hself _ x Eh Hx) as (S1 & S2 & S3); split; [exact S1 | auto]);
    try (split; [apply Hforeign; auto; cbn [wraps]; now rewrite Eh
                |cbn [wraps]; rewrite Eh; discriminate]).
  assert (wraps h (CbOnce id event f) = wraps h f) as Hw
    by (cbn [wraps]; now rewrite Eh).
  assert (allowed n h f) as Hf'.
  { destruct Hf as [Hb|Hb]; [left; exact Hb | right; congruence]. }
  cbn [call].
  assert (serving n q v h
            (off event (Some (CbOnce id event f))
               (log (Invoked (CbOnce id event f) d) x))) as Hx'.
  { apply (delivered_serving n q v h x); auto.
    eapply delivered_trans; [apply log_delivered | apply off_delivered]. }
  destruct (IHf _ Hf' Hx') as (I1 & I2).
  split; [exact I1|]. rewrite Hw. exact I2.
Qed.

Lemma emit_serving n k q t d v x :
  n <= q -> answers k d = Some v ->
  serving n q v (query_handler k q t) x ->
  serving n q v (query_handler k q t) (emit d x).
Proof.
  intros Hq Ha Hx. unfold emit. cbv zeta.
  set (h := query_handler k q t) in *.
  assert (forall l y, (forall g, In g l -> allowed n h g) ->
            serving n q v h y ->
            serving n q v h
              (fold_left
                 (fun w' cb =>
                    if set_has Callback_eqb cb (listeners_of (event_name d) (client w'))
                    then call cb d w' else w') l y)) as Hfold.
  { induction l as [|g l IH]; intros y Hl Hy; [exact Hy|].
    cbn [fold_left]. apply IH; [intros; apply Hl; now right|].
    destruct (set_has _ _ _); [|exact Hy].
    apply (call_allowed n k q t d v Hq Ha g y); [apply Hl; now left | exact Hy]. }
  apply Hfold.
  - intros g Hg. destruct Hx as [_ Hb]. apply (Hb (event_name d)). exact Hg.
  - apply (delivered_serving n q v h x); auto. apply log_delivered.
Qed.

Lemma run_listener_serving n k q t d v l x :
  n <= q -> answers k d = Some v ->
  listener_allowed n (query_handler k q t) l ->
  serving n q v (query_handler k q t) x ->
  serving n q v (query_handler k q t) (run_listener (MData d) x l).
Proof.
  intros Hq Ha Hl Hx.
  destruct l; cbn [run_listener listener_allowed] in *; try exact Hx.
  - destruct d; try exact Hx.
    apply (delivered_serving n q v _ x); auto. apply onTick_delivered.
  - now apply emit_serving.
  - now apply (call_allowed n k q t d v Hq Ha f x).
  - apply (call_allowed n k q t d v Hq Ha f); [exact Hl|].
    apply (delivered_serving n q v _ x); auto. apply upd_socket_delivered.
Qed.

Lemma listeners_serving n k q t d v (ls : list SockListener) : forall x,
  n <= q -> answers k d = Some v ->
  (forall l, In l ls -> listener_allowed n (query_handler k q t) l) ->
  serving n q v (query_handler k q t) x ->
  serving n q v (query_handler k q t) (fold_left (run_listener (MData d)) ls x).
Proof.
  induction ls as [|l ls IH]; intros x Hq Ha Hls Hx; [exact Hx|].
  cbn [fold_left]. apply IH; auto.
  - intros l' Hin. apply Hls. now right.
  - apply run_listener_serving; auto. apply Hls. now left.
Qed.

Lemma once_registers ev h x s :
  connected x = true ->
  socket (client x) = Some s ->
  promises (once ev h x) = promises x /\
  trace (once ev h x) = trace x /\
  timers (once ev h x) = timers x /\
  (forall e g, In g (listeners_of e (client (once ev h x))) ->
     In g (listeners_of e (client x)) \/ g = CbOnce (nextClosure x) ev h) /\
  socket (client (once ev h x)) =
    Some (sock_on (data_sev ev) (LOnce (CbOnce (nextClosure x) ev h))
            (sock_on (data_sev ev) (LPlain (CbOnce (nextClosure x) ev h)) s)).
Proof.
  intros Hc Hs. unfold once. rewrite Hs. cbv zeta. unfold on. cbv zeta.
  replace (connected (upd_client _ (set_nextClosure _ x))) with (connected x)
    by reflexivity.
  rewrite Hc. split; [reflexivity|]. split; [reflexivity|]. split; [reflexivity|].
  split.
  - intros e g. unfold listeners_of. cbn.
    destruct (EventName_eq_dec ev e) as [<-|Hn].
    + rewrite (map_get_set_same EventName_eqb EventName_eqb_eq).
      intros Hin. apply (set_add_In Callback_eqb Callback_eqb_eq) in Hin.
      destruct Hin as [->|Hin]; [now right | now left].
    + rewrite (map_get_set_other EventName_eqb EventName_eqb_eq) by exact Hn.
      now left.
  - cbn. rewrite Hs. reflexivity.
Qed.

(** What a pull query issued on a connected client registers. *)
Lemma issue_registers k w s :
  connected w = true ->
  socket (client w) = Some s ->
  let h := query_handler k (length (promises w)) (length (timers w)) in
  let w1 := snd (issue k w) in
  promises w1 = (promises w ++ [None])%list /\
  (forall e g, In g (listeners_of e (client w1)) ->
     In g (listeners_of e (client w)) \/ wraps h g = true) /\
  exists s1, socket (client w1) = Some s1 /\
    listeners_for (data_sev (query_event k)) s1 =
    (listeners_for (data_sev (query_event k)) s
     ++ query_listeners k (length (promises w)) (length (timers w)) (nextClosure w))%list.
Proof.
  intros Hc Hs. cbv zeta.
  assert (forall a ms,
            let x := set_timers (timers (set_promises (promises w ++ [None]) w)
                                 ++ [{| action := a; delay := ms; armed := true |}])
                       (set_promises (promises w ++ [None]) w) in
            connected x = true /\ socket (client x) = Some s /\
            promises x = (promises w ++ [None])%list /\
            nextClosure x = nextClosure w /\
            forall e, listeners_of e (client x) = listeners_of e (client w)) as Hx.
  { intros a ms. cbv zeta. repeat split; auto. }
  assert (forall ev h x m,
            connected x = true -> socket (client x) = Some s ->
            promises x = (promises w ++ [None])%list ->
            nextClosure x = nextClosure w ->
            (forall e, listeners_of e (client x) = listeners_of e (client w)) ->
            promises (send m (once ev h x)) = (promises w ++ [None])%list /\
            (forall e g, In g (listeners_of e (client (send m (once ev h x)))) ->
               In g (listeners_of e (client w)) \/ wraps h g = true) /\
            exists s1, socket (client (send m (once ev h x))) = Some s1 /\
              listeners_for (data_sev ev) s1 =
              (listeners_for (data_sev ev) s
               ++ [LPlain (CbOnce (nextClosure w) ev h);
                   LOnce (CbOnce (nextClosure w) ev h)])%list) as Honce.
  { intros ev h x m Hcx Hsx Hpx Hnx Hlx.
    destruct (once_registers ev h x s Hcx Hsx) as (O1 & _ & _ & O2 & O3).
    rewrite Hnx in *.
    split; [cbn; congruence|]. split.
    - intros e g Hg. destruct (O2 e g Hg) as [Hin| ->].
      + left. now rewrite <- Hlx.
      + right. cbn [wraps]. rewrite wraps_refl. apply orb_true_r.
    - eexists. split; [exact O3|].
      rewrite !listeners_for_sock_on, <- app_assoc. reflexivity. }
  destruct k; unfold issue, getSymbols, getCandles, getOrderBook, getAccountInfo,
    new_promise, setTimeout;
    cbv beta iota zeta;
    replace (connected (set_promises (promises w ++ [None]) w)) with (connected w)
      by reflexivity;
    rewrite Hc; cbn [snd query_event query_listeners query_handler].
  - match goal with |- context [once _ _ ?x] =>
      match x with
      | set_timers (_ ++ [{| action := ?a; delay := ?ms; armed := _ |}]) _ =>
          destruct (Hx a ms) as (X1 & X2 & X3 & X4 & X5)
      end
    end.
    now apply Honce.
  - split; [reflexivity|]. split.
    + intros e g Hg. left. exact Hg.
    + cbn. rewrite Hs. cbn. eexists. split; [reflexivity|].
      now rewrite listeners_for_sock_on.
  - match goal with |- context [once _ _ ?x] =>
      match x with
      | set_timers (_ ++ [{| action := ?a; delay := ?ms; armed := _ |}]) _ =>
          destruct (Hx a ms) as (X1 & X2 & X3 & X4 & X5)
      end
    end.
    now apply Honce.
  - match goal with |- context [once _ _ ?x] =>
      match x with
      | set_timers (_ ++ [{| action := ?a; delay := ?ms; armed := _ |}]) _ =>
          destruct (Hx a ms) as (X1 & X2 & X3 & X4 & X5)
      end
    end.
    now apply Honce.
Qed.

(** The listeners of the query itself, called last. *)
Lemma own_listeners_resolve n k q t i d v y :
  n <= q -> answers k d = Some v ->
  serving n q v (query_handler k q t) y ->
  let z := fold_left (run_listener (MData d)) (query_listeners k q t i) y in
  promise_state q z = Some (Resolved v) /\ timer_pending t z = None.
Proof.
  intros Hq Ha Hy. cbv zeta.
  assert (forall o x, wraps (query_handler k q t) o = true ->
            serving n q v (query_handler k q t) x ->
            serving n q v (query_handler k q t) (call o d x) /\
            promise_state q (call o d x) = Some (Resolved v) /\
            timer_pending t (call o d x) = None) as Hcall.
  { intros o x Ho Hx.
    destruct (call_allowed n k q t d v Hq Ha o x (or_intror Ho) Hx) as (C1 & C2).
    split; [exact C1 | exact (C2 Ho)]. }
  assert (forall i0 ev,
            wraps (query_handler k q t) (CbOnce i0 ev (query_handler k q t)) = true)
    as Hw.
  { intros i0 ev. cbn [wraps]. rewrite wraps_refl. apply orb_true_r. }
  assert (forall o,
            wraps (query_handler k q t) o = true ->
            promise_state q
              (fold_left (run_listener (MData d)) [LPlain o; LOnce o] y)
              = Some (Resolved v) /\
            timer_pending t
              (fold_left (run_listener (MData d)) [LPlain o; LOnce o] y) = None)
    as Htwice.
  { intros o Ho. cbn [fold_left run_listener].
    destruct (Hcall o y Ho Hy) as (S1 & _).
    apply Hcall; [exact Ho|].
    apply (delivered_serving n q v _ (call o d y)); auto.
    apply upd_socket_delivered. }
  destruct k; cbn [query_listeners]; try (apply Htwice; apply Hw).
  cbn [fold_left run_listener]. apply Hcall; [apply wraps_refl | exact Hy].
Qed.

(** X20.  The success path of the four pull queries: issued on a
    connected client, a query whose response is the next event of its
    name resolves its promise with the payload of the response
    ([getCandles] with [[]] when the response carries no list) and clears
    its timeout, whatever other listeners the event reaches. *)
Theorem query_resolves
    (k : Query) (d : EventData) (v : Value) (w : World)
    (Hconn : connected w = true)
    (Hids : handles_allocated w = true)
    (Hans : answers k d = Some v) :
  let q := fst (issue k w) in
  let w2 := deliver (MData d) (snd (issue k w)) in
  is_pending q (snd (issue k w)) = true /\
  promise_state q w2 = Some (Resolved v) /\
  timer_pending (length (timers w)) w2 = None.
Proof.
  cbv zeta.
  destruct (issue_online k w Hconn) as (Hq & Hpend & _).
  destruct (connected_socket w Hconn) as [s Hs].
  destruct (issue_registers k w s Hconn Hs) as (Hp & Hbus & s1 & Hs1 & Hls).
  destruct (handles_allocated_spec w Hids) as (Hbelow & Hsock & _).
  rewrite Hq. split; [exact Hpend|].
  assert (event_name d = query_event k) as Hev.
  { destruct k, d; try discriminate; reflexivity. }
  remember (snd (issue k w)) as w1 eqn:E. clear E.
  remember (length (promises w)) as N eqn:EN.
  remember (length (timers w)) as T eqn:ET.
  assert (serving N N v (query_handler k N T) w1) as Hserv.
  { split.
    - left. rewrite Hp, EN. apply nth_error_last.
    - intros e g Hg. destruct (Hbus e g Hg) as [Hin|Hw].
      + left. apply (Hbelow e g Hin).
      + right. exact Hw. }
  unfold deliver. rewrite Hs1. cbn [sock_event]. rewrite Hev, Hls, fold_left_app.
  apply (own_listeners_resolve N k N T (nextClosure w) d v); auto.
  apply listeners_serving; auto.
  intros l Hl. specialize (Hsock s (data_sev (query_event k)) Hs).
  rewrite forallb_forall in Hsock. specialize (Hsock l Hl).
  destruct l; cbn [listener_allowed]; auto; left; exact Hsock.
Qed.

Lemma query_resolves_witness :
  let k := QOrderBook "EURUSD" 10 in
  let d := DOrderBook "EURUSD" (sample_book "EURUSD") in
  let q := fst (issue k online) in
  let w2 := deliver (MData d) (snd (issue k online)) in
  is_pending q (snd (issue k online)) = true /\
  promise_state q w2 = Some (Resolved (VOrderBook (sample_book "EURUSD"))) /\
  timer_pending (length (timers online)) w2 = None.
Proof.
  apply (query_resolves (QOrderBook "EURUSD" 10)
           (DOrderBook "EURUSD" (sample_book "EURUSD"))
           (VOrderBook (sample_book "EURUSD")) online).
  - vm_compute. reflexivity.
  - vm_compute. reflexivity.
  - vm_compute. reflexivity.
Defined.

(* ================================================================== *)
(** ** Responses a [getCandles] query does not wait for *)

Lemma remove_first_incl ev p hs : incl (remove_first ev p hs) hs.
Proof.
  induction hs as [|[e l] hs IH]; simpl; [apply incl_refl|].
  destruct (SockEvent_eqb ev e && p l).
  - apply incl_tl, incl_refl.
  - intros x [Hx|Hx]; [now left | right; now apply IH].
Qed.

Lemma remove_first_keeps ev p hs x :
  p (snd x) = false -> In x hs -> In x (remove_first ev p hs).
Proof.
  intros Hp. induction hs as [|[e l] hs IH]; simpl; [tauto|].
  intros [Hx|Hx].
  - subst x. cbn in Hp. rewrite Hp, andb_false_r. now left.
  - destruct (SockEvent_eqb ev e && p l); [exact Hx | right; auto].
Qed.

Lemma passed_refl n h x : passed n h x x.
Proof.
  constructor; [apply delivered_refl | |]; intros; eauto using incl_refl.
Qed.

Lemma passed_trans n h x y z : passed n h x y -> passed n h y z -> passed n h x z.
Proof.
  intros [D1 S1 O1] [D2 S2 O2]. constructor.
  - eapply delivered_trans; eassumption.
  - intros s' Hs'. destruct (S2 s' Hs') as (s0 & Hs0 & I0).
    destruct (S1 s0 Hs0) as (s & Hs & I). exists s. split; [exact Hs|].
    eapply incl_tran; eassumption.
  - intros s ev Hs Hin. destruct (O1 s ev Hs Hin) as (s0 & Hs0 & Hin0).
    exact (O2 s0 ev Hs0 Hin0).
Qed.

Lemma passed_same_socket n h x y :
  delivered n x y -> socket (client y) = socket (client x) -> passed n h x y.
Proof.
  intros Hd Hs. constructor; [exact Hd | |].
  - intros s' Hs'. exists s'. split; [congruence | apply incl_refl].
  - intros s ev Hx Hin. exists s. split; [congruence | exact Hin].
Qed.

Lemma sock_off_passed n h ev p x :
  p (LPlain h) = false -> passed n h x (upd_socket (sock_off ev p) x).
Proof.
  intros Hp. constructor.
  - apply upd_socket_delivered.
  - intros s' Hs'. cbn in Hs'.
    destruct (socket (client x)) as [s|]; [|discriminate].
    cbn in Hs'. inversion Hs'; subst. exists s. split; [reflexivity|].
    apply remove_first_incl.
  - intros s ev' Hs Hin. cbn. rewrite Hs. cbn. eexists. split; [reflexivity|].
    cbn. now apply remove_first_keeps.
Qed.

Lemma off_passed n h e f x :
  Callback_eqb f h = false -> passed n h x (off e (Some f) x).
Proof.
  intros Hf. unfold off. cbv zeta.
  match goal with
  | |- passed n h x (upd_socket _ ?y) => assert (passed n h x y) as Hy
  end.
  { apply passed_same_socket; [|destruct (map_get _ _ _); reflexivity].
    destruct (map_get EventName_eqb e (eventListeners (client x))) as [l|] eqn:E;
      [|apply delivered_refl].
    constructor; try reflexivity; auto.
    intros e' g. unfold listeners_of. cbn.
    destruct (EventName_eq_dec e e') as [<-|Hn].
    - rewrite (map_get_set_same EventName_eqb EventName_eqb_eq), E.
      apply set_delete_In.
    - now rewrite (map_get_set_other EventName_eqb EventName_eqb_eq). }
  eapply passed_trans; [exact Hy|]. apply sock_off_passed. exact Hf.
Qed.

Lemma below_not_handler n h f :
  below n (cb_promise h) = false -> below n (cb_promise f) = true ->
  Callback_eqb f h = false.
Proof.
  intros Hh Hf. destruct (Callback_eqb f h) eqn:E; [|reflexivity].
  apply Callback_eqb_eq in E. subst. congruence.
Qed.

Lemma call_passed n h f d : forall x,
  below n (cb_promise h) = false ->
  below n (cb_promise f) = true -> passed n h x (call f d x).
Proof.
  induction f; intros x Hh Hf; pose proof (below_not_handler n h _ Hh Hf) as Hne;
    cbn [call]; cbn [cb_promise below] in Hf.
  - apply passed_same_socket; [apply log_delivered | reflexivity].
  - eapply passed_trans; [|apply IHf; [exact Hh | exact Hf]].
    eapply passed_trans; [|apply off_passed; exact Hne].
    apply passed_same_socket; [apply log_delivered | reflexivity].
  - destruct d; try (apply passed_same_socket; [apply log_delivered | reflexivity]).
    apply Nat.ltb_lt in Hf.
    eapply passed_trans;
      [|apply passed_same_socket;
        [apply settle_delivered; exact Hf | unfold resolve; now rewrite settle_client]].
    eapply passed_trans; [|apply off_passed; exact Hne].
    apply passed_same_socket.
    + eapply delivered_trans; [apply log_delivered | apply clearTimeout_delivered].
    + now rewrite clearTimeout_client.
  - destruct d; try (apply passed_same_socket; [apply log_delivered | reflexivity]).
    destruct (_ && _);
      [|apply passed_same_socket; [apply log_delivered | reflexivity]].
    apply Nat.ltb_lt in Hf.
    eapply passed_trans;
      [|apply passed_same_socket;
        [apply settle_delivered; exact Hf | unfold resolve; now rewrite settle_client]].
    eapply passed_trans; [|apply sock_off_passed; exact Hne].
    apply passed_same_socket.
    + eapply delivered_trans; [apply log_delivered | apply clearTimeout_delivered].
    + now rewrite clearTimeout_client.
  - destruct d; try (apply passed_same_socket; [apply log_delivered | reflexivity]).
    destruct (String.eqb _ _);
      [|apply passed_same_socket; [apply log_delivered | reflexivity]].
    apply Nat.ltb_lt in Hf.
    eapply passed_trans;
      [|apply passed_same_socket;
        [apply settle_delivered; exact Hf | unfold resolve; now rewrite settle_client]].
    eapply passed_trans; [|apply off_passed; exact Hne].
    apply passed_same_socket.
    + eapply delivered_trans; [apply log_delivered | apply clearTimeout_delivered].
    + now rewrite clearTimeout_client.
  - destruct d; try (apply passed_same_socket; [apply log_delivered | reflexivity]).
    apply Nat.ltb_lt in Hf.
    eapply passed_trans;
      [|apply passed_same_socket;
        [apply settle_delivered; exact Hf | unfold resolve; now rewrite settle_client]].
    eapply passed_trans; [|apply off_passed; exact Hne].
    apply passed_same_socket.
    + eapply delivered_trans; [apply log_delivered | apply clearTimeout_delivered].
    + now rewrite clearTimeout_client.
Qed.

Lemma emit_passed n h d x :
  below n (cb_promise h) = false -> bus_below n x -> passed n h x (emit d x).
Proof.
  intros Hh Hb. unfold emit. cbv zeta.
  assert (forall l y, passed n h x y ->
            passed n h x
              (fold_left
                 (fun w' cb =>
                    if set_has Callback_eqb cb (listeners_of (event_name d) (client w'))
                    then call cb d w' else w') l y)) as Hfold.
  { induction l as [|cb l IH]; intros y Hy; simpl; [exact Hy|].
    apply IH.
    destruct (set_has Callback_eqb cb (listeners_of (event_name d) (client y))) eqn:E;
      [|exact Hy].
    eapply passed_trans; [exact Hy|]. apply call_passed; [exact Hh|].
    apply (bus_below_delivered n x y Hb (passed_delivered _ _ _ _ Hy) (event_name d)).
    now apply (set_has_In Callback_eqb Callback_eqb_eq). }
  apply Hfold. apply passed_same_socket; [apply log_delivered | reflexivity].
Qed.

Lemma onTick_socket symbol tick x :
  socket (client (onTick symbol tick x)) = socket (client x).
Proof.
  unfold onTick. destruct (map_get _ _ _) as [l|]; [|reflexivity].
  revert x. induction l as [|c l IH]; intros x; simpl; [reflexivity|].
  now rewrite IH.
Qed.

(** The handler of [getCandles] called with anything but its response. *)
Lemma candles_handler_ignores q t symbol timeframe count d x :
  answers (QCandles symbol timeframe count) d = None ->
  call (CbCandles q t symbol timeframe) d x =
  log (Invoked (CbCandles q t symbol timeframe) d) x.
Proof.
  intros Ha. destruct d; try reflexivity. cbn [answers] in Ha. cbn [call].
  destruct (String.eqb symbol0 symbol && String.eqb timeframe0 timeframe);
    [discriminate | reflexivity].
Qed.

Lemma run_listener_passed n q t symbol timeframe count d l x :
  n <= q ->
  answers (QCandles symbol timeframe count) d = None ->
  bus_below n x ->
  below n (listener_promise l) = true \/ l = LPlain (CbCandles q t symbol timeframe) ->
  passed n (CbCandles q t symbol timeframe) x (run_listener (MData d) x l).
Proof.
  intros Hq Ha Hb Hl.
  assert (below n (cb_promise (CbCandles q t symbol timeframe)) = false) as Hh
    by (cbn; now apply Nat.ltb_ge).
  destruct Hl as [Hl| ->].
  - destruct l; cbn [run_listener listener_promise] in *; try apply passed_refl.
    + destruct d; try apply passed_refl.
      apply passed_same_socket; [apply onTick_delivered|].
      apply onTick_socket.
    + now apply emit_passed.
    + now apply call_passed.
    + eapply passed_trans; [|apply call_passed; [exact Hh | exact Hl]].
      apply sock_off_passed. reflexivity.
  - cbn [run_listener]. rewrite (candles_handler_ignores _ _ _ _ count _ _ Ha).
    apply passed_same_socket; [apply log_delivered | reflexivity].
Qed.

Lemma run_listener_stable m w l : stable w (run_listener m w l).
Proof.
  apply run_listener_preserved; intros;
    first [ apply stable_refl | eapply stable_trans; eassumption
          | apply settle_stable | apply new_promise_stable
          | apply setTimeout_stable | apply clearTimeout_stable
          | apply stable_same; reflexivity ].
Qed.

Lemma listeners_stable m (ls : list SockListener) : forall w,
  stable w (fold_left (run_listener m) ls w).
Proof.
  induction ls as [|l ls IH]; intros w; simpl; [apply stable_refl|].
  eapply stable_trans; [apply run_listener_stable | apply IH].
Qed.

Lemma listeners_passed n q t symbol timeframe count d (ls : list SockListener) :
  n <= q ->
  answers (QCandles symbol timeframe count) d = None ->
  forall x,
    bus_below n x ->
    (forall l, In l ls ->
       below n (listener_promise l) = true \/
       l = LPlain (CbCandles q t symbol timeframe)) ->
    passed n (CbCandles q t symbol timeframe) x
      (fold_left (run_listener (MData d)) ls x).
Proof.
  intros Hq Ha. induction ls as [|l ls IH]; intros x Hb Hls;
    [apply passed_refl|].
  cbn [fold_left].
  pose proof (run_listener_passed n q t symbol timeframe count d l x Hq Ha Hb
                (Hls l (or_introl eq_refl))) as H1.
  eapply passed_trans; [exact H1|]. apply IH.
  - exact (bus_below_delivered n x _ Hb (passed_delivered _ _ _ _ H1)).
  - intros l' Hin. apply Hls. now right.
Qed.

Lemma listeners_for_In ev l s :
  In l (listeners_for ev s) <-> In (ev, l) (handlers s).
Proof.
  unfold listeners_for. rewrite in_map_iff. split.
  - intros ([e l'] & <- & Hin). apply filter_In in Hin. destruct Hin as [Hin He].
    cbn in He. apply SockEvent_eqb_eq in He. now subst.
  - intros Hin. exists (ev, l). split; [reflexivity|]. apply filter_In.
    split; [exact Hin|]. cbn. now apply SockEvent_eqb_eq.
Qed.

(** An event the query does not wait for leaves it pending and
    registered. *)
Lemma deliver_passed n q t symbol timeframe count d x :
  n <= q ->
  answers (QCandles symbol timeframe count) d = None ->
  bus_below n x ->
  waiting_on_socket n (CbCandles q t symbol timeframe) x ->
  passed n (CbCandles q t symbol timeframe) x (deliver (MData d) x).
Proof.
  intros Hq Ha Hb (s & Hs & Hall & _). unfold deliver. rewrite Hs.
  apply (listeners_passed n q t symbol timeframe count d _ Hq Ha x Hb).
  intros l Hl. apply listeners_for_In in Hl. exact (Hall _ _ Hl).
Qed.

Lemma passed_waiting n h x y :
  passed n h x y -> waiting_on_socket n h x -> waiting_on_socket n h y.
Proof.
  intros [_ Hsock Hown] (s & Hs & Hall & Hin).
  destruct (Hown s _ Hs Hin) as (s' & Hs' & Hin').
  exists s'. split; [exact Hs'|]. split; [|exact Hin'].
  intros ev l Hl. destruct (Hsock s' Hs') as (s0 & Hs0 & Hincl).
  assert (s0 = s) as -> by congruence.
  apply (Hall ev l). now apply Hincl.
Qed.

Lemma getCandles_registers symbol timeframe count w s :
  connected w = true ->
  socket (client w) = Some s ->
  let w1 := snd (getCandles symbol timeframe count w) in
  promises w1 = (promises w ++ [None])%list /\
  eventListeners (client w1) = eventListeners (client w) /\
  socket (client w1) =
    Some (sock_on (data_sev candles_ev)
            (LPlain (CbCandles (length (promises w)) (length (timers w))
                       symbol timeframe)) s).
Proof.
  intros Hc Hs. cbv zeta. unfold getCandles, new_promise, setTimeout.
  cbv beta iota zeta.
  replace (connected (set_promises (promises w ++ [None]) w)) with (connected w)
    by reflexivity.
  rewrite Hc. cbn. rewrite Hs. repeat split.
Qed.

(** X21.  [getCandles] keeps waiting through responses that are not its
    own: events that do not answer the query (candles of another symbol or
    time frame, or any other event) leave its promise pending and its
    listener on the socket, and the response that does answer it, when it
    comes, resolves the promise. *)
Theorem candles_query_survives
    (symbol timeframe : string) (count : nat)
    (ds : list EventData) (d : EventData) (v : Value) (w : World)
    (Hconn : connected w = true)
    (Hids : handles_allocated w = true)
    (Hother : forall d', In d' ds ->
                answers (QCandles symbol timeframe count) d' = None)
    (Hans : answers (QCandles symbol timeframe count) d = Some v) :
  let q := fst (getCandles symbol timeframe count w) in
  let w2 := fold_left (fun x d' => deliver (MData d') x) ds
              (snd (getCandles symbol timeframe count w)) in
  let w3 := deliver (MData d) w2 in
  is_pending q w2 = true /\
  promise_state q w3 = Some (Resolved v).
Proof.
  cbv zeta.
  destruct (issue_online (QCandles symbol timeframe count) w Hconn) as (Hq & _).
  cbn [issue] in Hq. rewrite Hq.
  destruct (connected_socket w Hconn) as [s Hs].
  destruct (getCandles_registers symbol timeframe count w s Hconn Hs)
    as (Hp & Hel & Hs1).
  destruct (handles_allocated_spec w Hids) as (Hbelow & Hsock & _).
  remember (snd (getCandles symbol timeframe count w)) as w1 eqn:E. clear E.
  remember (length (promises w)) as N eqn:EN.
  remember (length (timers w)) as T eqn:ET.
  set (h := CbCandles N T symbol timeframe).
  assert (is_pending N w1 = true /\ bus_below N w1 /\ waiting_on_socket N h w1)
    as Hinv.
  { split; [|split].
    - unfold is_pending. rewrite Hp, EN. now rewrite nth_error_last.
    - intros e g. unfold listeners_of. rewrite Hel. apply Hbelow.
    - eexists. split; [exact Hs1|]. cbn [handlers sock_on]. split.
      + intros ev l Hl. apply in_app_or in Hl. destruct Hl as [Hl|[Hl|[]]].
        * left. specialize (Hsock s ev Hs). rewrite forallb_forall in Hsock.
          apply Hsock. now apply listeners_for_In.
        * right. now inversion Hl.
      + apply in_or_app. right. now left. }
  clear Hp Hel Hs1.
  assert (is_pending N
            (fold_left (fun x d' => deliver (MData d') x) ds w1) = true /\
          bus_below N (fold_left (fun x d' => deliver (MData d') x) ds w1) /\
          waiting_on_socket N h
            (fold_left (fun x d' => deliver (MData d') x) ds w1)) as Hinv2.
  { revert w1 Hinv. induction ds as [|d' ds IH]; intros w1 Hinv; [exact Hinv|].
    cbn [fold_left]. apply IH; [intros; apply Hother; now right|].
    destruct Hinv as (I1 & I2 & I3).
    pose proof (deliver_passed N N T symbol timeframe count d' w1 (le_n N)
                  (Hother d' (or_introl eq_refl)) I2 I3) as Hpass.
    split; [|split].
    - unfold is_pending in *.
      now rewrite (delivered_promises _ _ _ (passed_delivered _ _ _ _ Hpass)).
    - exact (bus_below_delivered N w1 _ I2 (passed_delivered _ _ _ _ Hpass)).
    - exact (passed_waiting _ _ _ _ Hpass I3). }
  remember (fold_left (fun x d' => deliver (MData d') x) ds w1) as w2 eqn:E.
  clear E Hinv. destruct Hinv2 as (J1 & J2 & s2 & Hs2 & Hall & Hin).
  split; [exact J1|].
  assert (event_name d = candles_ev) as Hev.
  { destruct d; try discriminate; reflexivity. }
  unfold deliver. rewrite Hs2. cbn [sock_event]. rewrite Hev.
  apply listeners_for_In in Hin.
  destruct (in_split _ _ Hin) as (pre & post & Hsplit).
  assert (forall l, In l (listeners_for (data_sev candles_ev) s2) ->
            listener_allowed N
              (query_handler (QCandles symbol timeframe count) N T) l) as Hal.
  { intros l Hl. apply listeners_for_In in Hl.
    destruct (Hall _ _ Hl) as [Hb| ->].
    - destruct l; cbn [listener_allowed]; auto; left; exact Hb.
    - cbn [listener_allowed]. right. apply wraps_refl. }
  rewrite Hsplit in *. rewrite fold_left_app. cbn [fold_left run_listener].
  assert (serving N N v (query_handler (QCandles symbol timeframe count) N T) w2)
    as Hserv.
  { split.
    - left. unfold is_pending in J1.
      destruct (nth_error (promises w2) N) as [[o|]|]; congruence.
    - intros e g Hg. left. apply (J2 e g Hg). }
  assert (serving N N v (query_handler (QCandles symbol timeframe count) N T)
            (fold_left (run_listener (MData d)) pre w2)) as Hpre.
  { apply listeners_serving; auto.
    intros l Hl. apply Hal. apply in_or_app. now left. }
  destruct (call_allowed N (QCandles symbol timeframe count) N T d v (le_n N) Hans
              h _ (or_intror (wraps_refl h)) Hpre) as (_ & Hres).
  destruct (Hres (wraps_refl h)) as (Hres1 & _).
  apply (proj1 (listeners_stable (MData d) post _)). exact Hres1.
Qed.

Lemma candles_query_survives_witness :
  let ds := [DCandles "GBPUSD" "M5" (Some []); DHealth "HEALTHY"] in
  let d := DCandles "EURUSD" "M5" (Some [sample_candle]) in
  let q := fst (getCandles "EURUSD" "M5" 100 online) in
  let w2 := fold_left (fun x d' => deliver (MData d') x) ds
              (snd (getCandles "EURUSD" "M5" 100 online)) in
  let w3 := deliver (MData d) w2 in
  is_pending q w2 = true /\
  promise_state q w3 = Some (Resolved (VCandles [sample_candle])).
Proof.
  apply (candles_query_survives "EURUSD" "M5" 100
           [DCandles "GBPUSD" "M5" (Some []); DHealth "HEALTHY"]
           (DCandles "EURUSD" "M5" (Some [sample_candle]))
           (VCandles [sample_candle]) online).
  - vm_compute. reflexivity.
  - vm_compute. reflexivity.
  - intros d' [<-|[<-|[]]]; reflexivity.
  - vm_compute. reflexivity.
Defined.

(* ================================================================== *)
(** ** Listeners across a reconnection *)

Lemma on_fields e f w :
  isConnected (client (on e f w)) = isConnected (client w) /\
  isConnecting (client (on e f w)) = isConnecting (client w) /\
  reconnectAttempts (client (on e f w)) = reconnectAttempts (client w) /\
  timers (on e f w) = timers w.
Proof. unfold on. cbv zeta. destruct (connected _); repeat split. Qed.

Lemma closing_isConnecting reason w :
  isConnecting (client (closing reason w)) = isConnecting (client w).
Proof.
  unfold closing. cbv zeta. rewrite fold_requeue.
  match goal with |- context [emit ?d ?x] =>
    destruct (emit_quiet d x eq_refl) as [_ _ _ _ _ _ Q _ _ _ _ _ _ _ _]
  end.
  rewrite Q. cbn. now rewrite clearTimers_client.
Qed.

(** The [disconnected] event of the ['disconnect'] listener. *)
Lemma closing_called id reason x (b : bool) :
  filter (wraps (CbUser id)) (listeners_of disconnected_ev (client x))
    = (if b then [CbUser id] else []) ->
  called (CbUser id) (if b then 1 else 0) x (closing reason x).
Proof.
  intros Hbus. unfold closing. cbv zeta. rewrite fold_requeue.
  pose proof (clearTimers_client (upd_client (set_isConnected false) x)) as Hcl.
  pose proof (clearTimers_trace (upd_client (set_isConnected false) x)) as Htr.
  remember (clearTimers (upd_client (set_isConnected false) x)) as w2 eqn:E.
  clear E.
  match goal with |- context [emit ?d ?y] => set (x3 := y) end.
  assert (kept (CbUser id) x x3) as K.
  { apply kept_fields.
    - unfold x3. cbn [trace upd_client]. now rewrite Htr.
    - unfold x3. cbn [client upd_client eventListeners set_pendingSubscriptions].
      rewrite Hcl. reflexivity.
    - unfold x3. cbn [client upd_client socket set_pendingSubscriptions].
      rewrite Hcl. reflexivity. }
  change (if b then 1 else 0) with (0 + (if b then 1 else 0)).
  eapply called_trans; [apply kept_called; exact K|].
  apply emit_called_gen. cbn [event_name]. rewrite (kept_bus _ _ _ K). exact Hbus.
Qed.

Lemma deliver_disconnect reason x s :
  socket (client x) = Some s ->
  builtin_only s = setupSocketListeners {| handlers := [] |} ->
  deliver (MDisconnect reason) x = onDisconnect reason x.
Proof.
  intros Hs Hb. unfold deliver. rewrite Hs. cbn [sock_event].
  assert (forall ls y,
            fold_left (run_listener (MDisconnect reason)) ls y =
            fold_left (run_listener (MDisconnect reason)) (filter is_builtin ls) y)
    as Hf.
  { induction ls as [|l ls IH]; intros y; [reflexivity|].
    destruct l; cbn [filter is_builtin fold_left]; apply IH. }
  rewrite Hf, filter_listeners_for.
  change {| handlers := filter (fun x0 => is_builtin (snd x0)) (handlers s) |}
    with (builtin_only s).
  rewrite Hb. reflexivity.
Qed.

Lemma connect_fresh y :
  isConnected (client y) = false ->
  isConnecting (client y) = false ->
  socket (client (snd (connect y))) = Some (setupSocketListeners {| handlers := [] |}) /\
  eventListeners (client (snd (connect y))) = eventListeners (client y) /\
  trace (snd (connect y)) = trace y.
Proof.
  intros Hc Hg. unfold connect. rewrite Hc, Hg. repeat split.
Qed.

(** X22.  A listener added with [on] while connected is registered on
    the socket of that connection.  When the connection is lost and the
    reconnection timer fires, [connect()] creates a new socket with the
    listeners of [setupSocketListeners] only: after the reconnection the
    callback is reached through the event bus alone, once per inbound
    event instead of twice, and never by a [tick]. *)
Theorem reconnect_drops_socket_listeners
    (event : EventName) (id : nat) (reason : string) (ds : list EventData)
    (w : World) (s : Socket)
    (Hconn : connected w = true)
    (Hsock : socket (client w) = Some s)
    (Hstd : builtin_only s = setupSocketListeners {| handlers := [] |})
    (Hnew : unknown (CbUser id) w = true)
    (Hnot : isConnecting (client w) = false)
    (Hlt : reconnectAttempts (client w) < maxReconnectAttempts)
    (Hreason : String.eqb reason "io client disconnect"
               || String.eqb reason "transport close" = false)
    (Hname : forall d, In d ds -> event_name d = event) :
  let w1 := on event (CbUser id) w in
  let w2 := deliver (MDisconnect reason) w1 in
  let w3 := fire (length (timers w)) w2 in
  let w4 := deliver MConnect w3 in
  let w5 := fold_left (fun x d => deliver (MData d) x) ds w4 in
  connected w4 = true /\
  In (CbUser id) (listeners_of event (client w4)) /\
  count_invoked (CbUser id) (trace w5) =
    count_invoked (CbUser id) (trace w4)
    + (if EventName_eqb event tick_ev then 0 else 1) * length ds.
Proof.
  cbv zeta.
  pose proof (unknown_absent _ _ Hnew) as Habs.
  pose proof (on_registers id event w s Hconn Hsock Hstd Habs) as Hreg1.
  pose proof (on_bus (CbUser id) event w Habs) as Hbus1.
  destruct (on_fields event (CbUser id) w) as (F1 & F2 & F3 & F4).
  remember (on event (CbUser id) w) as w1 eqn:E. clear E.
  destruct Hreg1 as (_ & s1 & Hs1 & Hb1 & _).
  rewrite (deliver_disconnect reason w1 s1 Hs1 Hb1), onDisconnect_closing.
  apply orb_false_iff in Hreason. destruct Hreason as [R1 R2].
  rewrite R1, R2. cbn [negb andb].
  destruct (closing_spec reason w1) as (_ & L & A & _ & _ & _ & _ & C & _).
  pose proof (closing_isConnecting reason w1) as G.
  pose proof (closing_called id reason w1 (EventName_eqb disconnected_ev event)
                (Hbus1 disconnected_ev)) as Hcalled.
  remember (closing reason w1) as wc eqn:E. clear E.
  rewrite scheduleReconnection_arms by (rewrite A, F3; exact Hlt).
  match goal with |- context [fire _ ?x] => set (w2 := x) end.
  assert (timer_pending (length (timers w)) w2
          = Some (TReconnect,
                  (reconnectDelay * reconnectDelayMultiplier
                   ^ Z.of_nat (S (reconnectAttempts (client wc)) - 1))%Q)) as Ht.
  { unfold timer_pending, w2. cbn [timers upd_client set_timers].
    rewrite <- F4, <- L. now rewrite nth_error_last. }
  rewrite (fire_reconnect _ _ _ Ht).
  assert (isConnected (client (clearTimeout (length (timers w)) w2)) = false) as Hc2.
  { rewrite clearTimeout_client. exact C. }
  assert (isConnecting (client (clearTimeout (length (timers w)) w2)) = false) as Hg2.
  { rewrite clearTimeout_client. unfold w2. cbn. congruence. }
  assert (forall e, listeners_of e (client (clearTimeout (length (timers w)) w2))
                    = listeners_of e (client wc)) as Hl2.
  { intros e. rewrite clearTimeout_client. reflexivity. }
  remember (clearTimeout (length (timers w)) w2) as y eqn:E. clear E.
  destruct (connect_fresh y Hc2 Hg2) as (Hs3 & He3 & _).
  remember (snd (connect y)) as w3 eqn:E. clear E.
  assert (deliver MConnect w3 = onConnect w3) as ->.
  { unfold deliver. rewrite Hs3. reflexivity. }
  assert (forall e, filter (wraps (CbUser id)) (listeners_of e (client w3))
                    = if EventName_eqb e event then [CbUser id] else []) as Hbus3.
  { intros e. unfold listeners_of at 1. rewrite He3.
    change (filter (wraps (CbUser id)) (listeners_of e (client y))
            = if EventName_eqb e event then [CbUser id] else []).
    rewrite Hl2, (called_bus _ _ _ _ Hcalled). apply Hbus1. }
  assert (EventName_eqb event event = true) as Hrefl by now apply EventName_eqb_eq.
  assert (registered (CbUser id) event true 0 w3) as Hreg3.
  { split.
    - rewrite Hbus3, Hrefl. reflexivity.
    - eexists. split; [exact Hs3|]. split; [reflexivity|].
      destruct event; reflexivity. }
  assert (socket (client w3) <> None) as Hsome by (rewrite Hs3; discriminate).
  pose proof (onConnect_called id w3 (EventName_eqb connected_ev event) Hsome
                (Hbus3 connected_ev)) as Hc4.
  pose proof (called_registered _ _ _ _ _ _ _ Hc4 Hreg3) as Hreg4.
  destruct (onConnect_state w3 Hsome) as (Hconn4 & _).
  split; [exact Hconn4|]. split.
  - destruct Hreg4 as (Hb4 & _).
    assert (In (CbUser id)
              (filter (wraps (CbUser id))
                 (listeners_of event (client (onConnect w3))))) as Hin
      by (rewrite Hb4; now left).
    apply filter_In in Hin. tauto.
  - destruct (deliver_many id event true 0 ds _ Hreg4 Hname) as (Hd & _).
    rewrite Hd. unfold calls_per_event. now rewrite Nat.add_0_r.
Qed.

Lemma reconnect_drops_socket_listeners_witness :
  let ds := [DHealth "HEALTHY"; DHealth "DEGRADED"] in
  let w1 := on health_ev (CbUser 7) online in
  let w2 := deliver (MDisconnect "ping timeout") w1 in
  let w3 := fire (length (timers online)) w2 in
  let w4 := deliver MConnect w3 in
  let w5 := fold_left (fun x d => deliver (MData d) x) ds w4 in
  connected w4 = true /\
  In (CbUser 7) (listeners_of health_ev (client w4)) /\
  count_invoked (CbUser 7) (trace w5) =
    count_invoked (CbUser 7) (trace w4)
    + (if EventName_eqb health_ev tick_ev then 0 else 1) * length ds.
Proof.
  apply (reconnect_drops_socket_listeners health_ev 7 "ping timeout"
           [DHealth "HEALTHY"; DHealth "DEGRADED"] online
           (setupSocketListeners {| handlers := [] |})).
  - vm_compute. reflexivity.
  - vm_compute. reflexivity.
  - vm_compute. reflexivity.
  - vm_compute. reflexivity.
  - vm_compute. reflexivity.
  - vm_compute. lia.
  - vm_compute. reflexivity.
  - intros d [<-|[<-|[]]]; reflexivity.
Defined.

(* ================================================================== *)
(** ** A callback registered with [once] *)

Lemma kept_once cb o ev b fl x y :
  kept cb x y -> once_registered cb o ev b fl x -> once_registered cb o ev b fl y.
Proof.
  intros [_ Kb Ks Kbi] (Hbus & s & Hs & Hb & Hf). split.
  - rewrite Kb. exact Hbus.
  - rewrite Hs in Ks, Kbi.
    destruct (socket (client y)) as [s'|]; [|discriminate].
    cbn in Ks, Kbi. exists s'. split; [reflexivity|]. split; congruence.
Qed.

Lemma set_delete_only (p : Callback -> bool) (k : Callback) (l : list Callback)
    (b : bool) :
  filter p l = (if b then [k] else []) ->
  filter p (set_delete Callback_eqb k l) = [].
Proof.
  revert b. induction l as [|a l IH]; intros b H; simpl; auto.
  simpl in H. destruct (Callback_eqb k a) eqn:E.
  - apply Callback_eqb_eq in E. subst a.
    destruct (p k) eqn:Epk.
    + destruct b; inversion H as [H']. rewrite H'. reflexivity.
    + destruct b; [|exact H].
      exfalso.
      assert (In k (filter p l)) as Hin by (rewrite H; now left).
      apply filter_In in Hin. destruct Hin as [_ Hp]. congruence.
  - simpl. destruct (p a) eqn:Ep.
    + destruct b; inversion H. subst a.
      assert (Callback_eqb k k = true) by now apply Callback_eqb_eq. congruence.
    + now apply (IH b).
Qed.

Lemma remove_first_filter (q : SockEvent * SockListener -> bool) ev p hs :
  (forall e l, p l = true -> q (e, l) = true) ->
  filter q (remove_first ev p hs) = remove_first ev p (filter q hs).
Proof.
  intros Hp. induction hs as [|[e l] hs IH]; [reflexivity|].
  cbn [remove_first filter].
  destruct (SockEvent_eqb ev e && p l) eqn:E.
  - apply andb_prop in E. destruct E as [Ee El].
    rewrite (Hp e l El). cbn [remove_first]. now rewrite Ee, El.
  - cbn [filter]. destruct (q (e, l)); [|exact IH].
    cbn [remove_first]. rewrite E. now rewrite IH.
Qed.

Lemma listener_is_wrapper cb i ev l :
  listener_is (CbOnce i ev cb) l = true -> reaches cb l = true.
Proof.
  destruct l; cbn; try discriminate; intros H; apply Callback_eqb_eq in H;
    subst f; cbn [wraps]; rewrite wraps_refl; apply orb_true_r.
Qed.

Lemma wrapper_is_wrapper cb i ev l :
  wrapper_is (CbOnce i ev cb) l = true -> reaches cb l = true.
Proof.
  destruct l; cbn; try discriminate; intros H; apply Callback_eqb_eq in H;
    subst f; cbn [wraps]; rewrite wraps_refl; apply orb_true_r.
Qed.

(** [onceHandler] called: it deregisters itself and calls the callback. *)
Lemma call_once id i ev d b fl x :
  let cb := CbUser id in
  let o := CbOnce i ev cb in
  once_registered cb o ev b fl x ->
  once_registered cb o ev false
    (remove_first (data_sev ev) (listener_is o) fl) (call o d x) /\
  count_invoked cb (trace (call o d x)) = count_invoked cb (trace x) + 1.
Proof.
  cbv zeta. intros (Hbus & s & Hs & Hb & Hf).
  set (cb := CbUser id) in *. set (o := CbOnce i ev cb) in *.
  assert (call o d x = log (Invoked cb d) (off ev (Some o) (log (Invoked o d) x)))
    as -> by reflexivity.
  split.
  - split.
    + change (filter (wraps cb)
                (listeners_of ev (client (off ev (Some o) (log (Invoked o d) x))))
              = []).
      unfold off. cbv zeta. unfold listeners_of in *.
      change (eventListeners (client (log (Invoked o d) x)))
        with (eventListeners (client x)).
      destruct (map_get EventName_eqb ev (eventListeners (client x))) as [l|] eqn:E.
      * cbn. rewrite (map_get_set_same EventName_eqb EventName_eqb_eq).
        exact (set_delete_only _ o l b Hbus).
      * cbn. rewrite E. reflexivity.
    + assert (socket (client (log (Invoked cb d)
                        (off ev (Some o) (log (Invoked o d) x))))
              = Some (sock_off (data_sev ev) (listener_is o) s)) as Hs'.
      { unfold off. cbv zeta.
        destruct (map_get EventName_eqb ev
                    (eventListeners (client (log (Invoked o d) x))));
          cbn; rewrite Hs; reflexivity. }
      eexists. split; [exact Hs'|]. split.
      * unfold builtin_only, sock_off in *. cbn.
        rewrite remove_first_builtin; [exact Hb|]. apply listener_is_not_builtin.
      * unfold sock_off. cbn [handlers].
        rewrite remove_first_filter; [now rewrite Hf|].
        intros e l Hl. cbn. exact (listener_is_wrapper _ _ _ _ Hl).
  - rewrite count_invoked_log, off_trace, count_invoked_log. cbn.
    unfold Callback_eqb.
    destruct (Callback_eq_dec cb cb); [|congruence].
    destruct (Callback_eq_dec o cb); [discriminate|]. lia.
Qed.

(** The event bus with [onceHandler] in its set, or not. *)
Lemma emit_once id i ev d b fl x :
  let cb := CbUser id in
  let o := CbOnce i ev cb in
  event_name d = ev ->
  once_registered cb o ev b fl x ->
  once_registered cb o ev false
    (if b then remove_first (data_sev ev) (listener_is o) fl else fl) (emit d x) /\
  count_invoked cb (trace (emit d x)) =
    count_invoked cb (trace x) + (if b then 1 else 0).
Proof.
  cbv zeta. intros Hev Hreg.
  set (cb := CbUser id) in *. set (o := CbOnce i ev cb) in *.
  unfold emit. cbv zeta. rewrite Hev.
  assert (forall (l : list Callback) (y : World) (b0 : bool)
                 (fl0 : list (SockEvent * SockListener)),
            filter (wraps cb) l = (if b0 then [o] else []) ->
            once_registered cb o ev b0 fl0 y ->
            let z := fold_left
                       (fun w' f =>
                          if set_has Callback_eqb f (listeners_of ev (client w'))
                          then call f d w' else w') l y in
            once_registered cb o ev false
              (if b0 then remove_first (data_sev ev) (listener_is o) fl0 else fl0) z /\
            count_invoked cb (trace z) =
              count_invoked cb (trace y) + (if b0 then 1 else 0)) as Hfold.
  { induction l as [|f l IH]; intros y b0 fl0 Hl Hy; cbv zeta.
    - cbn [fold_left filter] in *. destruct b0; [discriminate|].
      split; [exact Hy | lia].
    - cbn [fold_left]. cbn [filter] in Hl.
      destruct (wraps cb f) eqn:Hw.
      + destruct b0; [|discriminate]. inversion Hl as [[Hf Hrest]]. subst f.
        assert (set_has Callback_eqb o (listeners_of ev (client y)) = true) as Hmem.
        { apply (set_has_In Callback_eqb Callback_eqb_eq).
          destruct Hy as (Hbus & _).
          assert (In o (filter (wraps cb) (listeners_of ev (client y)))) as Hin
            by (rewrite Hbus; now left).
          apply filter_In in Hin. tauto. }
        rewrite Hmem.
        destruct (call_once id i ev d true fl0 y Hy) as (Hy' & Hc).
        fold cb o in Hy', Hc.
        destruct (IH (call o d y) false _ Hrest Hy') as (Hz & Hcz).
        split; [exact Hz|]. rewrite Hcz, Hc. lia.
      + destruct (set_has Callback_eqb f (listeners_of ev (client y))).
        * pose proof (foreign_call_kept cb f d y Hw) as Hk.
          destruct (IH (call f d y) b0 fl0 Hl (kept_once _ _ _ _ _ _ _ Hk Hy))
            as (Hz & Hcz).
          split; [exact Hz|]. rewrite Hcz, (kept_count _ _ _ Hk). reflexivity.
        * exact (IH y b0 fl0 Hl Hy). }
  assert (kept cb x (log (Emitted d) x)) as Hk by (apply log_kept; reflexivity).
  destruct (Hfold (listeners_of ev (client (log (Emitted d) x)))
              (log (Emitted d) x) b fl) as (Hz & Hcz).
  - destruct Hreg as (Hbus & _). exact Hbus.
  - exact (kept_once _ _ _ _ _ _ _ Hk Hreg).
  - split; [exact Hz|]. rewrite Hcz, (kept_count _ _ _ Hk). reflexivity.
Qed.

Lemma run_listener_foreign cb d l x :
  is_forward l = false -> reaches cb l = false ->
  kept cb x (run_listener (MData d) x l).
Proof.
  intros Hf Hr. destruct l; cbn [run_listener reaches is_forward] in *;
    try apply kept_refl; try discriminate.
  - destruct d; try apply kept_refl. apply onTick_kept.
  - now apply foreign_call_kept.
  - eapply kept_trans.
    + apply sock_off_kept.
      * intros l. apply wrapper_is_reaches. exact Hr.
      * apply wrapper_is_not_builtin.
    + now apply foreign_call_kept.
Qed.

(** The listeners registered before [once], one of which may forward the
    event to the event bus. *)
Lemma listeners_before_once id i ev d (ls : list SockListener) :
  let cb := CbUser id in
  let o := CbOnce i ev cb in
  event_name d = ev ->
  (forall l, In l ls -> reaches cb l = false) ->
  forall b fl x,
    once_registered cb o ev b fl x ->
    let forwarded := b && negb (length (filter is_forward ls) =? 0) in
    let z := fold_left (run_listener (MData d)) ls x in
    once_registered cb o ev (b && (length (filter is_forward ls) =? 0))
      (if forwarded then remove_first (data_sev ev) (listener_is o) fl else fl) z /\
    count_invoked cb (trace z) =
      count_invoked cb (trace x) + (if forwarded then 1 else 0).
Proof.
  cbv zeta. intros Hev. induction ls as [|l ls IH]; intros Hls b fl x Hx.
  - cbn. rewrite andb_true_r, andb_false_r. split; [exact Hx | lia].
  - cbn [fold_left filter].
    assert (forall l', In l' ls -> reaches (CbUser id) l' = false) as Hls'
      by (intros; apply Hls; now right).
    destruct (is_forward l) eqn:Hf.
    + assert (run_listener (MData d) x l = emit d x) as ->
        by (destruct l; try discriminate; reflexivity).
      destruct (emit_once id i ev d b fl x Hev Hx) as (Hy & Hc).
      destruct (IH Hls' false _ _ Hy) as (Hz & Hcz).
      cbn [andb] in Hz, Hcz. cbn [length Nat.eqb negb].
      rewrite andb_false_r, andb_true_r.
      split; [exact Hz|]. rewrite Hcz, Hc. lia.
    + pose proof (run_listener_foreign (CbUser id) d l x Hf
                    (Hls l (or_introl eq_refl))) as Hk.
      destruct (IH Hls' b fl _ (kept_once _ _ _ _ _ _ _ Hk Hx)) as (Hz & Hcz).
      split; [exact Hz|]. rewrite Hcz, (kept_count _ _ _ Hk). reflexivity.
Qed.

Lemma sock_off_once id i ev b fl x :
  let cb := CbUser id in
  let o := CbOnce i ev cb in
  once_registered cb o ev b fl x ->
  once_registered cb o ev b (remove_first (data_sev ev) (wrapper_is o) fl)
    (upd_socket (sock_off (data_sev ev) (wrapper_is o)) x).
Proof.
  cbv zeta. intros (Hbus & s & Hs & Hb & Hf). split; [exact Hbus|].
  exists (sock_off (data_sev ev) (wrapper_is (CbOnce i ev (CbUser id))) s).
  split; [cbn; now rewrite Hs|]. split.
  - unfold builtin_only, sock_off in *. cbn.
    rewrite remove_first_builtin; [exact Hb|]. apply wrapper_is_not_builtin.
  - unfold sock_off. cbn [handlers].
    rewrite remove_first_filter; [now rewrite Hf|].
    intros e l Hl. cbn. exact (wrapper_is_wrapper _ _ _ _ Hl).
Qed.

Lemma SockEvent_eqb_refl ev : SockEvent_eqb ev ev = true.
Proof. now apply SockEvent_eqb_eq. Qed.

Lemma Callback_eqb_refl f : Callback_eqb f f = true.
Proof. now apply Callback_eqb_eq. Qed.

(** The two listeners [once] put on the socket, called last. *)
Lemma own_listeners_once id i ev d (b : bool) y :
  let cb := CbUser id in
  let o := CbOnce i ev cb in
  event_name d = ev ->
  once_registered cb o ev b
    (if b then [(data_sev ev, LPlain o); (data_sev ev, LOnce o)]
     else [(data_sev ev, LOnce o)]) y ->
  let z := fold_left (run_listener (MData d)) [LPlain o; LOnce o] y in
  once_registered cb o ev false [] z /\
  count_invoked cb (trace z) = count_invoked cb (trace y) + 2.
Proof.
  cbv zeta. intros Hev Hy. cbn [fold_left run_listener]. rewrite Hev.
  destruct (call_once id i ev d _ _ y Hy) as (H1 & C1).
  assert (once_registered (CbUser id) (CbOnce i ev (CbUser id)) ev false
            (if b then [(data_sev ev, LOnce (CbOnce i ev (CbUser id)))] else [])
            (call (CbOnce i ev (CbUser id)) d y)) as H1'.
  { destruct b; cbn [remove_first fst snd listener_is andb] in H1;
      rewrite SockEvent_eqb_refl, Callback_eqb_refl in H1; exact H1. }
  clear H1.
  pose proof (sock_off_once id i ev _ _ _ H1') as H2.
  assert (once_registered (CbUser id) (CbOnce i ev (CbUser id)) ev false []
            (upd_socket
               (sock_off (data_sev ev) (wrapper_is (CbOnce i ev (CbUser id))))
               (call (CbOnce i ev (CbUser id)) d y))) as H2'.
  { destruct b; cbn [remove_first fst snd wrapper_is andb] in H2;
      rewrite ?SockEvent_eqb_refl, ?Callback_eqb_refl in H2; exact H2. }
  clear H2.
  destruct (call_once id i ev d _ _ _ H2') as (H3 & C3).
  split; [exact H3|].
  rewrite C3. cbn [trace upd_socket upd_client]. rewrite C1. lia.
Qed.

Lemma filter_nil_all {A : Type} (p : A -> bool) (l : list A) :
  filter p l = [] -> forall x, In x l -> p x = false.
Proof.
  intros H x Hin. destruct (p x) eqn:E; [|reflexivity].
  assert (In x (filter p l)) as Hf by (apply filter_In; auto).
  rewrite H in Hf. destruct Hf.
Qed.

Lemma wraps_once cb i ev : wraps cb (CbOnce i ev cb) = true.
Proof.
  change (Callback_eqb (CbOnce i ev cb) cb || wraps cb cb = true).
  rewrite wraps_refl. apply orb_true_r.
Qed.

(** [once] on a connected client, for a callback that is not
    registered. *)
Lemma once_registers_callback id ev w s :
  connected w = true ->
  socket (client w) = Some s ->
  builtin_only s = setupSocketListeners {| handlers := [] |} ->
  absent (CbUser id) w ->
  let cb := CbUser id in
  let o := CbOnce (nextClosure w) ev cb in
  once_registered cb o ev true
    [(data_sev ev, LPlain o); (data_sev ev, LOnce o)] (once ev cb w) /\
  trace (once ev cb w) = trace w /\
  exists s1, socket (client (once ev cb w)) = Some s1 /\
    listeners_for (data_sev ev) s1 =
    (listeners_for (data_sev ev) s ++ [LPlain o; LOnce o])%list.
Proof.
  intros Hc Hs Hb [Habs Hsock]. cbv zeta.
  destruct (once_registers ev (CbUser id) w s Hc Hs) as (_ & Htr & _ & _ & Hs1).
  assert (listeners_of ev (client (once ev (CbUser id) w)) =
          set_add Callback_eqb (CbOnce (nextClosure w) ev (CbUser id))
            (listeners_of ev (client w))) as Hl.
  { unfold once. rewrite Hs. cbv zeta. unfold on. cbv zeta.
    replace (connected (upd_client _ (set_nextClosure _ w))) with (connected w)
      by reflexivity.
    rewrite Hc. unfold listeners_of at 1. cbn.
    now rewrite (map_get_set_same EventName_eqb EventName_eqb_eq). }
  split; [|split; [exact Htr|]].
  - split.
    + rewrite Hl. unfold set_add.
      destruct (set_has Callback_eqb (CbOnce (nextClosure w) ev (CbUser id))
                  (listeners_of ev (client w))) eqn:E.
      * exfalso. apply (set_has_In Callback_eqb Callback_eqb_eq) in E.
        pose proof (filter_nil_all _ _ (Habs ev) _ E) as Hf.
        rewrite wraps_once in Hf. discriminate.
      * rewrite filter_app, (Habs ev). cbn [filter app].
        rewrite wraps_once. reflexivity.
    + eexists. split; [exact Hs1|]. split.
      * unfold builtin_only, sock_on in *. cbn. rewrite !filter_app. cbn.
        rewrite !app_nil_r. exact Hb.
      * cbn [handlers sock_on]. rewrite !filter_app, (Hsock s Hs).
        cbn [filter app snd reaches].
        rewrite wraps_once. reflexivity.
  - eexists. split; [exact Hs1|].
    rewrite !listeners_for_sock_on, <- app_assoc. reflexivity.
Qed.

(** X23.  A callback registered with [once] while connected is called
    three times by the first inbound event of the name, twice when the
    event is a [tick], and by no later event: the wrapper of the callback
    is in the listener set and twice on the socket, every call of it runs
    the callback, and the registrations it removes are still visited by
    the emission under way. *)
Theorem once_callback_called_thrice
    (event : EventName) (id : nat) (d : EventData) (ds : list EventData)
    (w : World) (s : Socket)
    (Hconn : connected w = true)
    (Hsock : socket (client w) = Some s)
    (Hstd : builtin_only s = setupSocketListeners {| handlers := [] |})
    (Hnew : unknown (CbUser id) w = true)
    (Hfirst : event_name d = event)
    (Hname : forall d', In d' ds -> event_name d' = event) :
  let w1 := once event (CbUser id) w in
  let w2 := deliver (MData d) w1 in
  let w3 := fold_left (fun x d' => deliver (MData d') x) ds w2 in
  count_invoked (CbUser id) (trace w2) =
    count_invoked (CbUser id) (trace w)
    + (if EventName_eqb event tick_ev then 2 else 3) /\
  count_invoked (CbUser id) (trace w3) = count_invoked (CbUser id) (trace w2).
Proof.
  cbv zeta.
  pose proof (unknown_absent _ _ Hnew) as Habs.
  destruct (once_registers_callback id event w s Hconn Hsock Hstd Habs)
    as (Hreg & Htr & s1 & Hs1 & Hls).
  remember (once event (CbUser id) w) as w1 eqn:E. clear E.
  set (o := CbOnce (nextClosure w) event (CbUser id)) in *.
  assert (forall l, In l (listeners_for (data_sev event) s) ->
            reaches (CbUser id) l = false) as Hforeign.
  { intros l Hl. apply listeners_for_In in Hl.
    destruct Habs as [_ Hh].
    exact (filter_nil_all _ _ (Hh s Hsock) _ Hl). }
  assert (length (filter is_forward (listeners_for (data_sev event) s))
          = if EventName_eqb event tick_ev then 0 else 1) as Hfw.
  { now rewrite forwards_of_builtin, Hstd, standard_forwards. }
  assert (once_registered (CbUser id) o event false [] (deliver (MData d) w1) /\
          count_invoked (CbUser id) (trace (deliver (MData d) w1)) =
            count_invoked (CbUser id) (trace w)
            + (if EventName_eqb event tick_ev then 2 else 3)) as (Hfin & Hcount).
  { unfold deliver. rewrite Hs1. cbn [sock_event]. rewrite Hfirst, Hls, fold_left_app.
    destruct (listeners_before_once id (nextClosure w) event d
                (listeners_for (data_sev event) s) Hfirst Hforeign true _ w1 Hreg)
      as (Hy & Hcy).
    fold o in Hy, Hcy. rewrite Hfw in Hy, Hcy.
    remember (fold_left (run_listener (MData d))
                (listeners_for (data_sev event) s) w1) as y eqn:E. clear E.
    destruct (own_listeners_once id (nextClosure w) event d
                (if EventName_eqb event tick_ev then true else false) y Hfirst)
      as (Hz & Hcz).
    { fold o. destruct (EventName_eqb event tick_ev);
        cbn [andb negb Nat.eqb remove_first fst snd listener_is] in Hy.
      - exact Hy.
      - unfold o in Hy at 3.
        rewrite SockEvent_eqb_refl in Hy. cbn [andb listener_is] in Hy.
        fold o in Hy. rewrite Callback_eqb_refl in Hy. exact Hy. }
    fold o in Hz, Hcz. split; [exact Hz|].
    rewrite Hcz, Hcy, Htr.
    destruct (EventName_eqb event tick_ev); cbn; lia. }
  split; [exact Hcount|].
  assert (registered (CbUser id) event false 0 (deliver (MData d) w1)) as Hreg2.
  { destruct Hfin as (Hbus & s2 & Hs2 & Hb2 & Hf2). split; [exact Hbus|].
    exists s2. split; [exact Hs2|]. split; [exact Hb2|].
    rewrite filter_listeners_for, Hf2. reflexivity. }
  destruct (deliver_many id event false 0 ds _ Hreg2 Hname) as (Hd & _).
  rewrite Hd. cbn. lia.
Qed.

Lemma once_callback_called_thrice_witness :
  let d := DHealth "HEALTHY" in
  let ds := [DHealth "DEGRADED"] in
  let w1 := once health_ev (CbUser 7) online in
  let w2 := deliver (MData d) w1 in
  let w3 := fold_left (fun x d' => deliver (MData d') x) ds w2 in
  count_invoked (CbUser 7) (trace w2) =
    count_invoked (CbUser 7) (trace online)
    + (if EventName_eqb health_ev tick_ev then 2 else 3) /\
  count_invoked (CbUser 7) (trace w3) = count_invoked (CbUser 7) (trace w2).
Proof.
  apply (once_callback_called_thrice health_ev 7 (DHealth "HEALTHY")
           [DHealth "DEGRADED"] online
           (setupSocketListeners {| handlers := [] |})).
  - vm_compute. reflexivity.
  - vm_compute. reflexivity.
  - vm_compute. reflexivity.
  - vm_compute. reflexivity.
  - reflexivity.
  - intros d' [<-|[]]; reflexivity.
Defined.

(* ================================================================== *)
(** ** The registry over any sequence of calls *)

Lemma map_set_In {V : Type} (k : string) (v : V) (m : list (string * V)) x :
  In x (map_set String.eqb k v m) -> x = (k, v) \/ In x m.
Proof.
  induction m as [|[k0 v0] m IH]; simpl.
  - intros [H|[]]. now left.
  - destruct (String.eqb k k0); simpl.
    + intros [H|H]; [now left | right; now right].
    + intros [H|H]; [right; now left|].
      destruct (IH H); [now left | right; now right].
Qed.

Lemma map_delete_In {V : Type} (k : string) (m : list (string * V)) x :
  In x (map_delete String.eqb k m) -> In x m.
Proof.
  induction m as [|[k0 v0] m IH]; simpl; [tauto|].
  destruct (String.eqb k k0); simpl; [tauto|]. intros [H|H]; auto.
Qed.

Lemma map_get_In_entry {V : Type} (k : string) (m : list (string * V)) v :
  map_get String.eqb k m = Some v -> In (k, v) m.
Proof.
  induction m as [|[k0 v0] m IH]; simpl; [discriminate|].
  destruct (String.eqb k k0) eqn:E.
  - apply String.eqb_eq in E. subst. intros H. inversion H. now left.
  - intros H. right. auto.
Qed.

Lemma set_add_nat_nonempty (cb : nat) (l : list nat) : set_add Nat.eqb cb l <> [].
Proof.
  unfold set_add. destruct (set_has Nat.eqb cb l) eqn:E.
  - destruct l; [discriminate | discriminate].
  - destruct l; discriminate.
Qed.

Lemma set_delete_nat_In (k x : nat) (s : list nat) :
  In x (set_delete Nat.eqb k s) -> In x s.
Proof.
  induction s as [|a s IH]; simpl; [tauto|].
  destruct (Nat.eqb k a); simpl; [tauto|]. intros [H|H]; auto.
Qed.

Lemma set_delete_nat_NoDup (k : nat) (s : list nat) :
  NoDup s -> NoDup (set_delete Nat.eqb k s).
Proof.
  induction s as [|a s IH]; simpl; intros H; [constructor|].
  inversion H as [|? ? Hn Hs]; subst.
  destruct (Nat.eqb k a); [exact Hs|]. constructor; [|auto].
  intros Hin. apply Hn. eapply set_delete_nat_In. exact Hin.
Qed.

Lemma registry_ok_set k v subs :
  v <> [] -> NoDup v -> registry_ok subs ->
  registry_ok (map_set String.eqb k v subs).
Proof.
  intros Hv Hn [Hk He]. split.
  - now apply (map_set_NoDup String.eqb String.eqb_eq).
  - intros s l Hin. apply map_set_In in Hin. destruct Hin as [Hin|Hin].
    + inversion Hin; subst. auto.
    + exact (He s l Hin).
Qed.

Lemma registry_ok_delete k subs :
  registry_ok subs -> registry_ok (map_delete String.eqb k subs).
Proof.
  intros [Hk He]. split.
  - now apply (map_delete_NoDup String.eqb).
  - intros s l Hin. apply map_delete_In in Hin. exact (He s l Hin).
Qed.

Lemma map_set_set {V : Type} (k : string) (v v' : V) (m : list (string * V)) :
  map_set String.eqb k v (map_set String.eqb k v' m) = map_set String.eqb k v m.
Proof.
  induction m as [|[k0 v0] m IH]; simpl.
  - now rewrite String.eqb_refl.
  - destruct (String.eqb k k0) eqn:E; simpl.
    + now rewrite String.eqb_refl.
    + now rewrite E, IH.
Qed.

Lemma subscribe_registry symbol cb w :
  registry_ok (subscribers (client w)) ->
  registry_ok (subscribers (client (subscribe symbol cb w))).
Proof.
  intros Hok.
  assert (forall x, subscribers (client (sendSubscribe symbol x))
                    = subscribers (client x)) as Hsend.
  { intros x. unfold sendSubscribe. destruct (connected x); reflexivity. }
  unfold subscribe. unfold map_has.
  destruct (map_get String.eqb symbol (subscribers (client w))) as [l|] eqn:E.
  - unfold subscribers_add. cbn. rewrite E. cbn.
    destruct Hok as [Hk He].
    destruct (He symbol l (map_get_In_entry _ _ _ E)) as [_ Hl].
    apply registry_ok_set; [apply set_add_nat_nonempty| |split; assumption].
    now apply (set_add_NoDup Nat.eqb Nat.eqb_eq).
  - unfold subscribers_add.
    cbn [client upd_client subscribers]. rewrite Hsend.
    cbn [client upd_client subscribers set_subscribers].
    rewrite (map_get_set_same String.eqb String.eqb_eq).
    cbn [subscribers set_subscribers set_add set_has app].
    rewrite map_set_set.
    apply registry_ok_set; [discriminate | | exact Hok].
    constructor; [tauto | constructor].
Qed.

Lemma unsubscribe_registry symbol cb w :
  registry_ok (subscribers (client w)) ->
  registry_ok (subscribers (client (unsubscribe symbol cb w))).
Proof.
  intros Hok.
  assert (forall x, subscribers (client (sendUnsubscribe symbol x))
                    = subscribers (client x)) as Hsend.
  { intros x. unfold sendUnsubscribe. destruct (connected x); reflexivity. }
  unfold unsubscribe.
  destruct (map_get String.eqb symbol (subscribers (client w))) as [l|] eqn:E;
    [|exact Hok].
  destruct cb as [c|].
  - destruct (set_delete Nat.eqb c l) as [|a l'] eqn:Ed.
    + rewrite Hsend. cbn. rewrite (map_delete_set String.eqb String.eqb_eq).
      now apply registry_ok_delete.
    + cbn. apply registry_ok_set; [discriminate | | exact Hok].
      rewrite <- Ed. apply set_delete_nat_NoDup.
      destruct Hok as [_ He].
      exact (proj2 (He symbol l (map_get_In_entry _ _ _ E))).
  - rewrite Hsend. cbn. now apply registry_ok_delete.
Qed.

(** X24.  The registry stays well formed over any sequence of
    [subscribe] and [unsubscribe] calls, for any symbols: one entry per
    symbol, every entry with at least one callback and no callback twice.
    So [getSubscribedSymbols()] never lists a symbol twice, and a symbol it
    lists has exactly one entry. *)
Theorem registry_well_formed (ops : list RegistryOp) (w : World) :
  registry_ok (subscribers (client w)) ->
  let w' := fold_left registry_apply ops w in
  registry_ok (subscribers (client w')) /\
  NoDup (getSubscribedSymbols w') /\
  forall symbol, In symbol (getSubscribedSymbols w') ->
    unique_entry symbol w' /\ callbacks_of symbol w' <> [].
Proof.
  intros Hok. cbv zeta.
  assert (registry_ok (subscribers (client (fold_left registry_apply ops w)))) as H.
  { revert w Hok. induction ops as [|op ops IH]; intros w Hok; [exact Hok|].
    cbn [fold_left]. apply IH.
    destruct op; cbn [registry_apply];
      [now apply subscribe_registry | now apply unsubscribe_registry]. }
  remember (fold_left registry_apply ops w) as w' eqn:E. clear E.
  split; [exact H|]. destruct H as [Hk He].
  split; [exact Hk|].
  intros symbol Hin. unfold getSubscribedSymbols in Hin.
  apply in_map_iff in Hin. destruct Hin as ([k l] & Hfst & Hin).
  cbn in Hfst. subst k.
  assert (map_get String.eqb symbol (subscribers (client w')) = Some l) as Hget.
  { clear He. induction (subscribers (client w')) as [|[k0 v0] m IH];
      [destruct Hin|].
    cbn [map fst] in Hk. inversion Hk as [|? ? Hn Hm]; subst.
    cbn [map_get]. destruct Hin as [Hin|Hin].
    - inversion Hin; subst. now rewrite String.eqb_refl.
    - destruct (String.eqb symbol k0) eqn:Eq.
      + apply String.eqb_eq in Eq. subst k0. exfalso. apply Hn.
        apply in_map_iff. exists (symbol, l). auto.
      + apply IH; assumption. }
  split.
  - split.
    + unfold map_has. now rewrite Hget.
    + now apply (map_get_delete_same String.eqb String.eqb_eq).
  - unfold callbacks_of. rewrite Hget. exact (proj1 (He symbol l Hin)).
Qed.

Lemma registry_well_formed_witness :
  NoDup (getSubscribedSymbols
           (fold_left registry_apply
              [RSubscribe "EURUSD" 1; RSubscribe "GBPUSD" 2; RSubscribe "EURUSD" 3;
               RUnsubscribe "EURUSD" (Some 1); RUnsubscribe "GBPUSD" None]
              online)).
Proof.
  apply (registry_well_formed
           [RSubscribe "EURUSD" 1; RSubscribe "GBPUSD" 2; RSubscribe "EURUSD" 3;
            RUnsubscribe "EURUSD" (Some 1); RUnsubscribe "GBPUSD" None] online).
  split; [vm_compute; constructor|]. intros symbol callbacks H. destruct H.
Defined.

(* ================================================================== *)
(** * Reconnection when failures and timers come in any order *)














(* ================================================================== *)
(** * Transport close, deliberate disconnect and the timers *)










(* ================================================================== *)
(** * Coalesced candle requests, and the fetch that fails *)

Lemma ready_no_marker symbol timeframe count candles w :
  getCandlesWithCache symbol timeframe count w = (Ready candles, w) ->
  map_get String.eqb (cacheKey symbol timeframe count) (candlesPromises w) = None.
Proof.
  unfold getCandlesWithCache. cbv zeta.
  destruct (map_get String.eqb _ (candlesPromises w)); [discriminate | reflexivity].
Qed.

(** C5 (as corrected).  The client is connected and the request is
    neither in flight nor cached.  Then [m + 1] calls of
    [getCandlesWithCache] in the same turn send one [get_candles] request
    and all return the same in-flight promise, the one marker of the key;
    when the response arrives that promise resolves with the candle list
    of the response, which is cached under the key.  When no response
    arrives, the promise of [wsClient.getCandles] is not rejected: its
    10 s timer resolves it with [[]].  So the [then] callback runs, not
    the [catch] callback: the in-flight promise resolves with [[]], the
    marker is removed, [[]] is cached under the key, and the next call is
    answered with [[]] from the cache and changes nothing: it sends no
    request. *)
Theorem candle_requests_coalesce
    (symbol timeframe : string) (count m : nat) (candles : list CandleData)
    (w : World)
    (Hconn : connected w = true)
    (Hmarker : map_get String.eqb (cacheKey symbol timeframe count)
                 (candlesPromises w) = None)
    (Hcache : map_get String.eqb (cacheKey symbol timeframe count)
                (candlesCache w) = None)
    (Hids : handles_allocated w = true) :
  let key := cacheKey symbol timeframe count in
  let q := length (promises w) in
  let p := S (length (promises w)) in
  let t := length (timers w) in
  let rs := fst (cache_calls (S m) symbol timeframe count w) in
  let w1 := snd (cache_calls (S m) symbol timeframe count w) in
  let w2 := drain (deliver (MData (DCandles symbol timeframe (Some candles))) w1) in
  let w3 := drain (fire t w1) in
  trace w1 = (trace w ++ [Sent (OGetCandles symbol timeframe count)])%list /\
  rs = repeat (Awaiting p) (S m) /\
  map_get String.eqb key (candlesPromises w1) = Some p /\
  promise_state p w2 = Some (Resolved (VCandles candles)) /\
  map_get String.eqb key (candlesCache w2) = Some candles /\
  (NoDup (map fst (candlesPromises w)) ->
   timer_pending t w1
   = Some (TCandlesTimeout q (CbCandles q t symbol timeframe), 10000 # 1) /\
   promise_state q (fire t w1) = Some (Resolved (VCandles [])) /\
   promise_state p w3 = Some (Resolved (VCandles [])) /\
   map_get String.eqb key (candlesCache w3) = Some [] /\
   map_get String.eqb key (candlesPromises w3) = None /\
   getCandlesWithCache symbol timeframe count w3 = (Ready [], w3)).
Proof.
  cbv zeta.
  destruct (cache_miss symbol timeframe count w Hconn Hmarker Hcache)
    as (w1 & Ecall & Htr & Hcp & Hcc & Hre & Hpr & Hel & Hso).
  assert (map_get String.eqb (cacheKey symbol timeframe count) (candlesPromises w1)
          = Some (S (length (promises w)))) as Hm1.
  { rewrite Hcp. apply (map_get_set_same String.eqb String.eqb_eq). }
  cbn [cache_calls]. rewrite Ecall, (cache_calls_hit m _ _ _ _ w1 Hm1).
  cbn [fst snd].
  split; [exact Htr|]. split; [reflexivity|]. split; [exact Hm1|].
  assert (promise_state (S (length (promises w)))
            (drain (deliver (MData (DCandles symbol timeframe (Some candles))) w1))
            = Some (Resolved (VCandles candles)) /\
          map_get String.eqb (cacheKey symbol timeframe count)
            (candlesCache
               (drain (deliver (MData (DCandles symbol timeframe (Some candles))) w1)))
            = Some candles) as Hresp.
  { destruct (handles_allocated_spec w Hids) as (Hbus & Hsock & Hreact).
    destruct (connected_socket w Hconn) as [s Hs].
    remember (length (promises w)) as N eqn:EN.
    unfold deliver. rewrite Hso, Hs. cbn [option_map sock_event event_name].
    rewrite listeners_for_sock_on, fold_left_app. cbn [fold_left].
    assert (delivered N w1
              (fold_left (run_listener (MData (DCandles symbol timeframe (Some candles))))
                 (listeners_for (data_sev candles_ev) s) w1)) as Hx.
    { apply listeners_delivered.
      - intros e g. unfold listeners_of. rewrite Hel. apply Hbus.
      - now apply Hsock. }
    remember (fold_left (run_listener (MData (DCandles symbol timeframe (Some candles))))
                (listeners_for (data_sev candles_ev) s) w1) as x eqn:Ex. clear Ex.
    destruct Hx as [Xr _ _ Xn _].
    assert (nth_error (promises w1) N = Some None /\
            nth_error (promises w1) (S N) = Some None) as (HN & HSN).
    { rewrite Hpr, EN. split.
      - change [None; None] with ([None] ++ [@None Outcome])%list.
        rewrite app_assoc, nth_error_app1 by (rewrite length_app; simpl; lia).
        apply nth_error_last.
      - change [None; None] with ([None] ++ [@None Outcome])%list.
        rewrite app_assoc.
        replace (S (length (promises w))) with (length (promises w ++ [None]))
          by (rewrite length_app; simpl; lia).
        apply nth_error_last. }
    cbn [run_listener].
    destruct (candles_handler_resolves N (length (timers w)) symbol timeframe candles x)
      as (Yq & Yr & Yn).
    { unfold is_pending. rewrite Xn by lia. now rewrite HN. }
    remember (call (CbCandles N (length (timers w)) symbol timeframe)
                (DCandles symbol timeframe (Some candles)) x) as y eqn:Ey. clear Ey.
    assert (exists z,
              drain y = react z (N, cacheKey symbol timeframe count, S N) /\
              forall k, N <= k ->
                nth_error (promises z) k = nth_error (promises y) k) as Hd.
    { unfold drain. cbv zeta. rewrite Yr, Xr, Hre, !filter_app. cbn [filter].
      assert (source_settled y (N, cacheKey symbol timeframe count, S N) = true)
        as Hset by (unfold source_settled; cbn [fst]; now rewrite Yq).
      rewrite Hset. cbn [negb]. rewrite fold_left_app. cbn [fold_left].
      eexists. split; [reflexivity|].
      intros k Hk. rewrite fold_react_nth_other; [reflexivity|].
      intros r Hr. apply filter_In in Hr. destruct Hr as [Hr _].
      destruct (Hreact r Hr). lia. }
    destruct Hd as (z & -> & Hfold).
    apply react_resolved.
    - unfold promise_state in *. now rewrite Hfold by lia.
    - unfold is_pending. rewrite Hfold, Yn, Xn, HSN by lia. reflexivity. }
  split; [apply Hresp|]. split; [apply Hresp|].
  intros Hmarkers.
  pose proof (cache_miss_timer symbol timeframe count w Hconn Hmarker Hcache) as Ht.
  rewrite Ecall in Ht. cbn [snd] in Ht.
  split; [exact Ht|].
  rewrite (fire_candles_timeout _ _ _ _ _ Ht).
  destruct (handles_allocated_spec w Hids) as (_ & _ & Hreact).
  destruct (nth_error_two (promises w) (@None Outcome) None) as (HN & HSN).
  rewrite <- Hpr in HN, HSN.
  match goal with |- context [resolve ?q ?v ?x] =>
    assert (promises x = promises w1) as Hpx
      by (cbn [promises upd_socket upd_client]; apply clearTimeout_promises);
    assert (reactions x = reactions w1 /\ candlesPromises x = candlesPromises w1)
      as (Hrx & Hmx)
      by (destruct (clearTimeout_hook (length (timers w)) w1) as (A & _ & C);
          split; [exact A | exact C]);
    remember x as x0 eqn:E; clear E
  end.
  unfold resolve.
  destruct (settle_hook (length (promises w)) (Resolved (VCandles [])) x0)
    as (Hry & _ & Hmy).
  assert (promise_state (length (promises w))
            (settle (length (promises w)) (Resolved (VCandles [])) x0)
          = Some (Resolved (VCandles []))) as Hq.
  { apply settle_pending. unfold is_pending. now rewrite Hpx, HN. }
  split; [exact Hq|].
  destruct (drain_completes symbol timeframe count [] (length (promises w))
              (reactions w)
              (settle (length (promises w)) (Resolved (VCandles [])) x0))
    as (D1 & D2 & D3).
  - now rewrite Hry, Hrx.
  - exact Hreact.
  - exact Hq.
  - unfold is_pending. rewrite settle_nth_other by lia. now rewrite Hpx, HSN.
  - rewrite Hmy, Hmx, Hcp. now apply (map_set_NoDup String.eqb String.eqb_eq).
  - split; [exact D1|]. split; [exact D2|]. split; [|exact D3].
    exact (ready_no_marker _ _ _ _ _ D3).
Qed.

Lemma candle_requests_coalesce_witness :
  let symbol := "BTCUSD" in
  let timeframe := "M5" in
  let count := 100 in
  let candles := [sample_candle] in
  let key := cacheKey symbol timeframe count in
  let q := length (promises online) in
  let p := S (length (promises online)) in
  let t := length (timers online) in
  let rs := fst (cache_calls 2 symbol timeframe count online) in
  let w1 := snd (cache_calls 2 symbol timeframe count online) in
  let w2 := drain (deliver (MData (DCandles symbol timeframe (Some candles))) w1) in
  let w3 := drain (fire t w1) in
  (trace w1 = (trace online ++ [Sent (OGetCandles symbol timeframe count)])%list /\
   rs = repeat (Awaiting p) 2 /\
   map_get String.eqb key (candlesPromises w1) = Some p /\
   promise_state p w2 = Some (Resolved (VCandles candles)) /\
   map_get String.eqb key (candlesCache w2) = Some candles) /\
  (timer_pending t w1
   = Some (TCandlesTimeout q (CbCandles q t symbol timeframe), 10000 # 1) /\
   promise_state q (fire t w1) = Some (Resolved (VCandles [])) /\
   promise_state p w3 = Some (Resolved (VCandles [])) /\
   map_get String.eqb key (candlesCache w3) = Some [] /\
   map_get String.eqb key (candlesPromises w3) = None /\
   getCandlesWithCache symbol timeframe count w3 = (Ready [], w3)).
Proof.
  assert (connected online = true) as H1 by (vm_compute; reflexivity).
  assert (map_get String.eqb (cacheKey "BTCUSD" "M5" 100) (candlesPromises online)
          = None) as H2 by (vm_compute; reflexivity).
  assert (map_get String.eqb (cacheKey "BTCUSD" "M5" 100) (candlesCache online)
          = None) as H3 by (vm_compute; reflexivity).
  assert (handles_allocated online = true) as H4 by (vm_compute; reflexivity).
  assert (NoDup (map fst (candlesPromises online))) as H5
    by (vm_compute; constructor).
  pose proof (candle_requests_coalesce "BTCUSD" "M5" 100 1 [sample_candle] online
                H1 H2 H3 H4) as H.
  cbv zeta in H. destruct H as (A & B & C & D & E & F).
  cbv zeta.
  exact (conj (conj A (conj B (conj C (conj D E)))) (F H5)).
Defined.

(** C5, the claim as stated fails in its last part.  A fetch that fails
    does not reject: [getCandles] resolves with [[]] when its timeout
    fires, and at once when the client is not connected.  No promise is
    ever rejected, the empty list is cached, and the next caller gets it
    from the cache: no new [get_candles] request is sent, not even after
    the client has connected. *)
Lemma failed_fetch_is_not_retried :
  (let w1 := snd (getCandlesWithCache "BTCUSD" "M5" 100 online) in
   let w2 := drain (fire (length (timers online)) w1) in
   let r := getCandlesWithCache "BTCUSD" "M5" 100 w2 in
   connected w2 = true /\
   forallb (fun o => match o with Some (Rejected _) => false | _ => true end)
     (promises w2) = true /\
   map_get String.eqb (cacheKey "BTCUSD" "M5" 100) (candlesCache w2) = Some [] /\
   fst r = Ready [] /\
   sent (trace (snd r)) = sent (trace w1)) /\
  (let w1 := snd (getCandlesWithCache "BTCUSD" "M5" 100 initial) in
   let w2 := run [ADrain; AConnect; ADeliver MConnect] w1 in
   let r := getCandlesWithCache "BTCUSD" "M5" 100 w2 in
   connected w2 = true /\
   forallb (fun o => match o with Some (Rejected _) => false | _ => true end)
     (promises w2) = true /\
   map_get String.eqb (cacheKey "BTCUSD" "M5" 100) (candlesCache w2) = Some [] /\
   fst r = Ready [] /\
   sent (trace (snd r)) = []).
Proof.
  cbv zeta.
  repeat match goal with |- _ /\ _ => split end; vm_compute; reflexivity.
Qed.
